(** * Accuracy verification of the Polymarket BTC 15m signal bot

    A shallow embedding of the analysis scripts [verify_accuracy.py],
    [analyze_new.py], [analyze_48h.py] and [analyze_24h.py]: window
    indexing, grouping of signal rows, majority vote, the Binance kline
    fetchers, the scoring loops, the streak scan and the rendering of
    bucket accuracies.

    Conventions of the embedding:
    - Python [int] is [Z]; [%] on a positive divisor is [Z.modulo].
    - Python [float] is the kernel's binary64 [float].
    - Python [str] is [string]; [needle in hay] is [str_in needle hay].
    - A [dict] keyed by integers or strings is a [gmap]; a pandas
      DataFrame is the list of its rows in [iterrows] order.
    - A raised exception is [Raise e]; [requests.get] reads the next
      entry of a script of server responses and the requests issued are
      recorded. *)

From Stdlib Require Import ZArith String Floats QArith.
From stdpp Require Import gmap strings list fin_maps sorting.

Open Scope string_scope.
Open Scope Z_scope.
Open Scope list_scope.

(** ** Python values shared by the scripts *)

(** ['UP'], ['DOWN'] and ['NEUTRAL']: the strings a vote and a kline
    result are compared on. *)
Inductive label := UP | DOWN | NEUTRAL.

#[global] Instance label_eq_dec : EqDecision label.
Proof. solve_decision. Defined.

(** [str(label)], used to build the key [f'{vote}_vote']. *)
Definition label_str (v : label) : string :=
  match v with UP => "UP" | DOWN => "DOWN" | NEUTRAL => "NEUTRAL" end.

Inductive exn :=
| Exception (status_code : Z)   (* raise Exception(f"Error Binance: {status}") *)
| RequestException              (* raised by requests.get itself *)
| ValueError                    (* max() of an empty sequence *)
| KeyError                      (* d[key] on a missing key *)
| IndexError                    (* xs[0] on an empty list *)
| TypeError
| ZeroDivisionError.

Inductive result (A : Type) :=
| Ok (a : A)
| Raise (e : exn).
Arguments Ok {A} a.
Arguments Raise {A} e.

#[global] Instance result_ret : MRet result := fun A a => Ok a.
#[global] Instance result_bind : MBind result := fun A B k r =>
  match r with Ok a => k a | Raise e => Raise e end.

(** Python's [needle in hay] on strings: [needle] occurs at some offset. *)
Fixpoint str_in (needle hay : string) : bool :=
  String.prefix needle hay ||
  match hay with
  | EmptyString => false
  | String _ rest => str_in needle rest
  end.

(** One row of the signal CSV. [row_timestamp] is
    [int(ts.timestamp() * 1000)], the instant in UTC milliseconds;
    [row_recommendation] is [str(row['recommendation'])]. [row_signal]
    is the text of the signal cell. The scripts store [row['signal']] as
    read, without [str()]: a cell that holds no text (an empty cell is
    read as NaN) makes ['UP' in s['signal']] raise a [TypeError] in
    [determine_vote]. A row stands for a line with an instant and a text
    signal; lines without them are not represented, so what is proved
    about a run that completes is proved for files of such lines. *)
Record row := {
  row_timestamp : Z;
  row_signal : string;
  row_recommendation : string;
  row_model_up : float;
  row_model_down : float;
  row_edge_up : float;
  row_edge_down : float;
  row_regime : string
}.

(** The dict appended to a window's list. [verify_accuracy.py] stores
    neither ['edge_down'] nor ['regime']; the other scripts store both and
    read the regime with [s.get('regime', default)]. *)
Record signal_rec := {
  s_signal : string;
  s_rec : string;
  s_model_up : float;
  s_model_down : float;
  s_edge_up : float;
  s_edge_down : option float;
  s_regime : option string
}.

(** One kline of the Binance payload, fields 0..5 after [int]/[float].
    The fetchers convert with [int(k[0])], [float(k[1])], [float(k[4])],
    which raise on an entry that does not convert; a candle stands for
    an entry that converts, and a 200 body for a list of such entries. *)
Record candle := {
  k0 : Z;      (* open time *)
  k1 : float;  (* open *)
  k2 : float;  (* high *)
  k3 : float;  (* low *)
  k4 : float;  (* close *)
  k5 : float   (* volume *)
}.

(** The dict stored per open time; only [analyze_24h.py] keeps
    high, low and volume. *)
Record kline := {
  kl_open : float;
  kl_close : float;
  kl_result : label;
  kl_high : option float;
  kl_low : option float;
  kl_volume : option float
}.

(** The query parameters that vary between calls of [requests.get]
    (symbol, interval ['15m'] and limit 1000 are constant). *)
Record request := { startTime : Z; endTime : Z }.

Inductive response :=
| ConnectionError                               (* requests.get raises *)
| Response (status_code : Z) (json : list candle).

(** ['UP' if close > open else 'DOWN'] on binary64 floats. *)
Definition up_or_down (open_price close_price : float) : label :=
  if PrimFloat.ltb open_price close_price then UP else DOWN.

(** [15 * 60 * 1000] *)
Definition window_size : Z := 15 * 60 * 1000.

(** [get_window_start], on the millisecond instant [ts_ms]:
    [return ts_ms - (ts_ms % window_size)]. Identical in all scripts. *)
Definition get_window_start (ts_ms : Z) : Z :=
  ts_ms - (ts_ms mod window_size).

(** [windows[window_start].append(x)] on a [defaultdict(list)]. *)
Definition append_to (windows : gmap Z (list signal_rec))
    (window_start : Z) (x : signal_rec) : gmap Z (list signal_rec) :=
  <[window_start := (windows !!! window_start) ++ [x]]> windows.

(** [sorted(d.keys())] for integer keys. *)
Definition sorted_keys {A} (d : gmap Z A) : list Z :=
  merge_sort Z.le (elements (dom d)).

(** [max(d.keys())]; [None] stands for the [ValueError] on an empty dict. *)
Definition max_key {A} (d : gmap Z A) : option Z :=
  match elements (dom d) with
  | [] => None
  | k :: ks => Some (foldr Z.max k ks)
  end.

(** [{k: v for k, v in windows.items() if len(v) > 0}] *)
Definition active_of (windows : gmap Z (list signal_rec)) : gmap Z (list signal_rec) :=
  filter (fun kv => (0 < length kv.2)%nat) windows.

(** ** The paginated fetcher of analyze_new.py, analyze_48h.py and
    analyze_24h.py

    The three scripts share the loop; they differ in the dict stored per
    candle, the parameter [store] below. Each iteration issues one request
    and consumes one response of the script; [None] means the script ended
    while the loop still wanted a response. *)
Section Pagination.
Variable store : gmap Z kline -> candle -> gmap Z kline.

Fixpoint fetch_loop (script : list response) (all_klines : gmap Z kline)
    (current_start end_time : Z) : option (list request * result (gmap Z kline)) :=
  if decide (current_start < end_time) then
    match script with
    | [] => None
    | resp :: script' =>
        let params :=
          {| startTime := current_start;
             endTime := Z.min (current_start + 1000 * 15 * 60 * 1000) end_time |} in
        match resp with
        | ConnectionError => Some ([params], Raise RequestException)
        | Response status data =>
            if decide (status ≠ 200) then Some ([params], Ok all_klines)
            else
              match data with
              | [] => Some ([params], Ok all_klines)
              | _ :: _ =>
                  let all_klines' := foldl store all_klines data in
                  match max_key all_klines' with
                  | None => Some ([params], Raise ValueError)
                  | Some m =>
                      match fetch_loop script' all_klines' (m + 15 * 60 * 1000) end_time with
                      | None => None
                      | Some (reqs, r) => Some (params :: reqs, r)
                      end
                  end
              end
        end
    end
  else Some ([], Ok all_klines).

Definition paginated_fetch (script : list response) (start_time end_time : Z)
    : option (list request * result (gmap Z kline)) :=
  fetch_loop script ∅ start_time end_time.
End Pagination.

(** The dict every script but verify_accuracy.py builds from a row. *)
Definition full_signal_of_row (r : row) : signal_rec :=
  {| s_signal := row_signal r; s_rec := row_recommendation r;
     s_model_up := row_model_up r; s_model_down := row_model_down r;
     s_edge_up := row_edge_up r; s_edge_down := Some (row_edge_down r);
     s_regime := Some (row_regime r) |}.

(** [group_signals_by_window]: the loop is the same in every script, up
    to the dict [mk r] built from a row. Only a row whose recommendation
    contains ['STRONG'] or ['GOOD'] is appended. *)
Definition group_rows (mk : row -> signal_rec) (df : list row) : gmap Z (list signal_rec) :=
  foldl (fun windows r =>
           let rec := row_recommendation r in
           if str_in "STRONG" rec || str_in "GOOD" rec then
             let window_start := get_window_start (row_timestamp r) in
             append_to windows window_start (mk r)
           else windows)
        ∅ df.

(** [sorted_windows[0]] and [sorted_windows[-1] + 15 * 60 * 1000]. *)
Definition fetch_range (sorted_windows : list Z) : result (Z * Z) :=
  match head sorted_windows, last sorted_windows with
  | Some first, Some final => Ok (first, final + 15 * 60 * 1000)
  | _, _ => Raise IndexError
  end.

(** [sum(1 for s in signals if token in s['signal'])] *)
Definition count_with (token : string) (signals : list signal_rec) : Z :=
  foldl (fun n s => if str_in token (s_signal s) then n + 1 else n) 0 signals.

(** ** Scoring state shared by the scripts *)

(** A [{'correct': _, 'wrong': _}] (or [{'c': _, 'w': _}]) counter pair. *)
Record bucket := { correct : Z; wrong : Z }.

Definition zero_bucket : bucket := {| correct := 0; wrong := 0 |}.

(** [b['correct'] += 1] when [is_correct], else [b['wrong'] += 1]. *)
Definition bump (is_correct : bool) (b : bucket) : bucket :=
  if is_correct then {| correct := correct b + 1; wrong := wrong b |}
  else {| correct := correct b; wrong := wrong b + 1 |}.

Definition bucket_total (b : bucket) : Z := correct b + wrong b.

(** One entry of the detail log. [d_time] is the window start (which
    verify_accuracy.py stores rendered as [%H:%M]); only
    verify_accuracy.py stores ['num_signals']. *)
Record detail := {
  d_time : Z;
  d_vote : label;
  d_result : label;
  d_correct : bool;
  d_num_signals : option Z
}.

(** [for x in xs: st = body st x], stopping at the first exception. *)
Fixpoint for_each {S A} (body : S -> A -> result S) (xs : list A) (st : S) : result S :=
  match xs with
  | [] => Ok st
  | x :: xs' =>
      match body st x with
      | Ok st' => for_each body xs' st'
      | Raise e => Raise e
      end
  end.

(** The streak scan, the same in every script. *)
Record streak := {
  max_winning_streak : Z;
  max_losing_streak : Z;
  current_winning : Z;
  current_losing : Z
}.

Definition streak_step (st : streak) (r : detail) : streak :=
  if d_correct r then
    let current_winning' := current_winning st + 1 in
    {| current_winning := current_winning';
       current_losing := 0;
       max_winning_streak := Z.max (max_winning_streak st) current_winning';
       max_losing_streak := max_losing_streak st |}
  else
    let current_losing' := current_losing st + 1 in
    {| current_losing := current_losing';
       current_winning := 0;
       max_losing_streak := Z.max (max_losing_streak st) current_losing';
       max_winning_streak := max_winning_streak st |}.

Definition streak_scan (results_detail : list detail) : streak :=
  foldl streak_step
        {| max_winning_streak := 0; max_losing_streak := 0;
           current_winning := 0; current_losing := 0 |}
        results_detail.

(** What a report prints about accuracies, one constructor per kind of
    line. A percentage is carried as the exact quotient whose nearest
    float the script prints. *)
Inductive line :=
| Precision (c total : Z) (accuracy : Q)
| NoPrecision
| BucketLine (key : string) (c t : Z) (acc : Q)
| NoData (key : string)
| Streaks (best_win worst_loss : Z)
| Comparison (accuracy strong good up down : Q).

(** [a / b * 100] with Python's true division. *)
Definition percent (a b : Z) : result Q :=
  if decide (b = 0) then Raise ZeroDivisionError
  else Ok (inject_Z a / inject_Z b * inject_Z 100)%Q.

(** [stats[key]] on a dict of buckets. *)
Definition get_bucket (stats : gmap string bucket) (key : string) : result bucket :=
  match stats !! key with
  | Some b => Ok b
  | None => Raise KeyError
  end.

(** [stats[key][...] += 1] on a dict of buckets. *)
Definition bump_bucket (key : string) (is_correct : bool) (stats : gmap string bucket)
    : result (gmap string bucket) :=
  b ← get_bucket stats key;
  Ok (<[key := bump is_correct b]> stats).

(** The lines of a [for key in keys:] block that prints a bucket only
    when its total is positive; [else_line] is what the [else] branch
    prints, if the block has one. *)
Fixpoint bucket_lines (else_line : string -> list line)
    (stats : gmap string bucket) (keys : list string) : result (list line) :=
  match keys with
  | [] => Ok []
  | key :: keys' =>
      b ← get_bucket stats key;
      let c := correct b in
      let w := wrong b in
      let t := c + w in
      here ← (if decide (t > 0) then
                acc ← percent c t; Ok [BucketLine key c t acc]
              else Ok (else_line key));
      rest ← bucket_lines else_line stats keys';
      Ok (here ++ rest)
  end.

(** ** verify_accuracy.py *)
Module verify_accuracy.

(** The dict built from a row (no ['edge_down'], no ['regime']). *)
Definition signal_of_row (r : row) : signal_rec :=
  {| s_signal := row_signal r; s_rec := row_recommendation r;
     s_model_up := row_model_up r; s_model_down := row_model_down r;
     s_edge_up := row_edge_up r; s_edge_down := None; s_regime := None |}.

Definition group_signals_by_window (df : list row) : gmap Z (list signal_rec) :=
  group_rows signal_of_row df.

Definition store (klines : gmap Z kline) (k : candle) : gmap Z kline :=
  let open_time := k0 k in
  let open_price := k1 k in
  let close_price := k4 k in
  <[open_time := {| kl_open := open_price; kl_close := close_price;
                    kl_result := up_or_down open_price close_price;
                    kl_high := None; kl_low := None; kl_volume := None |}]> klines.

(** One request; a non-200 status raises. The first component is the
    list of requests issued; [None] when the script has no response. *)
Definition fetch_binance_klines (script : list response) (start_time end_time : Z)
    : option (list request * result (gmap Z kline)) :=
  match script with
  | [] => None
  | resp :: _ =>
      let params := {| startTime := start_time; endTime := end_time |} in
      Some ([params],
            match resp with
            | ConnectionError => Raise RequestException
            | Response status data =>
                if decide (status ≠ 200) then Raise (Exception status)
                else Ok (foldl store ∅ data)
            end)
  end.

(** The running counters of [determine_vote]: if / elif. *)
Definition count_step (acc : Z * Z) (s : signal_rec) : Z * Z :=
  let '(up_count, down_count) := acc in
  let sig := s_signal s in
  if str_in "UP" sig then (up_count + 1, down_count)
  else if str_in "DOWN" sig then (up_count, down_count + 1)
  else (up_count, down_count).

Definition determine_vote (signals : list signal_rec) : label :=
  let '(up_count, down_count) := foldl count_step (0, 0) signals in
  if decide (up_count > down_count) then UP
  else if decide (down_count > up_count) then DOWN
  else NEUTRAL.


(** The counters of [main]'s verification loop. *)
Record tally := {
  t_correct : Z;
  t_wrong : Z;
  t_total : Z;
  results_detail : list detail
}.

Definition empty_tally : tally :=
  {| t_correct := 0; t_wrong := 0; t_total := 0; results_detail := [] |}.

(** One iteration of [for window_start in sorted_windows:]. *)
Definition score_window (active_windows : gmap Z (list signal_rec))
    (klines : gmap Z kline) (st : tally) (window_start : Z) : result tally :=
  match klines !! window_start with
  | None => Ok st
  | Some kline =>
      match active_windows !! window_start with
      | None => Raise KeyError
      | Some signals =>
          let vote := determine_vote signals in
          if decide (vote = NEUTRAL) then Ok st
          else
            let is_correct := bool_decide (vote = kl_result kline) in
            let entry :=
              {| d_time := window_start; d_vote := vote;
                 d_result := kl_result kline; d_correct := is_correct;
                 d_num_signals := Some (Z.of_nat (length signals)) |} in
            Ok {| results_detail := results_detail st ++ [entry];
                  t_correct := if is_correct then t_correct st + 1 else t_correct st;
                  t_wrong := if is_correct then t_wrong st else t_wrong st + 1;
                  t_total := t_total st + 1 |}
      end
  end.

Definition score (active_windows : gmap Z (list signal_rec)) (klines : gmap Z kline)
    (sorted_windows : list Z) : result tally :=
  for_each (score_window active_windows klines) sorted_windows empty_tally.

(** The inner [for s in signals:] of [analyze_by_recommendation_type]. *)
Definition categorize (is_correct : bool) (stats : gmap string bucket) (s : signal_rec)
    : result (gmap string bucket) :=
  let rec := s_rec s in
  let quality :=
    if str_in "STRONG" rec then Some "STRONG"
    else if str_in "GOOD" rec then Some "GOOD"
    else None in
  match quality with
  | None => Ok stats                                  (* continue *)
  | Some key =>
      stats ← bump_bucket key is_correct stats;
      let timing :=
        if str_in "EARLY" rec then Some "EARLY"
        else if str_in "MID" rec then Some "MID"
        else if str_in "LATE" rec then Some "LATE"
        else None in
      match timing with
      | None => Ok stats                              (* continue *)
      | Some timing => bump_bucket timing is_correct stats
      end
  end.

Definition empty_stats : gmap string bucket :=
  list_to_map ((fun k => (k, zero_bucket)) <$> ["STRONG"; "GOOD"; "EARLY"; "MID"; "LATE"]).

(** [analyze_by_recommendation_type]. The dict is walked by ascending
    key; the counters do not depend on the order of the windows. *)
Definition analyze_by_recommendation_type (windows : gmap Z (list signal_rec))
    (klines : gmap Z kline) : result (gmap string bucket) :=
  for_each
    (fun stats window_start =>
       match klines !! window_start with
       | None => Ok stats
       | Some kline =>
           let signals := windows !!! window_start in
           let vote := determine_vote signals in
           if decide (vote = NEUTRAL) then Ok stats
           else
             let is_correct := bool_decide (vote = kl_result kline) in
             for_each (categorize is_correct) signals stats
       end)
    (sorted_keys windows) empty_stats.

(** What [main] prints about accuracies after the loop, given the
    per-type [stats] (section 6, "Resumen"). *)
Definition render (st : tally) (stats : gmap string bucket) : result (list line) :=
  if decide (t_total st > 0) then
    accuracy ← percent (t_correct st) (t_total st);
    quality ← bucket_lines (fun _ => []) stats ["STRONG"; "GOOD"];
    timing ← bucket_lines (fun _ => []) stats ["EARLY"; "MID"; "LATE"];
    let sk := streak_scan (results_detail st) in
    Ok ([Precision (t_correct st) (t_total st) accuracy] ++ quality ++ timing
        ++ [Streaks (max_winning_streak sk) (max_losing_streak sk)])
  else Ok [].

(** [main] from the grouping on: [df] is the loaded signal file. *)
Definition main (script : list response) (df : list row)
    : option (result (tally * list line)) :=
  let windows := group_signals_by_window df in
  let active_windows := active_of windows in
  if decide (size active_windows = 0%nat) then Some (Ok (empty_tally, []))
  else
    let sorted_windows := sorted_keys active_windows in
    match fetch_range sorted_windows with
    | Raise e => Some (Raise e)
    | Ok (fetch_start, fetch_end) =>
        match fetch_binance_klines script fetch_start fetch_end with
        | None => None
        | Some (_, fetched) =>
            Some (klines ← fetched;
                  st ← score active_windows klines sorted_windows;
                  stats ← (if decide (t_total st > 0)
                           then analyze_by_recommendation_type active_windows klines
                           else Ok empty_stats);
                  lines ← render st stats;
                  Ok (st, lines))
        end
    end.

End verify_accuracy.

(** ** analyze_new.py *)
Module analyze_new.

Definition group_signals_by_window (df : list row) : gmap Z (list signal_rec) :=
  group_rows full_signal_of_row df.

Definition store (all_klines : gmap Z kline) (k : candle) : gmap Z kline :=
  let open_time := k0 k in
  <[open_time := {| kl_open := k1 k; kl_close := k4 k;
                    kl_result := up_or_down (k1 k) (k4 k);
                    kl_high := None; kl_low := None; kl_volume := None |}]> all_klines.

Definition fetch_binance_klines := paginated_fetch store.

Definition determine_vote (signals : list signal_rec) : label :=
  let up_count := count_with "UP" signals in
  let down_count := count_with "DOWN" signals in
  if decide (up_count > down_count) then UP
  else if decide (down_count > up_count) then DOWN
  else NEUTRAL.


(** The [results] dict: ['total'] holds the global counters and the
    detail log, every other key a bucket. *)
Record results := {
  total : bucket;
  details : list detail;
  named : gmap string bucket
}.

Definition empty_results : results :=
  {| total := zero_bucket; details := [];
     named := list_to_map ((fun k => (k, zero_bucket)) <$>
                ["STRONG"; "GOOD"; "EARLY"; "MID"; "LATE";
                 "UP_vote"; "DOWN_vote"; "TREND_UP"; "TREND_DOWN"]) |}.

(** The inner [for s in signals:] of the verification loop. *)
Definition score_signal (is_correct : bool) (named : gmap string bucket) (s : signal_rec)
    : result (gmap string bucket) :=
  let rec := s_rec s in
  let regime := default "" (s_regime s) in
  named ← (if str_in "STRONG" rec then bump_bucket "STRONG" is_correct named
           else if str_in "GOOD" rec then bump_bucket "GOOD" is_correct named
           else Ok named);
  named ← for_each (fun named timing =>
                      if str_in timing rec then bump_bucket timing is_correct named
                      else Ok named)
                   ["EARLY"; "MID"; "LATE"] named;
  if bool_decide (regime ∈ ["TREND_UP"; "TREND_DOWN"])
  then bump_bucket regime is_correct named
  else Ok named.

(** One iteration of [for window_start in sorted_windows:]. *)
Definition score_window (active_windows : gmap Z (list signal_rec))
    (klines : gmap Z kline) (res : results) (window_start : Z) : result results :=
  match klines !! window_start with
  | None => Ok res
  | Some kline =>
      match active_windows !! window_start with
      | None => Raise KeyError
      | Some signals =>
          let vote := determine_vote signals in
          if decide (vote = NEUTRAL) then Ok res
          else
            let is_correct := bool_decide (vote = kl_result kline) in
            let entry :=
              {| d_time := window_start; d_vote := vote;
                 d_result := kl_result kline; d_correct := is_correct;
                 d_num_signals := None |} in
            let key := String.append (label_str vote) "_vote" in
            named ← bump_bucket key is_correct (named res);
            named ← for_each (score_signal is_correct) signals named;
            Ok {| total := bump is_correct (total res);
                  details := details res ++ [entry];
                  named := named |}
      end
  end.

Definition score (active_windows : gmap Z (list signal_rec)) (klines : gmap Z kline)
    (sorted_windows : list Z) : result results :=
  for_each (score_window active_windows klines) sorted_windows empty_results.

(** [x / max(1, t) * 100] of the comparison table. *)
Definition percent_or_zero (res : results) (key : string) : result Q :=
  b ← get_bucket (named res) key;
  percent (correct b) (Z.max 1 (correct b + wrong b)).

(** What [main] prints about accuracies after the loop ("Resumen"). *)
Definition render (res : results) : result (list line) :=
  let total := correct (total res) + wrong (total res) in
  if decide (total > 0) then
    accuracy ← percent (correct (analyze_new.total res)) total;
    strength ← bucket_lines (fun key => [NoData key]) (named res) ["STRONG"; "GOOD"];
    timing ← bucket_lines (fun _ => []) (named res) ["EARLY"; "MID"; "LATE"];
    direction ← bucket_lines (fun _ => []) (named res) ["UP_vote"; "DOWN_vote"];
    regime ← bucket_lines (fun _ => []) (named res) ["TREND_UP"; "TREND_DOWN"];
    strong ← percent_or_zero res "STRONG";
    good ← percent_or_zero res "GOOD";
    up ← percent_or_zero res "UP_vote";
    down ← percent_or_zero res "DOWN_vote";
    Ok ([Precision (correct (analyze_new.total res)) total accuracy]
        ++ strength ++ timing ++ direction ++ regime
        ++ [Comparison accuracy strong good up down])
  else Ok [NoPrecision].

(** [FILTER_FROM = "2026-02-04T00:00:00Z"], in UTC milliseconds. *)
Definition FILTER_FROM : Z := 1770163200000.

(** [df[df['timestamp'] >= filter_date].copy()]. In a file without rows
    the timestamp column carries no time zone, and its comparison with
    the zone-aware [filter_date] raises a [TypeError]. *)
Definition filter_rows (df : list row) : result (list row) :=
  match df with
  | [] => Raise TypeError
  | _ :: _ => Ok (List.filter (fun r => bool_decide (FILTER_FROM ≤ row_timestamp r)) df)
  end.

(** [main], from the loaded signal file [df] on. *)
Definition main (script : list response) (df : list row)
    : option (result (results * list line)) :=
  match filter_rows df with
  | Raise e => Some (Raise e)
  | Ok df_new =>
      if decide (length df_new = 0%nat) then Some (Ok (empty_results, []))
      else
        let windows := group_signals_by_window df_new in
        let active_windows := active_of windows in
        if decide (size active_windows = 0%nat) then Some (Ok (empty_results, []))
        else
          let sorted_windows := sorted_keys active_windows in
          match fetch_range sorted_windows with
          | Raise e => Some (Raise e)
          | Ok (fetch_start, fetch_end) =>
              match fetch_binance_klines script fetch_start fetch_end with
              | None => None
              | Some (_, fetched) =>
                  Some (klines ← fetched;
                        res ← score active_windows klines sorted_windows;
                        lines ← render res;
                        Ok (res, lines))
              end
          end
  end.

End analyze_new.
(** ** analyze_48h.py *)

(** [datetime.fromtimestamp(ws / 1000, tz=timezone.utc)], as far as the
    scripts read it: [dt.hour] and [dt.strftime("%m-%d")]. *)
Record calendar := {
  dt_hour : Z -> Z;
  dt_month_day : Z -> string
}.

Module analyze_48h.

Definition group_signals_by_window (df : list row) : gmap Z (list signal_rec) :=
  group_rows full_signal_of_row df.

Definition store (all_klines : gmap Z kline) (k : candle) : gmap Z kline :=
  let open_time := k0 k in
  <[open_time := {| kl_open := k1 k; kl_close := k4 k;
                    kl_result := up_or_down (k1 k) (k4 k);
                    kl_high := None; kl_low := None; kl_volume := None |}]> all_klines.

Definition fetch_binance_klines := paginated_fetch store.

Definition determine_vote (signals : list signal_rec) : label :=
  let up := count_with "UP" signals in
  let dn := count_with "DOWN" signals in
  if decide (up > dn) then UP
  else if decide (dn > up) then DOWN
  else NEUTRAL.

(** The [results] dict. Its keys are ['total'] (the global counters and
    the detail log), the bucket names of [named], and ['by_hour'] and
    ['by_day'] (two [defaultdict]s of buckets). *)
Record results := {
  total : bucket;
  details : list detail;
  named : gmap string bucket;
  by_hour : gmap Z bucket;
  by_day : gmap string bucket
}.

Definition empty_results : results :=
  {| total := zero_bucket; details := [];
     named := list_to_map ((fun k => (k, zero_bucket)) <$>
                ["STRONG"; "GOOD"; "OPTIONAL"; "EARLY"; "MID"; "LATE";
                 "UP_vote"; "DOWN_vote"; "TREND_UP"; "TREND_DOWN";
                 "RANGE"; "CHOP"]);
     by_hour := ∅; by_day := ∅ |}.

(** [key in results] *)
Definition in_results (key : string) (res : results) : bool :=
  bool_decide (key ∈ ["total"; "by_hour"; "by_day"]) ||
  bool_decide (is_Some (named res !! key)).

(** [results[key][bucket] += 1] for a key of the top-level dict:
    ['total'] holds counters of its own; under ['by_hour'] and
    ['by_day'] the subscript yields a fresh bucket dict, and adding 1
    to a dict is a [TypeError]. *)
Definition bump_key (key : string) (is_correct : bool) (res : results) : result results :=
  if decide (key = "total") then
    Ok {| total := bump is_correct (total res); details := details res;
          named := named res; by_hour := by_hour res; by_day := by_day res |}
  else if decide (key = "by_hour" ∨ key = "by_day") then Raise TypeError
  else
    named' ← bump_bucket key is_correct (named res);
    Ok {| total := total res; details := details res;
          named := named'; by_hour := by_hour res; by_day := by_day res |}.

(** [for k in keys: if k in rec: results[k][bucket] += 1; break] *)
Definition bump_first_match (keys : list string) (rec : string) (is_correct : bool)
    (res : results) : result results :=
  match List.find (fun k => str_in k rec) keys with
  | Some k => bump_key k is_correct res
  | None => Ok res
  end.

(** The inner [for s in sigs:] of the verification loop. *)
Definition score_signal (is_correct : bool) (res : results) (s : signal_rec)
    : result results :=
  let rec := s_rec s in
  let regime := default "" (s_regime s) in
  res ← bump_first_match ["STRONG"; "GOOD"; "OPTIONAL"] rec is_correct res;
  res ← bump_first_match ["EARLY"; "MID"; "LATE"] rec is_correct res;
  if in_results regime res then bump_key regime is_correct res
  else Ok res.

(** One iteration of [for ws in sorted_wins:]. *)
Definition score_window (cal : calendar) (active : gmap Z (list signal_rec))
    (klines : gmap Z kline) (res : results) (ws : Z) : result results :=
  match klines !! ws with
  | None => Ok res
  | Some kl =>
      match active !! ws with
      | None => Raise KeyError
      | Some sigs =>
          let vote := determine_vote sigs in
          if decide (vote = NEUTRAL) then Ok res
          else
            let ok := bool_decide (vote = kl_result kl) in
            let date_str := dt_month_day cal ws in
            let hour := dt_hour cal ws in
            let entry :=
              {| d_time := ws; d_vote := vote; d_result := kl_result kl;
                 d_correct := ok; d_num_signals := None |} in
            let res :=
              {| total := total res; details := details res ++ [entry];
                 named := named res; by_hour := by_hour res; by_day := by_day res |} in
            res ← bump_key "total" ok res;
            res ← bump_key (String.append (label_str vote) "_vote") ok res;
            let res :=
              {| total := total res; details := details res; named := named res;
                 by_hour := <[hour := bump ok (default zero_bucket (by_hour res !! hour))]>
                              (by_hour res);
                 by_day := <[date_str := bump ok (default zero_bucket (by_day res !! date_str))]>
                             (by_day res) |} in
            for_each (score_signal ok) sigs res
      end
  end.

Definition score (cal : calendar) (active : gmap Z (list signal_rec))
    (klines : gmap Z kline) (sorted_wins : list Z) : result results :=
  for_each (score_window cal active klines) sorted_wins empty_results.

(** [FILTER_FROM = "2026-02-12T00:00:00Z"], in UTC milliseconds. *)
Definition FILTER_FROM : Z := 1770854400000.

(** [df[df['timestamp'] >= filter_date].copy()]. In a file without rows
    the timestamp column carries no time zone, and its comparison with
    the zone-aware [filter_date] raises a [TypeError]. *)
Definition filter_rows (df : list row) : result (list row) :=
  match df with
  | [] => Raise TypeError
  | _ :: _ => Ok (List.filter (fun r => bool_decide (FILTER_FROM ≤ row_timestamp r)) df)
  end.

(** [main], from the loaded signal file [df] on. The streaks are
    scanned only when some window was scored. *)
Definition main (cal : calendar) (script : list response) (df : list row)
    : option (result (results * option streak)) :=
  match filter_rows df with
  | Raise e => Some (Raise e)
  | Ok df_new =>
      if decide (length df_new = 0%nat) then Some (Ok (empty_results, None))
      else
        let windows := group_signals_by_window df_new in
        let active := active_of windows in
        if decide (size active = 0%nat) then Some (Ok (empty_results, None))
        else
          let sorted_wins := sorted_keys active in
          match fetch_range sorted_wins with
          | Raise e => Some (Raise e)
          | Ok (fetch_start, fetch_end) =>
              match fetch_binance_klines script fetch_start fetch_end with
              | None => None
              | Some (_, fetched) =>
                  Some (klines ← fetched;
                        res ← score cal active klines sorted_wins;
                        let total := correct (total res) + wrong (total res) in
                        if decide (total = 0) then Ok (res, None)
                        else Ok (res, Some (streak_scan (details res))))
              end
          end
  end.

End analyze_48h.
(** ** analyze_24h.py *)
Module analyze_24h.

Definition store (all_klines : gmap Z kline) (k : candle) : gmap Z kline :=
  let open_time := k0 k in
  <[open_time := {| kl_open := k1 k; kl_close := k4 k;
                    kl_result := up_or_down (k1 k) (k4 k);
                    kl_high := Some (k2 k); kl_low := Some (k3 k);
                    kl_volume := Some (k5 k) |}]> all_klines.

Definition fetch_binance_klines := paginated_fetch store.

Definition group_signals_by_window (df : list row) : gmap Z (list signal_rec) :=
  group_rows full_signal_of_row df.

(** [determine_vote]: if / elif on each signal. *)
Definition count_step (acc : Z * Z) (s : signal_rec) : Z * Z :=
  let '(up_count, down_count) := acc in
  if str_in "UP" (s_signal s) then (up_count + 1, down_count)
  else if str_in "DOWN" (s_signal s) then (up_count, down_count + 1)
  else (up_count, down_count).

Definition determine_vote (signals : list signal_rec) : label :=
  let '(up_count, down_count) := foldl count_step (0, 0) signals in
  if decide (up_count > down_count) then UP
  else if decide (down_count > up_count) then DOWN
  else NEUTRAL.

(** One entry of [results['total']['details']]: the usual fields and the
    open and close prices. *)
Record entry := {
  e_detail : detail;
  e_open : float;
  e_close : float
}.

(** The [results] dict of [analyze_signals]: ['total'], the named
    buckets and the [defaultdict] ['by_hour']. *)
Record results := {
  total : bucket;
  details : list entry;
  named : gmap string bucket;
  by_hour : gmap Z bucket
}.

Definition empty_results : results :=
  {| total := zero_bucket; details := [];
     named := list_to_map ((fun k => (k, zero_bucket)) <$>
                ["STRONG"; "GOOD"; "EARLY"; "MID"; "LATE";
                 "TREND_UP"; "TREND_DOWN"; "RANGE"; "CHOP";
                 "UP_vote"; "DOWN_vote"]);
     by_hour := ∅ |}.

(** [regime in results] *)
Definition in_results (key : string) (res : results) : bool :=
  bool_decide (key ∈ ["total"; "by_hour"]) ||
  bool_decide (is_Some (named res !! key)).

(** [results[key]['correct' or 'wrong'] += 1] for a key of the top-level
    dict; under ['by_hour'] the subscript yields a fresh bucket dict, and
    adding 1 to a dict is a [TypeError]. *)
Definition bump_key (key : string) (is_correct : bool) (res : results) : result results :=
  if decide (key = "total") then
    Ok {| total := bump is_correct (total res); details := details res;
          named := named res; by_hour := by_hour res |}
  else if decide (key = "by_hour") then Raise TypeError
  else
    named' ← bump_bucket key is_correct (named res);
    Ok {| total := total res; details := details res;
          named := named'; by_hour := by_hour res |}.

(** The inner [for s in signals:] of [analyze_signals]: a record without
    a strength tier, or without a timing tier, is left by [continue]. *)
Definition score_signal (is_correct : bool) (res : results) (s : signal_rec)
    : result results :=
  let rec := s_rec s in
  let regime := default "UNKNOWN" (s_regime s) in
  let strength :=
    if str_in "STRONG" rec then Some "STRONG"
    else if str_in "GOOD" rec then Some "GOOD"
    else None in
  match strength with
  | None => Ok res
  | Some key =>
      res ← bump_key key is_correct res;
      let timing :=
        if str_in "EARLY" rec then Some "EARLY"
        else if str_in "MID" rec then Some "MID"
        else if str_in "LATE" rec then Some "LATE"
        else None in
      match timing with
      | None => Ok res
      | Some timing =>
          res ← bump_key timing is_correct res;
          if in_results regime res then bump_key regime is_correct res
          else Ok res
      end
  end.

(** One iteration of [for window_start in sorted(active_windows.keys()):]. *)
Definition score_window (cal : calendar) (active_windows : gmap Z (list signal_rec))
    (klines : gmap Z kline) (res : results) (window_start : Z) : result results :=
  match klines !! window_start with
  | None => Ok res
  | Some kline =>
      match active_windows !! window_start with
      | None => Raise KeyError
      | Some signals =>
          let vote := determine_vote signals in
          if decide (vote = NEUTRAL) then Ok res
          else
            let is_correct := bool_decide (vote = kl_result kline) in
            let hour := dt_hour cal window_start in
            let item :=
              {| e_detail := {| d_time := window_start; d_vote := vote;
                                d_result := kl_result kline; d_correct := is_correct;
                                d_num_signals := None |};
                 e_open := kl_open kline; e_close := kl_close kline |} in
            let res :=
              {| total := total res; details := details res ++ [item];
                 named := named res; by_hour := by_hour res |} in
            res ← bump_key "total" is_correct res;
            res ← bump_key (if decide (vote = UP) then "UP_vote" else "DOWN_vote")
                           is_correct res;
            let res :=
              {| total := total res; details := details res; named := named res;
                 by_hour := <[hour := bump is_correct
                                        (default zero_bucket (by_hour res !! hour))]>
                              (by_hour res) |} in
            for_each (score_signal is_correct) signals res
      end
  end.

Definition analyze_signals (cal : calendar) (df : list row) (klines : gmap Z kline)
    : result results :=
  let windows := group_signals_by_window df in
  let active_windows := active_of windows in
  for_each (score_window cal active_windows klines) (sorted_keys active_windows)
           empty_results.

(** One line of the per-hour block of [print_results]: the hour, the
    correct and total counts and the accuracy (the bar of '#' drawn after
    them is not kept). *)
Record hour_line := {
  hl_hour : Z;
  hl_correct : Z;
  hl_total : Z;
  hl_acc : Q
}.

(** The body of [for hour in sorted(results['by_hour'].keys()):], where
    [results['by_hour']] is a [defaultdict]. *)
Definition hour_step (by_hour : gmap Z bucket) (hour_data : list hour_line) (hour : Z)
    : result (list hour_line) :=
  let b := default zero_bucket (by_hour !! hour) in
  let c := correct b in
  let w := wrong b in
  let t := c + w in
  if decide (t > 0) then
    acc ← percent c t;
    Ok (hour_data ++ [{| hl_hour := hour; hl_correct := c;
                         hl_total := t; hl_acc := acc |}])
  else Ok hour_data.

Definition hour_lines (by_hour : gmap Z bucket) : result (list hour_line) :=
  for_each (hour_step by_hour) (sorted_keys by_hour) [].

(** What [print_results] prints from [results] and what it returns. *)
Record printed := {
  p_lines : list line;
  p_hours : list hour_line;
  p_last : list entry;
  p_return : Q
}.

(** [print_results], from "RESULTADOS DE PRECISION" on: the blocks
    printed from [results], the last 20 entries of the log and the
    returned [accuracy if total > 0 else 0]. *)
Definition print_results (res : results) : result printed :=
  let total := correct (analyze_24h.total res) + wrong (analyze_24h.total res) in
  accuracy ← (if decide (total > 0) then
                accuracy ← percent (correct (analyze_24h.total res)) total;
                Ok (Some accuracy)
              else Ok None);
  strength ← bucket_lines (fun _ => []) (named res) ["STRONG"; "GOOD"];
  timing ← bucket_lines (fun _ => []) (named res) ["EARLY"; "MID"; "LATE"];
  regime ← bucket_lines (fun _ => []) (named res)
             ["TREND_UP"; "TREND_DOWN"; "RANGE"; "CHOP"];
  direction ← bucket_lines (fun _ => []) (named res) ["UP_vote"; "DOWN_vote"];
  hours ← hour_lines (by_hour res);
  let st := streak_scan (e_detail <$> details res) in
  Ok {| p_lines :=
          match accuracy with
          | Some accuracy =>
              [Precision (correct (analyze_24h.total res)) total accuracy]
          | None => []
          end
          ++ strength ++ timing ++ regime ++ direction
          ++ [Streaks (max_winning_streak st) (max_losing_streak st)];
        p_hours := hours;
        p_last := drop (length (details res) - 20) (details res);
        p_return := default 0%Q accuracy |}.

(** [main] from the grouping to the call of [print_results]: [None] is
    returned when no window is active, otherwise what [print_results]
    returns. The database part ([load_database], [analyze_database]) is
    left out. *)
Definition main (cal : calendar) (script : list response) (df : list row)
    : option (result (option printed)) :=
  let windows := group_signals_by_window df in
  let active_windows := active_of windows in
  if decide (size active_windows = 0%nat) then Some (Ok None)
  else
    let sorted_windows := sorted_keys active_windows in
    match fetch_range sorted_windows with
    | Raise e => Some (Raise e)
    | Ok (fetch_start, fetch_end) =>
        match fetch_binance_klines script fetch_start fetch_end with
        | None => None
        | Some (_, fetched) =>
            Some (klines ← fetched;
                  results ← analyze_signals cal df klines;
                  out ← print_results results;
                  Ok (Some out))
        end
    end.

End analyze_24h.
(** * Vocabulary of the properties *)

(** The number of records of a window whose signal satisfies [p]. *)
Definition count_signals (p : string -> bool) (signals : list signal_rec) : Z :=
  Z.of_nat (length (List.filter (fun s => p (s_signal s)) signals)).

(** A signal dict with the given ['signal'], ['rec'] and regime. *)
Definition sig_of (signal rec : string) (regime : option string) : signal_rec :=
  {| s_signal := signal; s_rec := rec; s_model_up := 0.5; s_model_down := 0.5;
     s_edge_up := 0; s_edge_down := None; s_regime := regime |}.

(** A window of two records, the first with both tokens in its signal. *)
Definition both_tokens : list signal_rec :=
  [sig_of "UP DOWN" "STRONG" None; sig_of "DOWN" "STRONG" None].

(** No record of the window has a signal with both tokens. *)
Definition single_token (signals : list signal_rec) : Prop :=
  Forall (fun s => ¬ (str_in "UP" (s_signal s) = true ∧ str_in "DOWN" (s_signal s) = true))
         signals.

(** The row's recommendation passes the filter of [group_signals_by_window]. *)
Definition actionable (r : row) : bool :=
  str_in "STRONG" (row_recommendation r) || str_in "GOOD" (row_recommendation r).

(** The rows of [df] that fall in the window starting at [ws], in input order. *)
Definition rows_of_window (ws : Z) (df : list row) : list row :=
  List.filter (fun r => bool_decide (get_window_start (row_timestamp r) = ws)) df.

(** A CSV row with the given instant, signal, recommendation and regime. *)
Definition row_of (ts : Z) (signal recommendation regime : string) : row :=
  {| row_timestamp := ts; row_signal := signal; row_recommendation := recommendation;
     row_model_up := 0.5; row_model_down := 0.5; row_edge_up := 0; row_edge_down := 0;
     row_regime := regime |}.

(** Two rows of the window starting at 0: one STRONG, one not actionable. *)
Definition mixed_window : list row :=
  [row_of 1000 "BUY UP" "STRONG_EARLY" "TREND_UP"; row_of 2000 "BUY DOWN" "NO_TRADE" "RANGE"].


(** The three records the agreement of the resolvers is checked on. *)
Definition sample_signals : list signal_rec :=
  [sig_of "BUY UP" "STRONG_EARLY" None; sig_of "BUY DOWN" "GOOD_MID" None;
   sig_of "BUY UP" "NO_TRADE" None].

(** [for k in data: all_klines[int(k[0])] = ...] *)
Definition store_page (store : gmap Z kline -> candle -> gmap Z kline)
    (all_klines : gmap Z kline) (data : list candle) : gmap Z kline :=
  foldl store all_klines data.

(** The mapping after the given pages were stored, in order. *)
Definition store_pages (store : gmap Z kline -> candle -> gmap Z kline)
    (all_klines : gmap Z kline) (pages : list (list candle)) : gmap Z kline :=
  foldl (store_page store) all_klines pages.

(** The start the loop asks for next, once [pages] were stored on top of
    [all_klines]: [current_start] before any page, and afterwards the
    largest open time stored so far plus [step]. *)
Definition start_after (store : gmap Z kline -> candle -> gmap Z kline) (step : Z)
    (all_klines : gmap Z kline) (current_start : Z) (pages : list (list candle))
    : option Z :=
  match pages with
  | [] => Some current_start
  | _ :: _ => (fun m => m + step) <$> max_key (store_pages store all_klines pages)
  end.

(** A response that ends the pagination without an exception. *)
Definition stops_paging (resp : response) : Prop :=
  match resp with
  | ConnectionError => False
  | Response status data => status ≠ 200 ∨ data = []
  end.

(** How a run of the paginated fetcher that returned [res] after issuing
    [reqs] relates to the script: it stored a prefix [pages] of non-empty
    200-pages; request number [i] asked for the range starting at
    [start_after ... (take i pages)] (one [step] past the largest open
    time stored by then) and ending at most 1000 windows later; and it
    stopped either because the next start reached [end_time] or because
    the response after [pages] was empty or not a 200. *)
Definition paging_run (store : gmap Z kline -> candle -> gmap Z kline) (step : Z)
    (script : list response) (all_klines : gmap Z kline) (current_start end_time : Z)
    (reqs : list request) (res : gmap Z kline) : Prop :=
  ∃ pages : list (list candle),
    Forall (fun data => data ≠ []) pages ∧
    take (length pages) script = Response 200 <$> pages ∧
    res = store_pages store all_klines pages ∧
    (∀ i r, reqs !! i = Some r →
       start_after store step all_klines current_start (take i pages) = Some (startTime r) ∧
       endTime r = Z.min (startTime r + 900000000) end_time ∧
       startTime r < end_time) ∧
    ((length reqs = length pages ∧
      ∃ c, start_after store step all_klines current_start pages = Some c ∧ end_time ≤ c) ∨
     (length reqs = S (length pages) ∧
      ∃ resp, script !! length pages = Some resp ∧ stops_paging resp)).

(** A kline of the payload with the given open time, open and close. *)
Definition candle_at (t : Z) (open_price close_price : float) : candle :=
  {| k0 := t; k1 := open_price; k2 := close_price; k3 := open_price;
     k4 := close_price; k5 := 1 |}.

(** Two pages of one candle each: windows 0 and 900000. *)
Definition two_pages : list (list candle) :=
  [[candle_at 0 100 105]; [candle_at 900000 105 101]].

(** The last candle of [cs] whose open time is [t]. *)
Definition last_candle (t : Z) (cs : list candle) : option candle :=
  List.find (fun c => bool_decide (k0 c = t)) (rev cs).

(** The entry [kl] is what a fetcher derives from the fetched candle
    [k]: its open and close are the candle's [k[1]] and [k[4]], and its
    result is UP exactly when the candle's close is above its open, DOWN
    otherwise (so also when the two are equal), and nothing else. *)
Definition derived_from (k : candle) (kl : kline) : Prop :=
  kl_open kl = k1 k ∧ kl_close kl = k4 k ∧
  (kl_result kl = UP ↔ (k1 k <? k4 k)%float = true) ∧
  (kl_result kl = DOWN ↔ (k1 k <? k4 k)%float = false) ∧
  ((k1 k =? k4 k)%float = true → kl_result kl = DOWN) ∧
  kl_result kl ≠ NEUTRAL.

(** A page with a rising candle and one whose open and close are equal. *)
Definition flat_page : list candle :=
  [candle_at 0 100 105; candle_at 900000 100 100].


(** The two requests the paginated fetcher issues for [two_pages] over
    the range from 0 to 1800000. *)
Definition two_requests : list request :=
  [{| startTime := 0; endTime := 1800000 |};
   {| startTime := 900000; endTime := 1800000 |}].

(** The last [n] entries of [log] all have [d_correct = b]. *)
Definition ends_with_run (b : bool) (log : list detail) (n : nat) : Prop :=
  ∃ l1 run, log = l1 ++ run ∧ length run = n ∧ Forall (fun r => d_correct r = b) run.

(** [log] has [n] consecutive entries that all have [d_correct = b]. *)
Definition has_run (b : bool) (log : list detail) (n : nat) : Prop :=
  ∃ l1 run l2, log = l1 ++ run ++ l2 ∧ length run = n ∧
               Forall (fun r => d_correct r = b) run.

(** [z] is the length of the longest run of [b]-entries that ends [log]. *)
Definition longest_suffix_run (b : bool) (log : list detail) (z : Z) : Prop :=
  (∃ n, Z.of_nat n = z ∧ ends_with_run b log n) ∧
  ∀ n, ends_with_run b log n → Z.of_nat n ≤ z.

(** [z] is the length of the longest run of [b]-entries anywhere in [log]. *)
Definition longest_run (b : bool) (log : list detail) (z : Z) : Prop :=
  (∃ n, Z.of_nat n = z ∧ has_run b log n) ∧
  ∀ n, has_run b log n → Z.of_nat n ≤ z.

(** A detail entry of window [t] that is correct or wrong. *)
Definition entry_of (t : Z) (is_correct : bool) : detail :=
  {| d_time := t; d_vote := UP; d_result := if is_correct then UP else DOWN;
     d_correct := is_correct; d_num_signals := None |}.

(** The detail log [correct, correct, wrong, correct, correct, correct]. *)
Definition scenario_log : list detail :=
  [entry_of 0 true; entry_of 900000 true; entry_of 1800000 false;
   entry_of 2700000 true; entry_of 3600000 true; entry_of 4500000 true].

(** 2026-02-12T00:00:00Z in UTC milliseconds: a window start that is
    not before the [FILTER_FROM] of analyze_new.py or of analyze_48h.py. *)
Definition feb12 : Z := 1770854400000.

(** One STRONG row dated 2026-02-12T00:00:01Z whose regime column reads
    "total", and the page holding the rising candle of its window. *)
Definition regime_total_rows : list row :=
  [row_of (feb12 + 1000) "BUY UP" "STRONG_EARLY" "total"].

Definition rising_page : list candle := [candle_at feb12 100 105].

(** The two requests the paginated fetcher issues over the two windows
    from [feb12] on when the first page is [rising_page]. *)
Definition feb12_requests : list request :=
  [{| startTime := feb12; endTime := feb12 + 1800000 |};
   {| startTime := feb12 + 900000; endTime := feb12 + 1800000 |}].

(** Two actionable rows in the two windows from [feb12] on. *)
Definition two_window_rows : list row :=
  [row_of (feb12 + 1000) "BUY UP" "STRONG_EARLY" "TREND_UP";
   row_of (feb12 + 901000) "BUY DOWN" "GOOD_LATE" "TREND_DOWN"].

(** The window has a known outcome and a vote other than NEUTRAL. *)
Definition scorable (active_windows : gmap Z (list signal_rec)) (klines : gmap Z kline)
    (window_start : Z) : bool :=
  match klines !! window_start, active_windows !! window_start with
  | Some _, Some signals =>
      bool_decide (verify_accuracy.determine_vote signals ≠ NEUTRAL)
  | _, _ => false
  end.

(** One STRONG row dated 2026-02-12T00:00:01Z, scored against
    [rising_page]: every bucket but STRONG, EARLY, UP_vote and TREND_UP
    stays empty. *)
Definition one_strong_row : list row :=
  [row_of (feb12 + 1000) "BUY UP" "STRONG_EARLY" "TREND_UP"].







(** The bucket names of the [results] dict of analyze_new.py. *)
Definition new_bucket_names : list string :=
  ["STRONG"; "GOOD"; "EARLY"; "MID"; "LATE"; "UP_vote"; "DOWN_vote";
   "TREND_UP"; "TREND_DOWN"].

(** Every name of [keys] is a key of [stats]. *)
Definition has_buckets (keys : list string) (stats : gmap string bucket) : Prop :=
  ∀ k, k ∈ keys → is_Some (stats !! k).

(** ** Vocabulary of the further properties *)

(** [needle] occurs in [hay] as a contiguous substring. *)
Definition occurs_in (needle hay : string) : Prop :=
  ∃ before after, hay = String.append before (String.append needle after).

(** The timestamps of three rows, two of them in the window starting at
    900000, listed out of order. *)
Definition three_rows : list row :=
  [row_of 1000000 "BUY UP" "STRONG_EARLY" "TREND_UP";
   row_of 500 "BUY DOWN" "GOOD_LATE" "RANGE";
   row_of 1700000 "BUY DOWN" "NO_TRADE" "CHOP"].

(** The window has a known outcome and a vote other than NEUTRAL, when
    the vote is resolved by [vote]. *)
Definition scorable_by (vote : list signal_rec -> label)
    (active_windows : gmap Z (list signal_rec)) (klines : gmap Z kline)
    (window_start : Z) : bool :=
  match klines !! window_start, active_windows !! window_start with
  | Some _, Some signals => bool_decide (vote signals ≠ NEUTRAL)
  | _, _ => false
  end.

(** A detail entry as the scoring loops write it: a vote other than
    NEUTRAL, an outcome that is UP or DOWN, and a flag that says whether
    they are the same. *)
Definition consistent_entry (r : detail) : Prop :=
  d_vote r ≠ NEUTRAL ∧ d_correct r = bool_decide (d_vote r = d_result r).

(** The three signals of [sample_signals] in another order. *)
Definition sample_signals_shuffled : list signal_rec :=
  [sig_of "BUY UP" "NO_TRADE" None; sig_of "BUY UP" "STRONG_EARLY" None;
   sig_of "BUY DOWN" "GOOD_MID" None].

(** The active windows of [three_rows], and the mapping a 200-page with
    the candles of the windows 0 and 900000 gives. *)
Definition three_rows_active : gmap Z (list signal_rec) :=
  active_of (verify_accuracy.group_signals_by_window three_rows).

Definition two_klines : gmap Z kline :=
  foldl verify_accuracy.store ∅ [candle_at 0 100 105; candle_at 900000 105 101].

(** What [score] of verify_accuracy.py returns for [three_rows] and
    [two_klines] (an empty tally stands for an exception). *)
Definition three_rows_tally : verify_accuracy.tally :=
  match verify_accuracy.score three_rows_active two_klines
          (sorted_keys three_rows_active) with
  | Ok st => st
  | Raise _ => verify_accuracy.empty_tally
  end.

(** The entry [r] of the detail log reports the window starting at
    [d_time r]: its vote by [vote], the result of its kline, and whether
    the two agree. *)
Definition reports_window (vote : list signal_rec -> label)
    (active_windows : gmap Z (list signal_rec)) (klines : gmap Z kline)
    (r : detail) : Prop :=
  ∃ kl signals,
    klines !! d_time r = Some kl ∧ active_windows !! d_time r = Some signals ∧
    d_vote r = vote signals ∧ d_result r = kl_result kl ∧
    consistent_entry r.

(** A request stays inside the requested range and spans at most 1000
    windows. *)
Definition request_in_range (end_time : Z) (q : request) : Prop :=
  startTime q < endTime q ≤ end_time ∧ endTime q - startTime q ≤ 900000000.

(** The dict verify_accuracy.py, analyze_new.py and analyze_48h.py store
    for a candle. *)
Definition kline_of (c : candle) : kline :=
  {| kl_open := k1 c; kl_close := k4 c; kl_result := up_or_down (k1 c) (k4 c);
     kl_high := None; kl_low := None; kl_volume := None |}.

(** Two pages that both hold the candle of window 0, with different
    prices. *)
Definition overlapping_pages : list (list candle) :=
  [[candle_at 0 100 105]; [candle_at 0 100 95; candle_at 900000 95 99]].

(** Some row of the signal file passes the recommendation filter. *)
Definition some_actionable (df : list row) : Prop :=
  Exists (fun r => actionable r = true) df.

(** Rows none of which is actionable. *)
Definition idle_rows : list row :=
  [row_of (feb12 + 1000) "NO TRADE" "NO_TRADE" "RANGE";
   row_of (feb12 + 2000) "BUY UP" "OPTIONAL_LATE" "CHOP"].

(** An actionable row dated 1970-01-01, before the [FILTER_FROM] of
    analyze_new.py and of analyze_48h.py. *)
Definition old_strong_row : list row :=
  [row_of 1000 "BUY UP" "STRONG_EARLY" "TREND_UP"].

(** The bucket names of the [stats] dict of verify_accuracy.py. *)
Definition verify_bucket_names : list string :=
  ["STRONG"; "GOOD"; "EARLY"; "MID"; "LATE"].

(** The counters of both vote directions, added up. *)
Definition direction_bucket (named : gmap string bucket) : bucket :=
  {| correct := correct (default zero_bucket (named !! "UP_vote"))
                + correct (default zero_bucket (named !! "DOWN_vote"));
     wrong := wrong (default zero_bucket (named !! "UP_vote"))
              + wrong (default zero_bucket (named !! "DOWN_vote")) |}.

(** What [score] of analyze_new.py returns for [three_rows] and
    [two_klines] (empty results stand for an exception). *)
Definition three_rows_results : analyze_new.results :=
  match analyze_new.score three_rows_active two_klines
          (sorted_keys three_rows_active) with
  | Ok res => res
  | Raise _ => analyze_new.empty_results
  end.

(** The number of entries of a detail log that are correct, or wrong. *)
Definition count_correct (is_correct : bool) (log : list detail) : Z :=
  Z.of_nat (length (List.filter (fun r => eqb (d_correct r) is_correct) log)).

(** The bucket names of the [results] dict of analyze_48h.py. *)
Definition a48_bucket_names : list string :=
  ["STRONG"; "GOOD"; "OPTIONAL"; "EARLY"; "MID"; "LATE"; "UP_vote"; "DOWN_vote";
   "TREND_UP"; "TREND_DOWN"; "RANGE"; "CHOP"].

(** The regime a script reads from a record with [s.get('regime', '')]. *)
Definition regime_of (s : signal_rec) : string := default "" (s_regime s).

(** No record of an active window has its regime among [forbidden]. *)
Definition regimes_avoid (forbidden : list string)
    (active : gmap Z (list signal_rec)) : Prop :=
  ∀ w sigs s, active !! w = Some sigs → s ∈ sigs → regime_of s ∉ forbidden.

(** Some record of the window starting at [w] has its regime among
    [names]. *)
Definition window_has_regime (names : list string)
    (active : gmap Z (list signal_rec)) (w : Z) : Prop :=
  ∃ sigs s, active !! w = Some sigs ∧ s ∈ sigs ∧ regime_of s ∈ names.

(** The active windows of analyze_48h.py for [three_rows]. *)
Definition three_rows_active_48h : gmap Z (list signal_rec) :=
  active_of (analyze_48h.group_signals_by_window three_rows).

(** What [score] of analyze_48h.py returns for [three_rows] and
    [two_klines] under the calendar [cal] (empty results stand for an
    exception). *)
Definition three_rows_results_48h (cal : calendar) : analyze_48h.results :=
  match analyze_48h.score cal three_rows_active_48h two_klines
          (sorted_keys three_rows_active_48h) with
  | Ok res => res
  | Raise _ => analyze_48h.empty_results
  end.

(** A calendar that reads the hour off the millisecond instant and
    leaves the day blank. *)
Definition hour_calendar : calendar :=
  {| dt_hour := fun ws => (ws / 3600000) mod 24; dt_month_day := fun _ => "" |}.

(** [correct + wrong] of the bucket [stats[key]] (0 for a missing key). *)
Definition tot (stats : gmap string bucket) (key : string) : Z :=
  bucket_total (default zero_bucket (stats !! key)).

(** The sum of [f x] over the list. *)
Definition sum_with {A} (f : A -> Z) (l : list A) : Z :=
  foldr (fun x n => f x + n) 0 l.

(** The record has a strength tier, and a timing tier, as
    verify_accuracy.py and analyze_24h.py test them. *)
Definition has_strength (s : signal_rec) : bool :=
  str_in "STRONG" (s_rec s) || str_in "GOOD" (s_rec s).

Definition has_timing (s : signal_rec) : bool :=
  str_in "EARLY" (s_rec s) || str_in "MID" (s_rec s) || str_in "LATE" (s_rec s).

(** The number of signals the entries of a detail log of
    verify_accuracy.py report (['num_signals']). *)
Definition signals_reported (log : list detail) : Z :=
  sum_with (fun r => default 0 (d_num_signals r)) log.

(** What [analyze_by_recommendation_type] returns for [three_rows] and
    [two_klines] (the empty registry stands for an exception). *)
Definition three_rows_stats : gmap string bucket :=
  match verify_accuracy.analyze_by_recommendation_type three_rows_active two_klines with
  | Ok stats => stats
  | Raise _ => verify_accuracy.empty_stats
  end.

(** What the window starting at [w] adds when every record [s] of a
    scored window adds [f s]: nothing unless the window has a known
    outcome and a vote other than NEUTRAL. *)
Definition scored_records (f : signal_rec -> Z) (windows : gmap Z (list signal_rec))
    (klines : gmap Z kline) (w : Z) : Z :=
  match klines !! w with
  | Some _ =>
      if decide (verify_accuracy.determine_vote (windows !!! w) = NEUTRAL) then 0
      else sum_with f (windows !!! w)
  | None => 0
  end.

(** The bucket names of the [results] dict of analyze_24h.py. *)
Definition a24_bucket_names : list string :=
  ["STRONG"; "GOOD"; "EARLY"; "MID"; "LATE"; "TREND_UP"; "TREND_DOWN"; "RANGE"; "CHOP";
   "UP_vote"; "DOWN_vote"].

(** The keys of [results] in analyze_24h.py that are not a market
    regime. *)
Definition a24_reserved : list string :=
  ["total"; "by_hour"; "STRONG"; "GOOD"; "EARLY"; "MID"; "LATE"; "UP_vote"; "DOWN_vote"].

Definition strength_tiers : list string := ["STRONG"; "GOOD"].
Definition timing_tiers : list string := ["EARLY"; "MID"; "LATE"].
Definition market_regimes : list string := ["TREND_UP"; "TREND_DOWN"; "RANGE"; "CHOP"].
Definition vote_buckets : list string := ["UP_vote"; "DOWN_vote"].

(** The sum of [correct + wrong] over the buckets named by [keys]. *)
Definition tier_total (keys : list string) (stats : gmap string bucket) : Z :=
  sum_with (tot stats) keys.

(** The sum of [correct + wrong] over the per-hour dict. *)
Definition hours_total (by_hour : gmap Z bucket) : Z :=
  sum_with (fun kv => bucket_total kv.2) (map_to_list by_hour).

(** The regime analyze_24h.py reads with [s.get('regime', 'UNKNOWN')]. *)
Definition regime_or_unknown (s : signal_rec) : string :=
  default "UNKNOWN" (s_regime s).

(** Two rows of one window (a STRONG_EARLY one in an up-trend, a GOOD
    one without timing tier) and one row of the next window with a
    regime no bucket is named after. *)
Definition tiered_rows : list row :=
  [row_of 1000 "BUY UP" "STRONG_EARLY" "TREND_UP";
   row_of 2000 "BUY UP" "GOOD" "RANGE";
   row_of 900500 "BUY DOWN" "GOOD_LATE" "QUIET"].

(** What [analyze_signals] of analyze_24h.py returns for [tiered_rows]
    and [two_klines] under the calendar [cal] (empty results stand for
    an exception). *)
Definition tiered_results (cal : calendar) : analyze_24h.results :=
  match analyze_24h.analyze_signals cal tiered_rows two_klines with
  | Ok res => res
  | Raise _ => analyze_24h.empty_results
  end.

(** The counters of [analyze_signals] agree with its detail log: the
    global counter, the two direction buckets together and the per-hour
    buckets together each count the entries of the log. *)
Definition counted_once (res : analyze_24h.results) : Prop :=
  let n := Z.of_nat (length (analyze_24h.details res)) in
  bucket_total (analyze_24h.total res) = n ∧
  tier_total vote_buckets (analyze_24h.named res) = n ∧
  hours_total (analyze_24h.by_hour res) = n.

(** The tiers of [analyze_signals] are nested: regime buckets count no
    more than timing buckets, those no more than strength buckets, and
    the strength buckets at least one record per entry of the log. *)
Definition tiers_nested (res : analyze_24h.results) : Prop :=
  tier_total market_regimes (analyze_24h.named res)
    ≤ tier_total timing_tiers (analyze_24h.named res) ∧
  tier_total timing_tiers (analyze_24h.named res)
    ≤ tier_total strength_tiers (analyze_24h.named res) ∧
  Z.of_nat (length (analyze_24h.details res))
    ≤ tier_total strength_tiers (analyze_24h.named res).

(** The shape every [results] dict of analyze_24h.py has while the
    window loop runs: all buckets are there, the global counters are not
    negative, and every hour that has a bucket has a positive total. *)
Definition a24_wf (res : analyze_24h.results) : Prop :=
  has_buckets a24_bucket_names (analyze_24h.named res) ∧
  0 ≤ correct (analyze_24h.total res) ∧
  0 ≤ wrong (analyze_24h.total res) ∧
  map_Forall (fun _ b => 0 < bucket_total b) (analyze_24h.by_hour res).

(** Some row of [df] is actionable and has the regime [name]. *)
Definition row_with_regime (name : string) (df : list row) : Prop :=
  ∃ r, r ∈ df ∧ actionable r = true ∧ row_regime r = name.
(** * Properties *)

(** ** Window indexing *)

(** C5. For every instant [t] in UTC milliseconds and the window
    duration [d = 900000], [get_window_start t] is [floor(t / d) * d]
    in integer arithmetic, lies in the half-open window
    [get_window_start t <= t < get_window_start t + d], and
    [get_window_start] is idempotent. *)
Theorem get_window_start_floor_bounds_idempotent (t : Z) :
  get_window_start t = t / 900000 * 900000 ∧
  (get_window_start t ≤ t < get_window_start t + 900000) ∧
  get_window_start (get_window_start t) = get_window_start t.
Proof.
  unfold get_window_start, window_size.
  change (15 * 60 * 1000) with 900000.
  pose proof (Z.mod_pos_bound t 900000 ltac:(lia)) as Hb.
  pose proof (Z.div_mod t 900000 ltac:(lia)) as Hd.
  assert (Hfloor : t - t mod 900000 = t / 900000 * 900000) by lia.
  repeat split; try lia.
  rewrite Hfloor, Z.mod_mul by lia. lia.
Qed.

(** ** Vote resolution *)

Lemma count_with_from (token : string) (signals : list signal_rec) (n : Z) :
  foldl (fun n s => if str_in token (s_signal s) then n + 1 else n) n signals
  = n + count_signals (str_in token) signals.
Proof.
  unfold count_signals. revert n.
  induction signals as [|s signals IH]; intros n; simpl; [lia|].
  rewrite IH. destruct (str_in token (s_signal s)); simpl; lia.
Qed.

Lemma count_with_filter (token : string) (signals : list signal_rec) :
  count_with token signals = count_signals (str_in token) signals.
Proof. unfold count_with. rewrite count_with_from. lia. Qed.

Lemma count_step_from (signals : list signal_rec) (u d : Z) :
  foldl verify_accuracy.count_step (u, d) signals
  = (u + count_signals (str_in "UP") signals,
     d + count_signals (fun sig => negb (str_in "UP" sig) && str_in "DOWN" sig) signals).
Proof.
  unfold count_signals. revert u d.
  induction signals as [|s signals IH]; intros u d; simpl.
  - f_equal; lia.
  - destruct (str_in "UP" (s_signal s)) eqn:Hup;
      [|destruct (str_in "DOWN" (s_signal s)) eqn:Hdown];
      rewrite IH; simpl; f_equal; lia.
Qed.

(** The three-way comparison both resolvers end with. *)
Lemma majority_cases (up down : Z) (v : label) :
  v = (if decide (up > down) then UP
       else if decide (down > up) then DOWN else NEUTRAL) →
  (v = UP ↔ up > down) ∧ (v = DOWN ↔ down > up) ∧ (v = NEUTRAL ↔ up = down) ∧
  (v = UP ∨ v = DOWN ∨ v = NEUTRAL).
Proof.
  intros ->. repeat case_decide; repeat split; intros; try congruence; try lia; auto.
Qed.

(** C3, as stated, fails on verify_accuracy.py: in [both_tokens] two
    records contain a DOWN-token and one an UP-token, yet the if/elif
    resolver answers NEUTRAL. *)
Lemma verify_vote_not_by_token_counts :
  verify_accuracy.determine_vote both_tokens = NEUTRAL ∧
  count_signals (str_in "UP") both_tokens = 1 ∧
  count_signals (str_in "DOWN") both_tokens = 2 ∧
  ¬ (∀ signals : list signal_rec,
       let up := count_signals (str_in "UP") signals in
       let down := count_signals (str_in "DOWN") signals in
       let v := verify_accuracy.determine_vote signals in
       (v = UP ↔ up > down) ∧ (v = DOWN ↔ down > up) ∧ (v = NEUTRAL ↔ up = down)).
Proof.
  split; [reflexivity|]. split; [reflexivity|]. split; [reflexivity|].
  intros H.
  destruct (H both_tokens) as (_ & _ & Hn).
  destruct Hn as [Hn _]. specialize (Hn eq_refl).
  vm_compute in Hn. discriminate.
Qed.

(** C3 (amended). Each resolver returns UP when its UP count exceeds its
    DOWN count, DOWN in the opposite case and NEUTRAL exactly when the
    two are equal, and nothing else. The UP count is the number of
    records whose signal contains "UP". The DOWN count of analyze_new.py
    is the number of records whose signal contains "DOWN"; that of
    verify_accuracy.py is the number of records whose signal contains
    "DOWN" and no "UP". *)
Theorem determine_vote_majority (signals : list signal_rec) :
  let up := count_signals (str_in "UP") signals in
  let down := count_signals (str_in "DOWN") signals in
  let down_only :=
    count_signals (fun sig => negb (str_in "UP" sig) && str_in "DOWN" sig) signals in
  let v_new := analyze_new.determine_vote signals in
  let v_ver := verify_accuracy.determine_vote signals in
  ((v_new = UP ↔ up > down) ∧ (v_new = DOWN ↔ down > up) ∧
   (v_new = NEUTRAL ↔ up = down) ∧ (v_new = UP ∨ v_new = DOWN ∨ v_new = NEUTRAL)) ∧
  ((v_ver = UP ↔ up > down_only) ∧ (v_ver = DOWN ↔ down_only > up) ∧
   (v_ver = NEUTRAL ↔ up = down_only) ∧ (v_ver = UP ∨ v_ver = DOWN ∨ v_ver = NEUTRAL)).
Proof.
  intros up down down_only v_new v_ver. split.
  - apply majority_cases. subst v_new up down.
    unfold analyze_new.determine_vote. by rewrite !count_with_filter.
  - apply majority_cases. subst v_ver up down_only.
    unfold verify_accuracy.determine_vote. rewrite count_step_from.
    by rewrite !Z.add_0_l.
Qed.

(** C10, as stated, fails: on [both_tokens] verify_accuracy.py votes
    NEUTRAL and analyze_new.py votes DOWN. *)
Lemma resolvers_disagree :
  verify_accuracy.determine_vote both_tokens = NEUTRAL ∧
  analyze_new.determine_vote both_tokens = DOWN ∧
  ¬ (∀ signals : list signal_rec,
       verify_accuracy.determine_vote signals = analyze_new.determine_vote signals).
Proof.
  split; [reflexivity|]. split; [reflexivity|].
  intros H. specialize (H both_tokens). vm_compute in H. discriminate.
Qed.

Lemma single_token_counts (signals : list signal_rec) :
  single_token signals →
  count_signals (fun sig => negb (str_in "UP" sig) && str_in "DOWN" sig) signals
  = count_signals (str_in "DOWN") signals.
Proof.
  unfold count_signals. induction 1 as [|s signals Hs _ IH]; [done|].
  simpl. destruct (str_in "UP" (s_signal s)), (str_in "DOWN" (s_signal s));
    simpl in *; first [lia | exfalso; auto].
Qed.

(** C10 (amended). On every list of signal records none of which
    contains both an UP-token and a DOWN-token, the resolver of
    verify_accuracy.py and the resolver of analyze_new.py return the
    same vote. *)
Theorem resolvers_agree_on_single_token (signals : list signal_rec) :
  single_token signals →
  verify_accuracy.determine_vote signals = analyze_new.determine_vote signals.
Proof.
  intros Hs.
  unfold verify_accuracy.determine_vote, analyze_new.determine_vote.
  rewrite count_step_from, !count_with_filter, single_token_counts by done.
  by rewrite !Z.add_0_l.
Qed.

Lemma resolvers_agree_on_single_token_witness :
  single_token sample_signals ∧
  verify_accuracy.determine_vote sample_signals = analyze_new.determine_vote sample_signals.
Proof.
  assert (Hs : single_token sample_signals).
  { repeat constructor; vm_compute; intros [? ?]; discriminate. }
  split; [exact Hs | exact (resolvers_agree_on_single_token _ Hs)].
Defined.

(** ** Grouping of signal rows *)

Lemma group_rows_from (mk : row -> signal_rec) (df : list row)
    (acc : gmap Z (list signal_rec)) (ws : Z) :
  foldl (fun windows r =>
           let rec := row_recommendation r in
           if str_in "STRONG" rec || str_in "GOOD" rec then
             let window_start := get_window_start (row_timestamp r) in
             append_to windows window_start (mk r)
           else windows) acc df !! ws
  = match List.filter actionable (rows_of_window ws df) with
    | [] => acc !! ws
    | kept => Some ((acc !!! ws) ++ (mk <$> kept))
    end.
Proof.
  revert acc. induction df as [|r df IH]; intros acc; [done|].
  cbn [foldl]. rewrite IH. clear IH.
  unfold rows_of_window. cbn [List.filter].
  fold (actionable r). fold (rows_of_window ws df).
  destruct (actionable r) eqn:Hact; cbn zeta.
  - case_bool_decide as Hws; cbn [List.filter]; rewrite ?Hact.
    + subst ws. unfold append_to.
      rewrite lookup_insert_eq, lookup_total_insert_eq.
      destruct (List.filter actionable _); cbn [fmap list_fmap];
        by rewrite <- ?app_assoc.
    + unfold append_to.
      rewrite lookup_insert_ne, lookup_total_insert_ne by done. done.
  - case_bool_decide; cbn [List.filter]; rewrite ?Hact; done.
Qed.

(** What [group_signals_by_window] stores under a window start. *)
Lemma group_rows_lookup (mk : row -> signal_rec) (df : list row) (ws : Z) :
  group_rows mk df !! ws
  = match List.filter actionable (rows_of_window ws df) with
    | [] => None
    | kept => Some (mk <$> kept)
    end.
Proof.
  unfold group_rows. rewrite group_rows_from.
  by destruct (List.filter actionable _).
Qed.

(** Every list the grouping stores is non-empty, so the [len(v) > 0]
    filter of [main] keeps every window. *)
Lemma active_of_group_rows (mk : row -> signal_rec) (df : list row) :
  active_of (group_rows mk df) = group_rows mk df.
Proof.
  unfold active_of. apply map_filter_id. intros ws l Hl.
  rewrite group_rows_lookup in Hl.
  destruct (List.filter actionable _); simplify_eq. simpl. lia.
Qed.

(** C1, as stated, fails on both scripts: the window starting at 0 is
    active (its first row is STRONG), yet its list holds one record, not
    the two rows of the window. *)
Lemma active_window_drops_records :
  ¬ (∀ (df : list row) (ws : Z),
       (∃ r, r ∈ rows_of_window ws df ∧ actionable r = true) →
       verify_accuracy.group_signals_by_window df !! ws
         = Some (verify_accuracy.signal_of_row <$> rows_of_window ws df)) ∧
  ¬ (∀ (df : list row) (ws : Z),
       (∃ r, r ∈ rows_of_window ws df ∧ actionable r = true) →
       analyze_48h.group_signals_by_window df !! ws
         = Some (full_signal_of_row <$> rows_of_window ws df)).
Proof.
  split; intros H; specialize (H mixed_window 0);
    unfold verify_accuracy.group_signals_by_window,
      analyze_48h.group_signals_by_window in H;
    rewrite group_rows_lookup in H;
    (lapply H; [intros Heq; vm_compute in Heq; discriminate|]);
    exists (row_of 1000 "BUY UP" "STRONG_EARLY" "TREND_UP");
    (split; [vm_compute; left | reflexivity]).
Qed.

(** C1 (amended). In verify_accuracy.py and in analyze_48h.py, the list
    stored for a window holds exactly the records of that window whose
    recommendation contains "STRONG" or "GOOD", in input order: a record
    that does not match is dropped by itself, also in a window that has
    matching records. A window start is a key of the mapping if and only
    if the window has at least one matching record, so the later
    [len(v) > 0] filter drops nothing. *)
Theorem group_keeps_only_actionable_records (df : list row) (ws : Z) :
  let kept := List.filter actionable (rows_of_window ws df) in
  verify_accuracy.group_signals_by_window df !!! ws
    = verify_accuracy.signal_of_row <$> kept ∧
  analyze_48h.group_signals_by_window df !!! ws = full_signal_of_row <$> kept ∧
  (ws ∈ dom (verify_accuracy.group_signals_by_window df) ↔ kept ≠ []) ∧
  (ws ∈ dom (analyze_48h.group_signals_by_window df) ↔ kept ≠ []) ∧
  active_of (verify_accuracy.group_signals_by_window df)
    = verify_accuracy.group_signals_by_window df ∧
  active_of (analyze_48h.group_signals_by_window df)
    = analyze_48h.group_signals_by_window df.
Proof.
  intros kept.
  unfold verify_accuracy.group_signals_by_window, analyze_48h.group_signals_by_window.
  rewrite !active_of_group_rows, !elem_of_dom, !lookup_total_alt, !group_rows_lookup.
  fold kept. destruct kept; simpl; repeat split; try done;
    intros; try apply is_Some_None in H; try done; by eexists.
Qed.

(** ** The outcome fetchers *)

Lemma foldr_max_bounds (k : Z) (ks : list Z) :
  (foldr Z.max k ks = k ∨ foldr Z.max k ks ∈ ks) ∧
  k ≤ foldr Z.max k ks ∧ (∀ x, x ∈ ks → x ≤ foldr Z.max k ks).
Proof.
  induction ks as [|y ks (Hin & Hk & Hall)]; simpl.
  - split; [by left|]. split; [lia|]. intros x Hx. by apply elem_of_nil in Hx.
  - split; [|split].
    + destruct (Z.max_spec y (foldr Z.max k ks)) as [[_ ->]|[_ ->]].
      * destruct Hin as [->|Hin]; [by left|]. right. by right.
      * right. by left.
    + lia.
    + intros x [->|Hx]%elem_of_cons; [lia|]. specialize (Hall x Hx). lia.
Qed.

(** [max_key] is Python's [max] of the keys: a key, and an upper bound
    of the keys. *)
Lemma max_key_Some {A} (d : gmap Z A) (m : Z) :
  max_key d = Some m ↔ m ∈ dom d ∧ ∀ k, k ∈ dom d → k ≤ m.
Proof.
  unfold max_key.
  destruct (elements (dom d)) as [|k ks] eqn:Hel.
  - split; [done|]. intros [Hm _].
    apply elem_of_elements in Hm. rewrite Hel in Hm. by apply elem_of_nil in Hm.
  - destruct (foldr_max_bounds k ks) as (Hin & Hk & Hall).
    assert (Hmem : ∀ x, x ∈ dom d ↔ x = k ∨ x ∈ ks).
    { intros x. rewrite <- elem_of_elements, Hel. apply elem_of_cons. }
    assert (Hmax : foldr Z.max k ks ∈ dom d).
    { apply Hmem. destruct Hin as [->|?]; auto. }
    split.
    + intros [= <-]. split; [done|].
      intros x [->|Hx]%Hmem; auto.
    + intros [Hm Hub]. f_equal.
      apply Hub in Hmax. apply Hmem in Hm as [->|Hm]; [lia|].
      apply Hall in Hm. lia.
Qed.

Lemma max_key_is_Some {A} (d : gmap Z A) (k : Z) :
  k ∈ dom d → is_Some (max_key d).
Proof.
  unfold max_key. intros Hk.
  destruct (elements (dom d)) eqn:Hel; [|by eexists].
  apply elem_of_elements in Hk. rewrite Hel in Hk. by apply elem_of_nil in Hk.
Qed.

Section FetchFacts.
Variable store : gmap Z kline -> candle -> gmap Z kline.
Hypothesis store_dom : ∀ m k, dom (store m k) = {[k0 k]} ∪ dom m.

Lemma store_page_dom (data : list candle) (m : gmap Z kline) (t : Z) :
  t ∈ dom (store_page store m data) ↔ t ∈ dom m ∨ t ∈ (k0 <$> data).
Proof.
  unfold store_page. revert m.
  induction data as [|k data IH]; intros m; simpl.
  - split; [auto|]. intros [?|H]; [done|]. by apply elem_of_nil in H.
  - rewrite IH, store_dom, elem_of_union, elem_of_singleton, elem_of_cons. tauto.
Qed.

Lemma store_page_max_key (k : candle) (data : list candle) (m : gmap Z kline) :
  is_Some (max_key (foldl store m (k :: data))).
Proof.
  apply (max_key_is_Some _ (k0 k)).
  apply (store_page_dom (k :: data)). right. simpl. by left.
Qed.

Lemma paging_run_end_reached (script : list response) (acc : gmap Z kline)
    (cur end_time : Z) :
  ¬ cur < end_time →
  paging_run store 900000 script acc cur end_time [] acc.
Proof.
  intros Hge. exists []. split; [done|]. split; [done|]. split; [done|]. split.
  - intros i r Hr. by rewrite lookup_nil in Hr.
  - left. split; [done|]. exists cur. split; [done|lia].
Qed.

Lemma paging_run_stopped (resp : response) (script : list response)
    (acc : gmap Z kline) (cur end_time : Z) :
  cur < end_time →
  stops_paging resp →
  paging_run store 900000 (resp :: script) acc cur end_time
    [{| startTime := cur; endTime := Z.min (cur + 1000 * 15 * 60 * 1000) end_time |}] acc.
Proof.
  intros Hlt Hstop. exists []. split; [done|]. split; [done|]. split; [done|]. split.
  - intros [|i] r Hr; [|by rewrite lookup_cons, lookup_nil in Hr].
    injection Hr as <-. simpl. split; [done|]. split; [|done]. f_equal.
  - right. split; [done|]. by exists resp.
Qed.

(** What a run that returns a mapping did. *)
Lemma fetch_loop_paging_run (script : list response) (acc : gmap Z kline)
    (cur end_time : Z) (reqs : list request) (res : gmap Z kline) :
  fetch_loop store script acc cur end_time = Some (reqs, Ok res) →
  paging_run store 900000 script acc cur end_time reqs res.
Proof.
  revert acc cur reqs.
  induction script as [|resp script IH]; intros acc cur reqs; simpl.
  - case_decide as Hlt; [done|]. intros [= <- <-]. by apply paging_run_end_reached.
  - case_decide as Hlt.
    2:{ intros [= <- <-]. by apply paging_run_end_reached. }
    destruct resp as [|status data]; [done|].
    case_decide as Hst.
    { intros [= <- <-]. apply paging_run_stopped; [done|]. by left. }
    destruct data as [|k data].
    { intros [= <- <-]. apply paging_run_stopped; [done|]. by right. }
    destruct (store_page_max_key k data acc) as [m Hm].
    rewrite Hm.
    destruct (fetch_loop store script _ _ end_time) as [[reqs' r']|] eqn:Hrec; [|done].
    intros [= <- ->].
    apply IH in Hrec as (pages & Hne & Hpre & Hres & Hreq & Hstop).
    assert (Hstart : ∀ ps : list (list candle),
              start_after store 900000 acc cur ((k :: data) :: ps)
              = start_after store 900000 (foldl store acc (k :: data))
                            (m + 15 * 60 * 1000) ps).
    { intros [|p ps]; [|done]. simpl. unfold store_page. simpl in Hm |- *.
      rewrite Hm. simpl. f_equal. }
    exists ((k :: data) :: pages). split; [|split; [|split; [|split]]].
    + by constructor.
    + simpl. subst status. by rewrite Hpre.
    + done.
    + intros [|i] r Hr.
      * injection Hr as <-. simpl. split; [done|]. split; [|done]. f_equal.
      * simpl in Hr. apply Hreq in Hr as (Hs & He & Hl).
        rewrite firstn_cons, Hstart. done.
    + rewrite Hstart. simpl.
      destruct Hstop as [[Hlen Hc]|[Hlen Hc]]; [left|right]; (split; [by rewrite Hlen|done]).
Qed.

(** A script whose first responses are non-empty 200-pages, followed by
    an empty page or a non-200 status, makes the loop return; the
    mapping holds the pages it consumed, all of them unless the end of
    the range was reached first. *)
Lemma fetch_loop_returns (pages : list (list candle)) (resp : response)
    (rest : list response) (acc : gmap Z kline) (cur end_time : Z) :
  Forall (fun data => data ≠ []) pages →
  stops_paging resp →
  ∃ reqs, fetch_loop store ((Response 200 <$> pages) ++ resp :: rest) acc cur end_time
          = Some (reqs, Ok (store_pages store acc (take (length reqs) pages))) ∧
          (length reqs ≤ S (length pages))%nat.
Proof.
  intros Hne Hstop. revert acc cur.
  induction Hne as [|data pages Hdata _ IH]; intros acc cur.
  - simpl. case_decide.
    + destruct resp as [|status body]; [done|]. simpl in Hstop.
      exists [{| startTime := cur;
                 endTime := Z.min (cur + 1000 * 15 * 60 * 1000) end_time |}].
      split; [|simpl; lia].
      case_decide; [done|].
      destruct Hstop as [? | ->]; [exfalso; tauto|done].
    + exists []. split; [done|simpl; lia].
  - cbn [fmap list_fmap app fetch_loop]. case_decide.
    2:{ exists []. split; [done|simpl; lia]. }
    case_decide; [done|].
    destruct data as [|k data]; [done|].
    destruct (store_page_max_key k data acc) as [m Hm]. rewrite Hm.
    destruct (IH (foldl store acc (k :: data)) (m + 15 * 60 * 1000)) as [reqs [Hrun Hlen]].
    rewrite Hrun.
    exists ({| startTime := cur;
               endTime := Z.min (cur + 1000 * 15 * 60 * 1000) end_time |} :: reqs).
    split; [done|]. simpl. lia.
Qed.

End FetchFacts.

Lemma verify_store_dom (m : gmap Z kline) (k : candle) :
  dom (verify_accuracy.store m k) = {[k0 k]} ∪ dom m.
Proof. unfold verify_accuracy.store. by rewrite dom_insert_L. Qed.

Lemma new_store_dom (m : gmap Z kline) (k : candle) :
  dom (analyze_new.store m k) = {[k0 k]} ∪ dom m.
Proof. unfold analyze_new.store. by rewrite dom_insert_L. Qed.

Lemma a48_store_dom (m : gmap Z kline) (k : candle) :
  dom (analyze_48h.store m k) = {[k0 k]} ∪ dom m.
Proof. unfold analyze_48h.store. by rewrite dom_insert_L. Qed.

Lemma a24_store_dom (m : gmap Z kline) (k : candle) :
  dom (analyze_24h.store m k) = {[k0 k]} ∪ dom m.
Proof. unfold analyze_24h.store. by rewrite dom_insert_L. Qed.

(** ** The mapping a fetcher builds, candle by candle *)

Lemma last_candle_snoc (t : Z) (cs : list candle) (c : candle) :
  last_candle t (cs ++ [c]) = if decide (k0 c = t) then Some c else last_candle t cs.
Proof.
  unfold last_candle. rewrite rev_unit. simpl.
  case_bool_decide; by case_decide.
Qed.

Lemma last_candle_app (t : Z) (cs ds : list candle) :
  last_candle t (cs ++ ds)
  = match last_candle t ds with Some c => Some c | None => last_candle t cs end.
Proof.
  induction ds as [|d ds IH] using rev_ind; [by rewrite app_nil_r|].
  rewrite app_assoc, !last_candle_snoc. by case_decide.
Qed.

Lemma last_candle_Some (t : Z) (cs : list candle) (c : candle) :
  last_candle t cs = Some c → c ∈ cs ∧ k0 c = t.
Proof.
  unfold last_candle. intros [Hin Ht]%find_some.
  apply bool_decide_eq_true in Ht. split; [|done].
  by apply list_elem_of_In, in_rev.
Qed.

Lemma last_candle_None (t : Z) (cs : list candle) :
  last_candle t cs = None → ∀ c, c ∈ cs → k0 c ≠ t.
Proof.
  unfold last_candle. intros Hnone c Hc Ht.
  apply list_elem_of_In, in_rev in Hc.
  pose proof (find_none _ _ Hnone c Hc) as Hb. simpl in Hb.
  by apply bool_decide_eq_false in Hb.
Qed.

(** When a fetcher stores [mk c] under the open time of each candle [c],
    a lookup finds what was made of the last candle with that open
    time. *)
Lemma store_page_lookup_with (mk : candle -> kline)
    (store : gmap Z kline -> candle -> gmap Z kline)
    (cs : list candle) (m : gmap Z kline) (t : Z) :
  (∀ m c, store m c = <[k0 c := mk c]> m) →
  store_page store m cs !! t
  = match last_candle t cs with Some c => Some (mk c) | None => m !! t end.
Proof.
  intros Hstore. unfold store_page.
  induction cs as [|c cs IH] using rev_ind; [done|].
  rewrite foldl_app, last_candle_snoc. simpl. rewrite Hstore.
  case_decide as Ht.
  - subst t. by rewrite lookup_insert_eq.
  - by rewrite lookup_insert_ne.
Qed.

Lemma store_pages_lookup_with (mk : candle -> kline)
    (store : gmap Z kline -> candle -> gmap Z kline)
    (pages : list (list candle)) (m : gmap Z kline) (t : Z) :
  (∀ m c, store m c = <[k0 c := mk c]> m) →
  store_pages store m pages !! t
  = match last_candle t (concat pages) with
    | Some c => Some (mk c)
    | None => m !! t
    end.
Proof.
  intros Hstore. unfold store_pages. revert m.
  induction pages as [|p pages IH]; intros m; [done|].
  cbn [foldl concat]. rewrite IH, last_candle_app.
  destruct (last_candle t (concat pages)); [done|].
  by apply store_page_lookup_with.
Qed.
(** The float comparison behind ['UP' if close > open else 'DOWN']. *)
Lemma up_or_down_cases (o c : float) :
  (up_or_down o c = UP ↔ (o <? c)%float = true) ∧
  (up_or_down o c = DOWN ↔ (o <? c)%float = false) ∧
  ((o =? c)%float = true → up_or_down o c = DOWN) ∧
  up_or_down o c ≠ NEUTRAL.
Proof.
  unfold up_or_down.
  assert (Heq : (o =? c)%float = true → (o <? c)%float = false).
  { rewrite FloatAxioms.eqb_spec, FloatAxioms.ltb_spec. unfold SFeqb, SFltb.
    by destruct (SFcompare _ _) as [[]|]. }
  destruct (o <? c)%float eqn:Hlt; repeat split; try done.
  intros He. apply Heq in He. congruence.
Qed.

(** The dict verify_accuracy.py stores for a candle, and the one
    analyze_24h.py stores, are derived from that candle. *)
Lemma verify_store_derived (m : gmap Z kline) (k : candle) :
  ∃ kl, verify_accuracy.store m k = <[k0 k := kl]> m ∧ derived_from k kl.
Proof.
  eexists. split; [reflexivity|]. unfold derived_from. simpl.
  split; [done|]. split; [done|]. apply up_or_down_cases.
Qed.

Lemma a24_store_derived (m : gmap Z kline) (k : candle) :
  ∃ kl, analyze_24h.store m k = <[k0 k := kl]> m ∧ derived_from k kl.
Proof.
  eexists. split; [reflexivity|]. unfold derived_from. simpl.
  split; [done|]. split; [done|]. apply up_or_down_cases.
Qed.

(** C6. For every fetched candle the result derived for it is UP if and
    only if its close is above its open, and DOWN otherwise; equal open
    and close give DOWN; the result is never anything but UP or DOWN.
    This holds of what verify_accuracy.py and analyze_24h.py store for a
    candle, under its open time, next to the candle's open and close;
    and the mapping a fetch returns holds, under each open time, the
    entry so derived from the last fetched candle with that open time,
    and no entry under an open time that no fetched candle had. *)
Theorem kline_result_up_iff_close_above_open :
  (∀ (m : gmap Z kline) (k : candle),
     (∃ kl, verify_accuracy.store m k !! k0 k = Some kl ∧ derived_from k kl) ∧
     (∃ kl, analyze_24h.store m k !! k0 k = Some kl ∧ derived_from k kl)) ∧
  (∀ (script : list response) (start_time end_time : Z) (reqs : list request)
     (klines : gmap Z kline),
     verify_accuracy.fetch_binance_klines script start_time end_time
       = Some (reqs, Ok klines) ∨
     analyze_24h.fetch_binance_klines script start_time end_time
       = Some (reqs, Ok klines) →
     ∃ pages : list (list candle),
       take (length pages) script = Response 200 <$> pages ∧
       ∀ t, match last_candle t (concat pages) with
            | Some k => ∃ kl, klines !! t = Some kl ∧ derived_from k kl
            | None => klines !! t = None
            end).
Proof.
  split.
  { intros m k. split.
    - destruct (verify_store_derived m k) as (kl & -> & Hkl).
      exists kl. by rewrite lookup_insert_eq.
    - destruct (a24_store_derived m k) as (kl & -> & Hkl).
      exists kl. by rewrite lookup_insert_eq. }
  intros script start_time end_time reqs klines [Hf|Hf].
  - unfold verify_accuracy.fetch_binance_klines in Hf.
    destruct script as [|[|status data] script]; [done|by simplify_eq|].
    case_decide as Hst; simplify_eq.
    exists [data]. split; [simpl; f_equal; f_equal; lia|].
    intros t. simpl. rewrite app_nil_r.
    fold (store_page verify_accuracy.store ∅ data).
    rewrite (store_page_lookup_with kline_of) by done.
    destruct (last_candle t data) as [k|]; [|by rewrite lookup_empty].
    exists (kline_of k). split; [done|].
    destruct (verify_store_derived ∅ k) as (kl & Heq & Hkl).
    assert (kl = kline_of k) as ->; [|done].
    apply (f_equal (fun d => d !! k0 k)) in Heq.
    unfold verify_accuracy.store in Heq. cbv zeta in Heq.
    rewrite !lookup_insert_eq in Heq. by injection Heq as <-.
  - apply (fetch_loop_paging_run analyze_24h.store a24_store_dom) in Hf
      as (pages & _ & Hpre & -> & _).
    exists pages. split; [done|]. intros t.
    rewrite (store_pages_lookup_with
               (fun k => {| kl_open := k1 k; kl_close := k4 k;
                            kl_result := up_or_down (k1 k) (k4 k);
                            kl_high := Some (k2 k); kl_low := Some (k3 k);
                            kl_volume := Some (k5 k) |})) by done.
    destruct (last_candle t (concat pages)) as [k|]; [|by rewrite lookup_empty].
    eexists. split; [done|]. unfold derived_from. simpl.
    split; [done|]. split; [done|]. apply up_or_down_cases.
Qed.

(** On [flat_page], fetched by verify_accuracy.py: the rising candle of
    window 0 is stored as UP and the candle of window 900000, whose open
    and close are equal, as DOWN. *)
Lemma kline_result_up_iff_close_above_open_witness :
  ∃ klines,
    verify_accuracy.fetch_binance_klines [Response 200 flat_page] 0 1800000
      = Some ([{| startTime := 0; endTime := 1800000 |}], Ok klines) ∧
    kl_result <$> klines !! 0 = Some UP ∧
    kl_result <$> klines !! 900000 = Some DOWN ∧
    ∃ pages : list (list candle),
      take (length pages) [Response 200 flat_page] = Response 200 <$> pages ∧
      ∀ t, match last_candle t (concat pages) with
           | Some k => ∃ kl, klines !! t = Some kl ∧ derived_from k kl
           | None => klines !! t = None
           end.
Proof.
  exists (foldl verify_accuracy.store ∅ flat_page).
  split; [reflexivity|]. split; [vm_compute; reflexivity|].
  split; [vm_compute; reflexivity|].
  apply (proj2 kline_result_up_iff_close_above_open
           [Response 200 flat_page] 0 1800000
           [{| startTime := 0; endTime := 1800000 |}]).
  left. reflexivity.
Defined.

(** C4, as stated, fails: with one candle per page and the range from 0
    to 1800000, the second request starts at 900000, one window after
    the largest open time fetched (0), not at 1 + 0. *)
Lemma next_start_is_not_max_plus_one :
  analyze_new.fetch_binance_klines (Response 200 <$> two_pages) 0 1800000
    = Some (two_requests, Ok (store_pages analyze_new.store ∅ two_pages)) ∧
  max_key (store_pages analyze_new.store ∅ (take 1 two_pages)) = Some 0 ∧
  ¬ (∀ script start_time end_time reqs res,
       analyze_new.fetch_binance_klines script start_time end_time = Some (reqs, Ok res) →
       paging_run analyze_new.store 1 script ∅ start_time end_time reqs res).
Proof.
  assert (Hrun : analyze_new.fetch_binance_klines (Response 200 <$> two_pages) 0 1800000
                 = Some (two_requests, Ok (store_pages analyze_new.store ∅ two_pages)))
    by (vm_compute; reflexivity).
  split; [exact Hrun|]. split; [vm_compute; reflexivity|].
  intros H. apply H in Hrun as (pages & _ & Hpre & _ & Hreq & Hstop).
  specialize (Hreq 1%nat {| startTime := 900000; endTime := 1800000 |} eq_refl)
    as [Hstart _].
  destruct pages as [|p pages].
  { destruct Hstop as [[Hlen _]|[Hlen _]]; simpl in Hlen; lia. }
  simpl in Hpre. injection Hpre as <- _.
  vm_compute in Hstart. discriminate.
Qed.

(** C4 (amended). During pagination in analyze_new.py and
    analyze_48h.py, after each non-empty page the next request starts
    one window duration (900000 ms) after the largest window start
    fetched so far, and ends at most 1000 windows later; paging goes on
    until that start reaches the requested end or a page comes back
    empty or with a status other than 200, and then the mapping of the
    pages stored so far is returned. A script whose non-empty 200-pages
    are followed by such a response does make the fetcher return. *)
Theorem paging_advances_one_window (script : list response) (start_time end_time : Z) :
  (∀ reqs res,
     analyze_new.fetch_binance_klines script start_time end_time = Some (reqs, Ok res) →
     paging_run analyze_new.store 900000 script ∅ start_time end_time reqs res) ∧
  (∀ reqs res,
     analyze_48h.fetch_binance_klines script start_time end_time = Some (reqs, Ok res) →
     paging_run analyze_48h.store 900000 script ∅ start_time end_time reqs res) ∧
  (∀ pages resp rest,
     script = (Response 200 <$> pages) ++ resp :: rest →
     Forall (fun data => data ≠ []) pages →
     stops_paging resp →
     (∃ reqs, (length reqs ≤ S (length pages))%nat ∧
        analyze_new.fetch_binance_klines script start_time end_time
        = Some (reqs, Ok (store_pages analyze_new.store ∅ (take (length reqs) pages)))) ∧
     (∃ reqs, (length reqs ≤ S (length pages))%nat ∧
        analyze_48h.fetch_binance_klines script start_time end_time
        = Some (reqs, Ok (store_pages analyze_48h.store ∅ (take (length reqs) pages))))).
Proof.
  split; [|split].
  - intros reqs res. apply fetch_loop_paging_run, new_store_dom.
  - intros reqs res. apply fetch_loop_paging_run, a48_store_dom.
  - intros pages resp rest -> Hne Hstop. split.
    + destruct (fetch_loop_returns analyze_new.store new_store_dom pages resp rest
                  ∅ start_time end_time Hne Hstop) as [reqs [Hrun Hlen]].
      by exists reqs.
    + destruct (fetch_loop_returns analyze_48h.store a48_store_dom pages resp rest
                  ∅ start_time end_time Hne Hstop) as [reqs [Hrun Hlen]].
      by exists reqs.
Qed.

Lemma paging_advances_one_window_witness :
  paging_run analyze_new.store 900000 (Response 200 <$> two_pages) ∅ 0 1800000
    two_requests (store_pages analyze_new.store ∅ two_pages).
Proof.
  apply (paging_advances_one_window (Response 200 <$> two_pages) 0 1800000).
  vm_compute. reflexivity.
Defined.

(** ** Streaks *)

Lemma ends_with_run_snoc (b : bool) (log : list detail) (r : detail) (n : nat) :
  ends_with_run b (log ++ [r]) n ↔
  n = 0%nat ∨ (d_correct r = b ∧ ∃ n', n = S n' ∧ ends_with_run b log n').
Proof.
  split.
  - intros (l1 & run & Heq & Hlen & Hall).
    destruct run as [|x run _] using rev_ind; [left; by subst n|right].
    rewrite app_assoc in Heq. apply app_inj_tail in Heq as [-> ->].
    apply Forall_app in Hall as [Hrun Hx]. rewrite Forall_singleton in Hx.
    split; [done|]. exists (length run). split.
    + rewrite <- Hlen, length_app. simpl. lia.
    + by exists l1, run.
  - intros [->|(Hr & n' & -> & l1 & run & -> & Hlen & Hall)].
    + exists (log ++ [r]), []. by rewrite app_nil_r.
    + exists l1, (run ++ [r]). rewrite app_assoc. split; [done|]. split.
      * rewrite length_app. simpl. lia.
      * apply Forall_app. split; [done|]. by apply Forall_singleton.
Qed.

Lemma has_run_snoc (b : bool) (log : list detail) (r : detail) (n : nat) :
  has_run b (log ++ [r]) n ↔ has_run b log n ∨ ends_with_run b (log ++ [r]) n.
Proof.
  split.
  - intros (l1 & run & l2 & Heq & Hlen & Hall).
    destruct l2 as [|x l2 _] using rev_ind.
    + right. rewrite app_nil_r in Heq. by exists l1, run.
    + left. rewrite !app_assoc in Heq. apply app_inj_tail in Heq as [-> _].
      exists l1, run, l2. by rewrite app_assoc.
  - intros [(l1 & run & l2 & -> & Hlen & Hall)|(l1 & run & Heq & Hlen & Hall)].
    + exists l1, run, (l2 ++ [r]). by rewrite <- !app_assoc.
    + exists l1, run, []. by rewrite app_nil_r.
Qed.

Lemma longest_suffix_run_nonneg (b : bool) (log : list detail) (z : Z) :
  longest_suffix_run b log z → 0 ≤ z.
Proof. intros [(n & <- & _) _]. lia. Qed.

Lemma longest_run_nonneg (b : bool) (log : list detail) (z : Z) :
  longest_run b log z → 0 ≤ z.
Proof. intros [(n & <- & _) _]. lia. Qed.

Lemma longest_suffix_run_same (b : bool) (log : list detail) (r : detail) (z : Z) :
  d_correct r = b →
  longest_suffix_run b log z →
  longest_suffix_run b (log ++ [r]) (z + 1).
Proof.
  intros Hr [(n & <- & Hn) Hmax]. split.
  - exists (S n). split; [lia|]. apply ends_with_run_snoc. right. eauto.
  - intros m [->|(_ & m' & -> & Hm')]%ends_with_run_snoc; [lia|].
    apply Hmax in Hm'. lia.
Qed.

Lemma longest_suffix_run_other (b : bool) (log : list detail) (r : detail) :
  d_correct r ≠ b →
  longest_suffix_run b (log ++ [r]) 0.
Proof.
  intros Hr. split.
  - exists 0%nat. split; [done|]. apply ends_with_run_snoc. by left.
  - intros m [->|(? & _)]%ends_with_run_snoc; [lia|done].
Qed.

Lemma longest_run_snoc (b : bool) (log : list detail) (r : detail) (m c : Z) :
  longest_run b log m →
  longest_suffix_run b (log ++ [r]) c →
  longest_run b (log ++ [r]) (Z.max m c).
Proof.
  intros [(n & <- & Hn) Hmax] [(k & <- & Hk) Hsuf]. split.
  - destruct (Z.max_spec (Z.of_nat n) (Z.of_nat k)) as [[_ ->]|[_ ->]].
    + exists k. split; [done|]. apply has_run_snoc. by right.
    + exists n. split; [done|]. apply has_run_snoc. by left.
  - intros j [Hj|Hj]%has_run_snoc; [apply Hmax in Hj|apply Hsuf in Hj]; lia.
Qed.

Lemma streak_scan_snoc (log : list detail) (r : detail) :
  streak_scan (log ++ [r]) = streak_step (streak_scan log) r.
Proof. unfold streak_scan. by rewrite foldl_app. Qed.

(** What the four counters hold after scanning [log]. *)
Lemma streak_scan_invariant (log : list detail) :
  let st := streak_scan log in
  longest_suffix_run true log (current_winning st) ∧
  longest_suffix_run false log (current_losing st) ∧
  longest_run true log (max_winning_streak st) ∧
  longest_run false log (max_losing_streak st).
Proof.
  induction log as [|r log IH] using rev_ind.
  - assert (Hnil : ∀ b, longest_suffix_run b [] 0 ∧ longest_run b [] 0).
    { intros b. split; split.
      - exists 0%nat. split; [done|]. by exists [], [].
      - intros n (l1 & run & Heq & <- & _).
        symmetry in Heq. apply app_eq_nil in Heq as [_ ->]. done.
      - exists 0%nat. split; [done|]. by exists [], [], [].
      - intros n (l1 & run & l2 & Heq & <- & _).
        symmetry in Heq. apply app_eq_nil in Heq as [_ [-> _]%app_eq_nil]. done. }
    simpl. split; [apply Hnil|]. split; [apply Hnil|]. split; apply Hnil.
  - cbv zeta in IH |- *. rewrite streak_scan_snoc.
    destruct IH as (Hcw & Hcl & Hmw & Hml).
    pose proof (longest_run_nonneg _ _ _ Hmw) as Hmw0.
    pose proof (longest_run_nonneg _ _ _ Hml) as Hml0.
    unfold streak_step. destruct (d_correct r) eqn:Hr; simpl.
    + pose proof (longest_suffix_run_same true log r _ Hr Hcw) as Hcw'.
      assert (Hcl' : longest_suffix_run false (log ++ [r]) 0).
      { apply longest_suffix_run_other. by rewrite Hr. }
      split; [done|]. split; [done|]. split.
      * by apply longest_run_snoc.
      * replace (max_losing_streak (streak_scan log))
          with (Z.max (max_losing_streak (streak_scan log)) 0) by lia.
        by apply longest_run_snoc.
    + pose proof (longest_suffix_run_same false log r _ Hr Hcl) as Hcl'.
      assert (Hcw' : longest_suffix_run true (log ++ [r]) 0).
      { apply longest_suffix_run_other. by rewrite Hr. }
      split; [done|]. split; [done|]. split.
      * replace (max_winning_streak (streak_scan log))
          with (Z.max (max_winning_streak (streak_scan log)) 0) by lia.
        by apply longest_run_snoc.
      * by apply longest_run_snoc.
Qed.

(** C8. The streak statistic scans the chronological detail log once:
    a correct entry increments the current winning run, zeroes the
    current losing run and keeps the maximum of the winning runs (and
    symmetrically for a wrong entry). After the scan the best winning
    streak is the length of the longest run of consecutive correct
    entries and the worst losing streak that of the longest run of
    consecutive wrong entries; for the log [correct, correct, wrong,
    correct, correct, correct] they are 3 and 1. *)
Theorem streak_scan_longest_runs (log : list detail) :
  (∀ r : detail,
     let st := streak_scan log in
     streak_scan (log ++ [r]) =
       if d_correct r then
         {| current_winning := current_winning st + 1;
            current_losing := 0;
            max_winning_streak := Z.max (max_winning_streak st) (current_winning st + 1);
            max_losing_streak := max_losing_streak st |}
       else
         {| current_losing := current_losing st + 1;
            current_winning := 0;
            max_losing_streak := Z.max (max_losing_streak st) (current_losing st + 1);
            max_winning_streak := max_winning_streak st |}) ∧
  longest_run true log (max_winning_streak (streak_scan log)) ∧
  longest_run false log (max_losing_streak (streak_scan log)) ∧
  max_winning_streak (streak_scan scenario_log) = 3 ∧
  max_losing_streak (streak_scan scenario_log) = 1.
Proof.
  split; [|split; [|split; [|split]]].
  - intros r. cbv zeta. by rewrite streak_scan_snoc.
  - apply streak_scan_invariant.
  - apply streak_scan_invariant.
  - reflexivity.
  - reflexivity.
Qed.

(** ** The scoring loops *)

(** In verify_accuracy.py a window adds one to the total exactly when it
    is scorable, and otherwise leaves every counter as it was. *)
Lemma verify_score_window_total (active_windows : gmap Z (list signal_rec))
    (klines : gmap Z kline) (st st' : verify_accuracy.tally) (window_start : Z) :
  verify_accuracy.score_window active_windows klines st window_start = Ok st' →
  if scorable active_windows klines window_start then
    verify_accuracy.t_total st' = verify_accuracy.t_total st + 1 ∧
    verify_accuracy.t_correct st' + verify_accuracy.t_wrong st'
      = verify_accuracy.t_correct st + verify_accuracy.t_wrong st + 1 ∧
    length (verify_accuracy.results_detail st')
      = S (length (verify_accuracy.results_detail st))
  else st' = st.
Proof.
  unfold verify_accuracy.score_window, scorable.
  destruct (klines !! window_start) as [kline|]; [|by intros [= <-]].
  destruct (active_windows !! window_start) as [signals|]; [|done].
  case_decide as Hv.
  - intros [= <-]. by rewrite bool_decide_eq_false_2 by auto.
  - intros [= <-]. rewrite bool_decide_eq_true_2 by done. simpl.
    rewrite length_app. simpl.
    destruct (bool_decide _); repeat split; lia.
Qed.

(** Over the whole loop of verify_accuracy.py the total is the number of
    scorable windows, each counted once as correct or wrong. *)
Lemma verify_score_total (active_windows : gmap Z (list signal_rec))
    (klines : gmap Z kline) (sorted_windows : list Z) (st : verify_accuracy.tally) :
  verify_accuracy.score active_windows klines sorted_windows = Ok st →
  verify_accuracy.t_total st
    = Z.of_nat (length (List.filter (scorable active_windows klines) sorted_windows)) ∧
  verify_accuracy.t_correct st + verify_accuracy.t_wrong st = verify_accuracy.t_total st ∧
  Z.of_nat (length (verify_accuracy.results_detail st)) = verify_accuracy.t_total st.
Proof.
  unfold verify_accuracy.score.
  assert (Hgen : ∀ ws st0 st1,
            for_each (verify_accuracy.score_window active_windows klines) ws st0 = Ok st1 →
            verify_accuracy.t_total st1
              = verify_accuracy.t_total st0
                + Z.of_nat (length (List.filter (scorable active_windows klines) ws)) ∧
            verify_accuracy.t_correct st1 + verify_accuracy.t_wrong st1
              = verify_accuracy.t_correct st0 + verify_accuracy.t_wrong st0
                + Z.of_nat (length (List.filter (scorable active_windows klines) ws)) ∧
            Z.of_nat (length (verify_accuracy.results_detail st1))
              = Z.of_nat (length (verify_accuracy.results_detail st0))
                + Z.of_nat (length (List.filter (scorable active_windows klines) ws))).
  { induction ws as [|w ws IH]; intros st0 st1; simpl.
    - intros [= <-]. lia.
    - destruct (verify_accuracy.score_window _ _ st0 w) as [st'|] eqn:Hw; [|done].
      intros Hrest. apply IH in Hrest as (Ht & Hc & Hd).
      apply verify_score_window_total in Hw.
      destruct (scorable active_windows klines w); simpl.
      + destruct Hw as (Ht' & Hc' & Hd'). lia.
      + subst st'. lia. }
  intros Hst. apply Hgen in Hst. simpl in Hst. lia.
Qed.

(** In analyze_48h.py a window without a known outcome, or whose vote is
    NEUTRAL, leaves the whole [results] dict as it was. *)
Lemma a48_skipped_window_unchanged (cal : calendar) (active : gmap Z (list signal_rec))
    (klines : gmap Z kline) (res : analyze_48h.results) (ws : Z) (sigs : list signal_rec) :
  active !! ws = Some sigs →
  klines !! ws = None ∨ analyze_48h.determine_vote sigs = NEUTRAL →
  analyze_48h.score_window cal active klines res ws = Ok res.
Proof.
  intros Hsigs Hskip. unfold analyze_48h.score_window.
  destruct (klines !! ws) as [kl|]; [|done].
  rewrite Hsigs. destruct Hskip as [?|Hv]; [done|].
  cbv zeta. by rewrite decide_True.
Qed.

(** C7 fails on analyze_48h.py. A file of one STRONG row dated
    2026-02-12T00:00:01Z (so not before [FILTER_FROM]) whose regime
    reads "total", and a page with the rising candle of its window: the
    window is scored once (one detail entry, one UP vote), yet the
    global counters end at 2 correct, because [results[regime]] is
    [results['total']]. *)
Theorem regime_named_total_counts_twice (cal : calendar) :
  ∃ res streaks,
    analyze_48h.main cal [Response 200 rising_page] regime_total_rows
      = Some (Ok (res, streaks)) ∧
    length (analyze_48h.details res) = 1%nat ∧
    analyze_48h.named res !! "UP_vote" = Some {| correct := 1; wrong := 0 |} ∧
    analyze_48h.total res = {| correct := 2; wrong := 0 |}.
Proof.
  eexists _, _. split; [vm_compute; reflexivity|].
  split; [reflexivity|]. split; reflexivity.
Qed.

(** ** Rendering of accuracies *)

Lemma bind_Ok {A B} (r : result A) (k : A -> result B) (b : B) :
  r ≫= k = Ok b ↔ ∃ a, r = Ok a ∧ k a = Ok b.
Proof.
  destruct r as [a|e]; simpl; split.
  - intros H. by exists a.
  - by intros (a' & [= <-] & H).
  - done.
  - by intros (a' & [=] & _).
Qed.

Lemma bind_Raise {A B} (r : result A) (k : A -> result B) (e : exn) :
  r ≫= k = Raise e ↔ r = Raise e ∨ ∃ a, r = Ok a ∧ k a = Raise e.
Proof.
  destruct r as [a|e']; simpl; split.
  - intros H. right. by exists a.
  - by intros [[=]|(a' & [= <-] & H)].
  - intros [= <-]. by left.
  - by intros [[= <-]|(a' & [=] & _)].
Qed.

Lemma percent_Ok (a b : Z) : b ≠ 0 → ∃ q, percent a b = Ok q.
Proof. intros Hb. unfold percent. case_decide; [done|by eexists]. Qed.

Lemma get_bucket_Raise (stats : gmap string bucket) (key : string) (e : exn) :
  get_bucket stats key = Raise e → e = KeyError.
Proof. unfold get_bucket. destruct (stats !! key); [done|by intros [= <-]]. Qed.

Lemma get_bucket_Ok (stats : gmap string bucket) (key : string) (b : bucket) :
  get_bucket stats key = Ok b ↔ stats !! key = Some b.
Proof. unfold get_bucket. destruct (stats !! key); split; congruence. Qed.

(** A [for key in keys:] block can only fail on a missing key. *)
Lemma bucket_lines_Raise (else_line : string -> list line)
    (stats : gmap string bucket) (keys : list string) (e : exn) :
  bucket_lines else_line stats keys = Raise e → e = KeyError.
Proof.
  induction keys as [|key keys IH]; simpl; [done|].
  intros [Hb|(b & Hb & H)]%bind_Raise; [by eapply get_bucket_Raise|].
  apply bind_Raise in H as [H|(here & _ & H)].
  - case_decide as Ht; [|done].
    destruct (percent_Ok (correct b) (correct b + wrong b)) as [q Hq]; [lia|].
    by rewrite Hq in H.
  - apply bind_Raise in H as [H|(rest & _ & H)]; [auto|done].
Qed.






Lemma verify_render_Raise (st : verify_accuracy.tally) (stats : gmap string bucket)
    (e : exn) :
  verify_accuracy.render st stats = Raise e → e = KeyError.
Proof.
  unfold verify_accuracy.render. case_decide as Ht; [|done].
  destruct (percent_Ok (verify_accuracy.t_correct st) (verify_accuracy.t_total st))
    as [q Hq]; [lia|].
  intros [H|(acc & _ & H)]%bind_Raise; [by rewrite Hq in H|].
  apply bind_Raise in H as [H|(quality & _ & H)]; [by eapply bucket_lines_Raise|].
  apply bind_Raise in H as [H|(timing & _ & H)]; [by eapply bucket_lines_Raise|done].
Qed.

Lemma percent_or_zero_Raise (res : analyze_new.results) (key : string) (e : exn) :
  analyze_new.percent_or_zero res key = Raise e → e = KeyError.
Proof.
  unfold analyze_new.percent_or_zero.
  intros [H|(b & _ & H)]%bind_Raise; [by eapply get_bucket_Raise|].
  destruct (percent_Ok (correct b) (Z.max 1 (correct b + wrong b))) as [q Hq]; [lia|].
  by rewrite Hq in H.
Qed.

Lemma new_render_Raise (res : analyze_new.results) (e : exn) :
  analyze_new.render res = Raise e → e = KeyError.
Proof.
  unfold analyze_new.render. cbv zeta. case_decide as Ht; [|done].
  destruct (percent_Ok (correct (analyze_new.total res))
              (correct (analyze_new.total res) + wrong (analyze_new.total res)))
    as [q Hq]; [lia|].
  intros [H|(acc & _ & H)]%bind_Raise; [by rewrite Hq in H|]. revert H.
  repeat (intros [H|(? & _ & H)]%bind_Raise;
          [first [by eapply bucket_lines_Raise | by eapply percent_or_zero_Raise]|];
          revert H).
  done.
Qed.




(** ** The run after a failed fetch *)

(** [k ∈ [a; b; ...]] for a literal key, and the same from a hypothesis
    that puts the key in a shorter literal list. *)
Ltac in_list :=
  unfold new_bucket_names;
  repeat (apply elem_of_cons; first [left; reflexivity | right]).

Ltac in_sublist H :=
  repeat (apply elem_of_cons in H as [->|H]; [in_list|]);
  by apply elem_of_nil in H.

Lemma bind_Ok_eq {A B} (r : result A) (k : A -> result B) (a : A) :
  r = Ok a → r ≫= k = k a.
Proof. by intros ->. Qed.

Lemma for_each_Ok {S A} (I : S -> Prop) (body : S -> A -> result S)
    (xs : list A) (st : S) :
  (∀ st x, x ∈ xs → I st → ∃ st', body st x = Ok st' ∧ I st') →
  I st →
  ∃ st', for_each body xs st = Ok st' ∧ I st'.
Proof.
  revert st. induction xs as [|x xs IH]; intros st Hbody Hst; simpl.
  - by exists st.
  - destruct (Hbody st x) as (st1 & -> & Hst1); [by left|done|].
    apply IH; [|done]. intros st2 y Hy. apply Hbody. by right.
Qed.

Lemma bump_bucket_has (keys : list string) (key : string) (is_correct : bool)
    (stats : gmap string bucket) :
  has_buckets keys stats → key ∈ keys →
  ∃ stats', bump_bucket key is_correct stats = Ok stats' ∧ has_buckets keys stats'.
Proof.
  intros Hhas Hkey. unfold bump_bucket, get_bucket.
  destruct (Hhas key Hkey) as [b ->]. simpl.
  eexists. split; [done|]. intros k Hk.
  destruct (decide (key = k)) as [->|Hne].
  - rewrite lookup_insert_eq. by eexists.
  - rewrite lookup_insert_ne by done. by apply Hhas.
Qed.

Lemma new_score_signal_Ok (is_correct : bool) (named : gmap string bucket)
    (s : signal_rec) :
  has_buckets new_bucket_names named →
  ∃ named', analyze_new.score_signal is_correct named s = Ok named' ∧
            has_buckets new_bucket_names named'.
Proof.
  intros Hhas. unfold analyze_new.score_signal. cbv zeta.
  assert (H1 : ∃ n1,
             (if str_in "STRONG" (s_rec s)
              then bump_bucket "STRONG" is_correct named
              else if str_in "GOOD" (s_rec s)
                   then bump_bucket "GOOD" is_correct named
                   else Ok named) = Ok n1 ∧ has_buckets new_bucket_names n1).
  { destruct (str_in "STRONG" (s_rec s));
      [apply bump_bucket_has; [done|in_list]|].
    destruct (str_in "GOOD" (s_rec s));
      [apply bump_bucket_has; [done|in_list]|].
    by exists named. }
  destruct H1 as (n1 & Hn1 & Hhas1). rewrite (bind_Ok_eq _ _ _ Hn1).
  destruct (for_each_Ok (has_buckets new_bucket_names)
              (fun named timing =>
                 if str_in timing (s_rec s) then bump_bucket timing is_correct named
                 else Ok named)
              ["EARLY"; "MID"; "LATE"] n1) as (n2 & Hn2 & Hhas2); [|done|].
  { intros st x Hx Hst. destruct (str_in x (s_rec s)); [|by exists st].
    apply bump_bucket_has; [done|]. in_sublist Hx. }
  rewrite (bind_Ok_eq _ _ _ Hn2).
  case_bool_decide as Hreg; [|by exists n2].
  apply bump_bucket_has; [done|]. in_sublist Hreg.
Qed.

Lemma new_score_window_Ok (active_windows : gmap Z (list signal_rec))
    (klines : gmap Z kline) (res : analyze_new.results) (window_start : Z) :
  is_Some (active_windows !! window_start) →
  has_buckets new_bucket_names (analyze_new.named res) →
  ∃ res', analyze_new.score_window active_windows klines res window_start = Ok res' ∧
          has_buckets new_bucket_names (analyze_new.named res').
Proof.
  intros [signals Hsig] Hhas. unfold analyze_new.score_window.
  destruct (klines !! window_start) as [kline|]; [|by exists res].
  rewrite Hsig. cbv zeta.
  case_decide as Hv; [by exists res|].
  destruct (bump_bucket_has new_bucket_names
              (String.append (label_str (analyze_new.determine_vote signals)) "_vote")
              (bool_decide (analyze_new.determine_vote signals = kl_result kline))
              (analyze_new.named res) Hhas) as (n1 & Hn1 & Hhas1).
  { destruct (analyze_new.determine_vote signals); [| |done]; simpl; in_list. }
  rewrite (bind_Ok_eq _ _ _ Hn1).
  destruct (for_each_Ok (has_buckets new_bucket_names)
              (analyze_new.score_signal
                 (bool_decide (analyze_new.determine_vote signals = kl_result kline)))
              signals n1) as (n2 & Hn2 & Hhas2); [|done|].
  { intros st x _ Hst. by apply new_score_signal_Ok. }
  rewrite (bind_Ok_eq _ _ _ Hn2). by eexists.
Qed.

Lemma elem_of_sorted_keys {A} (d : gmap Z A) (k : Z) :
  k ∈ sorted_keys d ↔ is_Some (d !! k).
Proof.
  unfold sorted_keys. rewrite merge_sort_Permutation, elem_of_elements.
  apply elem_of_dom.
Qed.

(** [sorted_keys] lists the keys in ascending order. *)
Lemma sorted_keys_sorted {A} (d : gmap Z A) : Sorted Z.le (sorted_keys d).
Proof.
  apply Sorted_merge_sort. intros x y. destruct (Z.le_gt_cases x y); [by left|right; lia].
Qed.

Lemma new_score_Ok (active_windows : gmap Z (list signal_rec)) (klines : gmap Z kline) :
  ∃ res, analyze_new.score active_windows klines (sorted_keys active_windows) = Ok res ∧
         has_buckets new_bucket_names (analyze_new.named res).
Proof.
  unfold analyze_new.score. apply for_each_Ok.
  - intros st ws Hws Hst. apply new_score_window_Ok; [|done].
    by apply elem_of_sorted_keys.
  - intros k Hk. unfold new_bucket_names in Hk.
    repeat (apply elem_of_cons in Hk as [->|Hk]; [by eexists|]).
    by apply elem_of_nil in Hk.
Qed.

Lemma bucket_lines_total (else_line : string -> list line)
    (stats : gmap string bucket) (keys : list string) :
  (∀ k, k ∈ keys → is_Some (stats !! k)) →
  ∃ lines, bucket_lines else_line stats keys = Ok lines.
Proof.
  induction keys as [|key keys IH]; intros Hkeys; simpl; [by eexists|].
  destruct (Hkeys key) as [b Hb]; [by left|].
  apply get_bucket_Ok in Hb. rewrite (bind_Ok_eq _ _ _ Hb).
  destruct IH as [rest Hrest]; [intros k Hk; apply Hkeys; by right|].
  case_decide as Ht.
  - destruct (percent_Ok (correct b) (correct b + wrong b)) as [q Hq]; [lia|].
    rewrite Hq. simpl. rewrite Hrest. by eexists.
  - simpl. rewrite Hrest. by eexists.
Qed.

Lemma new_render_Ok (res : analyze_new.results) :
  has_buckets new_bucket_names (analyze_new.named res) →
  ∃ lines, analyze_new.render res = Ok lines.
Proof.
  intros Hhas.
  destruct (analyze_new.render res) as [lines|e] eqn:Hr; [by eexists|].
  exfalso.
  assert (e = KeyError) as -> by (by eapply new_render_Raise).
  unfold analyze_new.render in Hr. cbv zeta in Hr.
  case_decide as Ht; [|done].
  assert (Hsub : ∀ keys, keys ⊆ new_bucket_names →
                   ∀ k, k ∈ keys → is_Some (analyze_new.named res !! k)).
  { intros keys Hkeys k Hk. apply Hhas. by apply Hkeys. }
  assert (Hpz : ∀ key, key ∈ new_bucket_names →
                  ∃ q, analyze_new.percent_or_zero res key = Ok q).
  { intros key Hkey. unfold analyze_new.percent_or_zero.
    destruct (Hhas key Hkey) as [b Hb]. apply get_bucket_Ok in Hb.
    rewrite (bind_Ok_eq _ _ _ Hb). apply percent_Ok. lia. }
  destruct (percent_Ok (correct (analyze_new.total res))
              (correct (analyze_new.total res) + wrong (analyze_new.total res)))
    as [q Hq]; [lia|].
  rewrite (bind_Ok_eq _ _ _ Hq) in Hr.
  destruct (bucket_lines_total (fun key => [NoData key]) (analyze_new.named res)
              ["STRONG"; "GOOD"]) as [l1 Hl1];
    [apply Hsub; intros x Hx; in_sublist Hx|].
  rewrite (bind_Ok_eq _ _ _ Hl1) in Hr.
  destruct (bucket_lines_total (fun _ => []) (analyze_new.named res)
              ["EARLY"; "MID"; "LATE"]) as [l2 Hl2];
    [apply Hsub; intros x Hx; in_sublist Hx|].
  rewrite (bind_Ok_eq _ _ _ Hl2) in Hr.
  destruct (bucket_lines_total (fun _ => []) (analyze_new.named res)
              ["UP_vote"; "DOWN_vote"]) as [l3 Hl3];
    [apply Hsub; intros x Hx; in_sublist Hx|].
  rewrite (bind_Ok_eq _ _ _ Hl3) in Hr.
  destruct (bucket_lines_total (fun _ => []) (analyze_new.named res)
              ["TREND_UP"; "TREND_DOWN"]) as [l4 Hl4];
    [apply Hsub; intros x Hx; in_sublist Hx|].
  rewrite (bind_Ok_eq _ _ _ Hl4) in Hr.
  destruct (Hpz "STRONG") as [q1 Hq1]; [in_list|].
  rewrite (bind_Ok_eq _ _ _ Hq1) in Hr.
  destruct (Hpz "GOOD") as [q2 Hq2]; [in_list|].
  rewrite (bind_Ok_eq _ _ _ Hq2) in Hr.
  destruct (Hpz "UP_vote") as [q3 Hq3]; [in_list|].
  rewrite (bind_Ok_eq _ _ _ Hq3) in Hr.
  destruct (Hpz "DOWN_vote") as [q4 Hq4]; [in_list|].
  rewrite (bind_Ok_eq _ _ _ Hq4) in Hr.
  done.
Qed.

Lemma fetch_range_Ok {A} (d : gmap Z A) :
  size d ≠ 0%nat → ∃ first last_end, fetch_range (sorted_keys d) = Ok (first, last_end).
Proof.
  intros Hsize. unfold fetch_range.
  assert (Hne : sorted_keys d ≠ []).
  { intros Hnil. apply Hsize.
    apply map_size_empty_iff, map_empty. intros k.
    apply eq_None_not_Some. rewrite <- elem_of_sorted_keys, Hnil.
    apply not_elem_of_nil. }
  destruct (sorted_keys d) as [|k ks] using rev_ind; [done|].
  rewrite last_snoc. destruct (ks ++ [k]) eqn:Hl.
  - by apply app_eq_nil in Hl as [_ ?].
  - simpl. by eexists _, _.
Qed.

(** C2, as stated, fails. In verify_accuracy.py a non-200 response
    raises, and the run ends with that exception; in analyze_new.py a
    transport failure raised by [requests.get] is caught nowhere, so the
    candles of the pages fetched before it are lost and the run ends
    with the exception. *)
Lemma failed_fetch_aborts_run :
  verify_accuracy.fetch_binance_klines [Response 500 []] feb12 (feb12 + 900000)
    = Some ([{| startTime := feb12; endTime := feb12 + 900000 |}],
            Raise (Exception 500)) ∧
  verify_accuracy.main [Response 500 []] one_strong_row = Some (Raise (Exception 500)) ∧
  analyze_new.fetch_binance_klines [Response 200 rising_page; ConnectionError]
      feb12 (feb12 + 1800000)
    = Some (feb12_requests, Raise RequestException) ∧
  analyze_new.main [Response 200 rising_page; ConnectionError] two_window_rows
    = Some (Raise RequestException).
Proof.
  split; [reflexivity|]. split; [vm_compute; reflexivity|].
  split; vm_compute; reflexivity.
Qed.

(** The filtered file has rows, and active windows, as soon as the
    range of the fetch is defined. *)
Lemma new_main_fetches (script : list response) (df df_new : list row)
    (fetch_start fetch_end : Z) :
  analyze_new.filter_rows df = Ok df_new →
  fetch_range (sorted_keys (active_of (analyze_new.group_signals_by_window df_new)))
    = Ok (fetch_start, fetch_end) →
  analyze_new.main script df
  = match analyze_new.fetch_binance_klines script fetch_start fetch_end with
    | None => None
    | Some (_, fetched) =>
        Some (klines ← fetched;
              res ← analyze_new.score
                      (active_of (analyze_new.group_signals_by_window df_new)) klines
                      (sorted_keys
                         (active_of (analyze_new.group_signals_by_window df_new)));
              lines ← analyze_new.render res;
              Ok (res, lines))
    end.
Proof.
  intros Hdf Hrange. unfold analyze_new.main. rewrite Hdf.
  assert (Hkeys : sorted_keys (active_of (analyze_new.group_signals_by_window df_new))
                  ≠ []).
  { intros Hnil. by rewrite Hnil in Hrange. }
  rewrite decide_False.
  2:{ intros Hlen. apply Hkeys. destruct df_new; [|done]. by vm_compute. }
  cbv zeta. rewrite decide_False.
  2:{ intros Hsize. apply Hkeys. apply map_size_empty_iff in Hsize.
      rewrite Hsize. by vm_compute. }
  by rewrite Hrange.
Qed.

(** C2 (amended). In the paginating fetcher of analyze_new.py a
    response with a status other than 200 is not fatal. For every
    requested range the fetcher stops paginating and returns the mapping
    of the candles of the pages it fetched before that response
    (possibly none; all the pages before it when the response was
    requested at all). And the run goes on (on a signal file whose
    lines carry an instant and a text signal, which is what rows stand
    for): over the range [main] asks for, the windows of the rows dated
    from [FILTER_FROM] on are scored against exactly the mapping that
    fetch returned, and the report is rendered from that score, instead
    of the run aborting. *)
Theorem non_200_stops_paging_and_run_goes_on (pages : list (list candle))
    (status : Z) (body : list candle) (rest : list response) (df : list row) :
  Forall (fun data => data ≠ []) pages →
  status ≠ 200 →
  let script := (Response 200 <$> pages) ++ Response status body :: rest in
  (∀ start_time end_time,
     ∃ reqs, (length reqs ≤ S (length pages))%nat ∧
       analyze_new.fetch_binance_klines script start_time end_time
       = Some (reqs, Ok (store_pages analyze_new.store ∅ (take (length reqs) pages)))) ∧
  (∀ df_new fetch_start fetch_end,
     analyze_new.filter_rows df = Ok df_new →
     let active_windows := active_of (analyze_new.group_signals_by_window df_new) in
     fetch_range (sorted_keys active_windows) = Ok (fetch_start, fetch_end) →
     ∃ reqs res lines,
       analyze_new.fetch_binance_klines script fetch_start fetch_end
       = Some (reqs, Ok (store_pages analyze_new.store ∅ (take (length reqs) pages))) ∧
       analyze_new.score active_windows
         (store_pages analyze_new.store ∅ (take (length reqs) pages))
         (sorted_keys active_windows) = Ok res ∧
       analyze_new.render res = Ok lines ∧
       analyze_new.main script df = Some (Ok (res, lines))).
Proof.
  intros Hne Hstatus script.
  assert (Hfetch : ∀ start_time end_time,
            ∃ reqs, (length reqs ≤ S (length pages))%nat ∧
              analyze_new.fetch_binance_klines script start_time end_time
              = Some (reqs, Ok (store_pages analyze_new.store ∅
                                  (take (length reqs) pages)))).
  { intros start_time end_time.
    destruct (fetch_loop_returns analyze_new.store new_store_dom pages
                (Response status body) rest ∅ start_time end_time Hne)
      as (reqs & Hrun & Hlen); [by left|].
    by exists reqs. }
  split; [exact Hfetch|].
  intros df_new fetch_start fetch_end Hdf active_windows Hrange.
  destruct (Hfetch fetch_start fetch_end) as (reqs & _ & Hrun).
  destruct (new_score_Ok active_windows
              (store_pages analyze_new.store ∅ (take (length reqs) pages)))
    as (res & Hres & Hhas).
  destruct (new_render_Ok res Hhas) as [lines Hlines].
  exists reqs, res, lines. split; [done|]. split; [done|]. split; [done|].
  rewrite (new_main_fetches script df df_new fetch_start fetch_end Hdf Hrange).
  rewrite Hrun. simpl. fold active_windows. rewrite Hres. simpl. by rewrite Hlines.
Qed.

(** Two actionable rows in the two windows from [feb12] on, a first page
    with the candle of the first window and then a 500: the second
    request is answered by the 500, the fetch returns the candle of the
    first page, and the run scores that one window and prints its
    report. *)
Lemma non_200_stops_paging_and_run_goes_on_witness :
  analyze_new.fetch_binance_klines [Response 200 rising_page; Response 500 []]
      feb12 (feb12 + 1800000)
    = Some (feb12_requests, Ok (store_pages analyze_new.store ∅ [rising_page])) ∧
  ∃ res lines,
    analyze_new.score (active_of (analyze_new.group_signals_by_window two_window_rows))
      (store_pages analyze_new.store ∅ [rising_page])
      (sorted_keys (active_of (analyze_new.group_signals_by_window two_window_rows)))
      = Ok res ∧
    analyze_new.render res = Ok lines ∧
    analyze_new.main [Response 200 rising_page; Response 500 []] two_window_rows
      = Some (Ok (res, lines)) ∧
    length (analyze_new.details res) = 1%nat.
Proof.
  assert (Hrun : analyze_new.fetch_binance_klines
                   [Response 200 rising_page; Response 500 []] feb12 (feb12 + 1800000)
                 = Some (feb12_requests,
                         Ok (store_pages analyze_new.store ∅ [rising_page]))).
  { vm_compute. reflexivity. }
  split; [exact Hrun|].
  destruct (non_200_stops_paging_and_run_goes_on [rising_page] 500 [] [] two_window_rows)
    as [_ Hmain].
  { repeat constructor. discriminate. }
  { lia. }
  destruct (Hmain two_window_rows feb12 (feb12 + 1800000))
    as (reqs & res & lines & Hfetch & Hscore & Hrender & Hres).
  { vm_compute. reflexivity. }
  { vm_compute. reflexivity. }
  change ((Response 200 <$> [rising_page]) ++ [Response 500 []])
    with [Response 200 rising_page; Response 500 []] in Hfetch, Hres.
  rewrite Hrun in Hfetch. injection Hfetch as Hreqs Hmap.
  subst reqs. change (take (length feb12_requests) [rising_page]) with [rising_page] in Hscore.
  exists res, lines. split; [done|]. split; [done|]. split; [done|].
  assert (Hdetails : ∃ res', analyze_new.score
            (active_of (analyze_new.group_signals_by_window two_window_rows))
            (store_pages analyze_new.store ∅ [rising_page])
            (sorted_keys (active_of (analyze_new.group_signals_by_window two_window_rows)))
            = Ok res' ∧ length (analyze_new.details res') = 1%nat).
  { eexists. split; [vm_compute; reflexivity|reflexivity]. }
  destruct Hdetails as (res' & Hres' & Hlen).
  rewrite Hscore in Hres'. by injection Hres' as <-.
Defined.
(** * Further properties of the scripts *)

(** ** Token tests *)

Lemma append_cons (c : Ascii.ascii) (a rest : string) :
  String.append (String c a) rest = String c (String.append a rest).
Proof. reflexivity. Qed.

Lemma append_empty (rest : string) : String.append "" rest = rest.
Proof. reflexivity. Qed.

Lemma prefix_append (a b : string) :
  String.prefix a b = true ↔ ∃ rest, b = String.append a rest.
Proof.
  revert b. induction a as [|c a IH]; intros b.
  - destruct b; simpl; (split; [intros _; eexists; by rewrite append_empty|done]).
  - destruct b as [|c' b]; simpl.
    + split; [done|]. intros [rest Hr]. by rewrite append_cons in Hr.
    + destruct (Ascii.ascii_dec c c') as [->|Hne].
      * rewrite IH. split; intros [rest Hr]; exists rest.
        -- by rewrite append_cons, Hr.
        -- rewrite append_cons in Hr. by injection Hr.
      * split; [done|]. intros [rest Hr]. rewrite append_cons in Hr.
        injection Hr as Hc _. by symmetry in Hc.
Qed.

(** X1. The token test used by the recommendation filter, by the vote
    and by the bucket categorisation ([token in text]) holds exactly when
    the token occurs in the text as a contiguous, case-sensitive
    substring; in particular the empty token occurs in every text. *)
Theorem str_in_is_substring (needle hay : string) :
  (str_in needle hay = true ↔ occurs_in needle hay) ∧ str_in "" hay = true.
Proof.
  split; [|by destruct hay].
  unfold occurs_in. induction hay as [|c hay IH]; cbn [str_in].
  - rewrite orb_false_r, prefix_append. split.
    + intros [rest Hr]. exists "", rest. by rewrite append_empty.
    + intros ([|c' before] & after & Heq).
      * rewrite append_empty in Heq. by exists after.
      * by rewrite append_cons in Heq.
  - rewrite orb_true_iff, IH, prefix_append. split.
    + intros [[rest Hr]|(before & after & Hr)].
      * exists "", rest. by rewrite append_empty.
      * exists (String c before), after. by rewrite append_cons, Hr.
    + intros ([|c' before] & after & Heq).
      * left. rewrite append_empty in Heq. by exists after.
      * right. rewrite append_cons in Heq. injection Heq as _ Heq.
        by exists before, after.
Qed.

(** ** Grouping *)

(** X2. Every key of the mapping built by [group_signals_by_window] (in
    any of the scripts) is a multiple of 900000 ms, the open time of a
    15-minute Binance candle, and is the window start of some row of the
    input whose recommendation contains "STRONG" or "GOOD"; the row's
    instant lies in that window. *)
Theorem group_keys_are_aligned_windows (mk : row -> signal_rec) (df : list row) (ws : Z) :
  ws ∈ dom (group_rows mk df) →
  ws mod 900000 = 0 ∧
  ∃ r, r ∈ df ∧ actionable r = true ∧ get_window_start (row_timestamp r) = ws ∧
       ws ≤ row_timestamp r < ws + 900000.
Proof.
  rewrite elem_of_dom, group_rows_lookup. intros Hsome.
  destruct (List.filter actionable (rows_of_window ws df)) as [|r kept] eqn:Hkept.
  { by apply is_Some_None in Hsome. }
  assert (Hr : In r (List.filter actionable (rows_of_window ws df))).
  { rewrite Hkept. by left. }
  apply filter_In in Hr as [Hr Hact]. unfold rows_of_window in Hr.
  apply filter_In in Hr as [Hr Hws]. apply bool_decide_eq_true in Hws.
  assert (Hbounds : ws ≤ row_timestamp r < ws + 900000 ∧ ws mod 900000 = 0).
  { subst ws. unfold get_window_start, window_size.
    change (15 * 60 * 1000) with 900000.
    pose proof (Z.mod_pos_bound (row_timestamp r) 900000 ltac:(lia)).
    pose proof (Z.div_mod (row_timestamp r) 900000 ltac:(lia)).
    split; [lia|].
    replace (row_timestamp r - row_timestamp r mod 900000)
      with (row_timestamp r / 900000 * 900000) by lia.
    by apply Z.mod_mul. }
  split; [apply Hbounds|].
  exists r. split; [by apply list_elem_of_In|]. split; [done|]. split; [done|].
  apply Hbounds.
Qed.

Lemma group_keys_are_aligned_windows_witness :
  900000 mod 900000 = 0 ∧
  ∃ r, r ∈ three_rows ∧ actionable r = true ∧
       get_window_start (row_timestamp r) = 900000 ∧
       900000 ≤ row_timestamp r < 900000 + 900000.
Proof.
  apply (group_keys_are_aligned_windows full_signal_of_row three_rows 900000).
  apply elem_of_dom. vm_compute. by eexists.
Defined.

(** ** Sorted window starts and the requested range *)

Lemma strictly_sorted_of_NoDup (l : list Z) :
  StronglySorted Z.le l → NoDup l → StronglySorted Z.lt l.
Proof.
  induction 1 as [|x l Hs IH Hall]; intros Hnd; [constructor|].
  apply NoDup_cons in Hnd as [Hx Hnd]. constructor; [by apply IH|].
  rewrite Forall_forall in Hall |- *. intros y Hy.
  specialize (Hall y Hy). assert (x ≠ y) by (by intros ->). lia.
Qed.

Lemma sorted_keys_strictly {A} (d : gmap Z A) : StronglySorted Z.lt (sorted_keys d).
Proof.
  apply strictly_sorted_of_NoDup.
  - apply StronglySorted_merge_sort.
    + intros x y z. apply Z.le_trans.
    + intros x y. destruct (Z.le_gt_cases x y); [by left|right; lia].
  - unfold sorted_keys. rewrite merge_sort_Permutation. apply NoDup_elements.
Qed.

Lemma fetch_range_bounds {A} (d : gmap Z A) (first last_end : Z) :
  fetch_range (sorted_keys d) = Ok (first, last_end) →
  first ∈ dom d ∧ last_end - 900000 ∈ dom d ∧
  ∀ ws, ws ∈ dom d → first ≤ ws < last_end.
Proof.
  unfold fetch_range. pose proof (sorted_keys_strictly d) as Hsorted.
  destruct (head (sorted_keys d)) as [h|] eqn:Hh; [|done].
  destruct (last (sorted_keys d)) as [m|] eqn:Hm; [|done].
  intros [= <- <-].
  assert (Hin : ∀ ws, ws ∈ dom d ↔ ws ∈ sorted_keys d).
  { intros ws. by rewrite elem_of_sorted_keys, elem_of_dom. }
  split; [by apply Hin, head_Some_elem_of|].
  split.
  { apply Hin. replace (m + 15 * 60 * 1000 - 900000) with m by lia.
    by apply last_Some_elem_of. }
  intros ws Hws%Hin.
  apply head_Some in Hh as [tl Htl]. apply last_Some in Hm as [front Hfront].
  split.
  - rewrite Htl in Hsorted, Hws. apply StronglySorted_inv in Hsorted as [_ Hall].
    apply elem_of_cons in Hws as [->|Hws]; [lia|].
    rewrite Forall_forall in Hall. specialize (Hall ws Hws). lia.
  - rewrite Hfront in Hsorted, Hws.
    apply elem_of_app in Hws as [Hws|Hws%list_elem_of_singleton]; [|lia].
    pose proof (StronglySorted_app_1_elem_of _ _ _ ws m Hsorted Hws) as Hlt.
    specialize (Hlt ltac:(by left)). lia.
Qed.

(** X3. The range [main] asks the outcome source for covers every active
    window: it starts at the smallest active window start and ends one
    window after the largest, both of which are active windows. *)
Theorem fetch_range_covers_active_windows {A} (d : gmap Z A) (first last_end : Z) :
  fetch_range (sorted_keys d) = Ok (first, last_end) →
  first ∈ dom d ∧ last_end - 900000 ∈ dom d ∧
  ∀ ws, ws ∈ dom d → first ≤ ws < last_end.
Proof. apply fetch_range_bounds. Qed.

Lemma fetch_range_covers_active_windows_witness :
  0 ∈ dom three_rows_active ∧ 1800000 - 900000 ∈ dom three_rows_active ∧
  ∀ ws, ws ∈ dom three_rows_active → 0 ≤ ws < 1800000.
Proof.
  apply (fetch_range_covers_active_windows three_rows_active 0 1800000).
  vm_compute. reflexivity.
Defined.

(** ** Order of the signals *)

Lemma count_signals_Permutation (p : string -> bool) (l k : list signal_rec) :
  l ≡ₚ k → count_signals p l = count_signals p k.
Proof.
  unfold count_signals. induction 1 as [|x l k _ IH|x y l|l k m _ IH1 _ IH2]; simpl.
  - done.
  - destruct (p (s_signal x)); simpl; lia.
  - destruct (p (s_signal x)), (p (s_signal y)); simpl; lia.
  - lia.
Qed.

(** X4. The vote of a window does not depend on the order of its
    records: both resolvers return the same vote on any two orderings of
    the same records. *)
Theorem determine_vote_ignores_order (signals signals' : list signal_rec) :
  signals ≡ₚ signals' →
  verify_accuracy.determine_vote signals = verify_accuracy.determine_vote signals' ∧
  analyze_new.determine_vote signals = analyze_new.determine_vote signals' ∧
  analyze_48h.determine_vote signals = analyze_48h.determine_vote signals'.
Proof.
  intros Hperm.
  unfold verify_accuracy.determine_vote, analyze_new.determine_vote,
    analyze_48h.determine_vote.
  rewrite !count_step_from, !count_with_filter.
  by rewrite !(count_signals_Permutation _ _ _ Hperm).
Qed.

Lemma determine_vote_ignores_order_witness :
  verify_accuracy.determine_vote sample_signals
    = verify_accuracy.determine_vote sample_signals_shuffled ∧
  analyze_new.determine_vote sample_signals
    = analyze_new.determine_vote sample_signals_shuffled ∧
  analyze_48h.determine_vote sample_signals
    = analyze_48h.determine_vote sample_signals_shuffled.
Proof.
  apply determine_vote_ignores_order.
  exact (Permutation_app_comm
           [sig_of "BUY UP" "STRONG_EARLY" None; sig_of "BUY DOWN" "GOOD_MID" None]
           [sig_of "BUY UP" "NO_TRADE" None]).
Defined.

(** ** The detail log *)

Section ScoringLog.
Context {S : Type}.
Variable body : S -> Z -> result S.
Variable log : S -> list detail.
Variable counts : Z -> bool.
Variable P : detail -> Prop.
Hypothesis body_log : ∀ st w st',
  body st w = Ok st' →
  if counts w then ∃ e, log st' = log st ++ [e] ∧ d_time e = w ∧ P e
  else log st' = log st.

Lemma for_each_log (ws : list Z) (st st' : S) :
  for_each body ws st = Ok st' →
  d_time <$> log st' = (d_time <$> log st) ++ List.filter counts ws ∧
  (Forall P (log st) → Forall P (log st')).
Proof.
  revert st. induction ws as [|w ws IH]; intros st; simpl.
  - intros [= <-]. by rewrite app_nil_r.
  - destruct (body st w) as [st1|] eqn:Hw; [|done].
    intros Hrest. apply IH in Hrest as [Htimes Hall].
    apply body_log in Hw. rewrite Htimes.
    destruct (counts w).
    + destruct Hw as (e & Hlog & Hw & He). rewrite Hlog in Hall |- *. split.
      * rewrite fmap_app, <- app_assoc. simpl. by rewrite Hw.
      * intros Hst. apply Hall, Forall_app. split; [done|]. by constructor.
    + by rewrite Hw in *.
Qed.
End ScoringLog.

Lemma strictly_sorted_filter (f : Z -> bool) (l : list Z) :
  StronglySorted Z.lt l → StronglySorted Z.lt (List.filter f l).
Proof.
  induction 1 as [|x l Hs IH Hall]; simpl; [constructor|].
  destruct (f x); [|done]. constructor; [done|].
  rewrite Forall_forall in Hall |- *. intros y Hy.
  apply list_elem_of_In, filter_In in Hy as [Hy _]. by apply Hall, list_elem_of_In.
Qed.

Lemma verify_score_window_log (active_windows : gmap Z (list signal_rec))
    (klines : gmap Z kline) (st st' : verify_accuracy.tally) (w : Z) :
  verify_accuracy.score_window active_windows klines st w = Ok st' →
  if scorable active_windows klines w then
    ∃ e, verify_accuracy.results_detail st' = verify_accuracy.results_detail st ++ [e] ∧
         d_time e = w ∧
         reports_window verify_accuracy.determine_vote active_windows klines e
  else verify_accuracy.results_detail st' = verify_accuracy.results_detail st.
Proof.
  unfold verify_accuracy.score_window, scorable.
  destruct (klines !! w) as [kline|] eqn:Hk; [|by intros [= <-]].
  destruct (active_windows !! w) as [signals|] eqn:Ha; [|done].
  case_decide as Hv.
  - intros [= <-]. by rewrite bool_decide_eq_false_2 by auto.
  - intros [= <-]. rewrite bool_decide_eq_true_2 by done. simpl.
    eexists. split; [done|]. split; [done|].
    exists kline, signals. simpl. by rewrite Hk, Ha.
Qed.

(** X6. In verify_accuracy.py the detail log, which the streak scan
    reads, holds exactly one entry per window that has both a known
    outcome and a non-NEUTRAL vote, in strictly ascending order of window
    start; each entry carries the vote of its window's records, the
    result of its window's candle, and a correct flag that is true
    exactly when the two are equal. *)
Theorem verify_detail_log_is_chronological (active_windows : gmap Z (list signal_rec))
    (klines : gmap Z kline) (st : verify_accuracy.tally) :
  verify_accuracy.score active_windows klines (sorted_keys active_windows) = Ok st →
  d_time <$> verify_accuracy.results_detail st
    = List.filter (scorable active_windows klines) (sorted_keys active_windows) ∧
  StronglySorted Z.lt (d_time <$> verify_accuracy.results_detail st) ∧
  Forall (reports_window verify_accuracy.determine_vote active_windows klines)
         (verify_accuracy.results_detail st).
Proof.
  intros Hscore. unfold verify_accuracy.score in Hscore.
  apply (for_each_log _ verify_accuracy.results_detail
           (scorable active_windows klines)
           (reports_window verify_accuracy.determine_vote active_windows klines))
    in Hscore as [Htimes Hall].
  2:{ intros st0 w st1. apply verify_score_window_log. }
  simpl in Htimes. split; [done|]. split.
  - rewrite Htimes. apply strictly_sorted_filter, sorted_keys_strictly.
  - by apply Hall.
Qed.

Lemma verify_detail_log_is_chronological_witness :
  d_time <$> verify_accuracy.results_detail three_rows_tally
    = List.filter (scorable three_rows_active two_klines) (sorted_keys three_rows_active) ∧
  StronglySorted Z.lt (d_time <$> verify_accuracy.results_detail three_rows_tally) ∧
  Forall (reports_window verify_accuracy.determine_vote three_rows_active two_klines)
         (verify_accuracy.results_detail three_rows_tally).
Proof.
  apply (verify_detail_log_is_chronological three_rows_active two_klines three_rows_tally).
  vm_compute. reflexivity.
Defined.

(** X5. In verify_accuracy.py the number of verified intervals is the
    number of active windows that have both a known outcome and a
    non-NEUTRAL vote; each of them counts once, as correct or as wrong,
    and has one entry in the detail log. *)
Theorem verify_total_counts_scorable_windows (active_windows : gmap Z (list signal_rec))
    (klines : gmap Z kline) (sorted_windows : list Z) (st : verify_accuracy.tally) :
  verify_accuracy.score active_windows klines sorted_windows = Ok st →
  verify_accuracy.t_total st
    = Z.of_nat (length (List.filter (scorable active_windows klines) sorted_windows)) ∧
  verify_accuracy.t_correct st + verify_accuracy.t_wrong st = verify_accuracy.t_total st ∧
  Z.of_nat (length (verify_accuracy.results_detail st)) = verify_accuracy.t_total st.
Proof. apply verify_score_total. Qed.

Lemma verify_total_counts_scorable_windows_witness :
  verify_accuracy.t_total three_rows_tally
    = Z.of_nat (length (List.filter (scorable three_rows_active two_klines)
                          (sorted_keys three_rows_active))) ∧
  verify_accuracy.t_correct three_rows_tally + verify_accuracy.t_wrong three_rows_tally
    = verify_accuracy.t_total three_rows_tally ∧
  Z.of_nat (length (verify_accuracy.results_detail three_rows_tally))
    = verify_accuracy.t_total three_rows_tally.
Proof.
  apply (verify_total_counts_scorable_windows three_rows_active two_klines
           (sorted_keys three_rows_active) three_rows_tally).
  vm_compute. reflexivity.
Defined.

(** ** More on the outcome fetchers *)

Section FetchRequests.
Variable store : gmap Z kline -> candle -> gmap Z kline.

Lemma fetch_loop_requests (script : list response) (acc : gmap Z kline)
    (cur end_time : Z) (reqs : list request) (r : result (gmap Z kline)) :
  fetch_loop store script acc cur end_time = Some (reqs, r) →
  Forall (request_in_range end_time) reqs ∧
  (length reqs ≤ length script)%nat ∧
  (∀ q, head reqs = Some q → startTime q = cur).
Proof.
  revert acc cur reqs.
  induction script as [|resp script IH]; intros acc cur reqs; simpl.
  - case_decide; [done|]. intros [= <- <-]. by repeat split.
  - case_decide as Hlt; [|intros [= <- <-]; repeat split; [done|simpl; lia|done]].
    assert (Hone : Forall (request_in_range end_time)
                     [{| startTime := cur;
                         endTime := Z.min (cur + 1000 * 15 * 60 * 1000) end_time |}] ∧
                   (1 ≤ S (length script))%nat ∧
                   (∀ q, head [{| startTime := cur;
                                  endTime := Z.min (cur + 1000 * 15 * 60 * 1000) end_time |}]
                         = Some q → startTime q = cur)).
    { split; [|split; [lia|by intros q [= <-]]].
      repeat constructor; simpl; lia. }
    destruct resp as [|status data]; [by intros [= <- <-]|].
    case_decide; [by intros [= <- <-]|].
    destruct data as [|k data]; [by intros [= <- <-]|].
    destruct (max_key _) as [m|]; [|by intros [= <- <-]].
    destruct (fetch_loop store script _ _ end_time) as [[reqs' r']|] eqn:Hrec; [|done].
    intros [= <- <-]. apply IH in Hrec as (Hall & Hlen & _).
    split; [|split; [simpl; lia|by intros q [= <-]]].
    constructor; [|done]. destruct Hone as [Hone _]. by apply Forall_inv in Hone.
Qed.
End FetchRequests.

(** X7. Every request the paginating fetcher issues stays inside the
    requested range and asks for at most 1000 windows (the page limit):
    its start is below its end, its end is at most the requested end and
    at most 900000000 ms after its start. The first request starts at
    the requested start, and no more requests are issued than responses
    were received. This holds whether the fetch returns or raises. *)
Theorem requests_stay_in_range (store : gmap Z kline -> candle -> gmap Z kline)
    (script : list response) (start_time end_time : Z) (reqs : list request)
    (r : result (gmap Z kline)) :
  paginated_fetch store script start_time end_time = Some (reqs, r) →
  Forall (request_in_range end_time) reqs ∧
  (length reqs ≤ length script)%nat ∧
  (∀ q, head reqs = Some q → startTime q = start_time).
Proof. apply fetch_loop_requests. Qed.

Lemma requests_stay_in_range_witness :
  Forall (request_in_range 1800000) two_requests ∧
  (length two_requests ≤ length (Response 200 <$> two_pages))%nat ∧
  (∀ q, head two_requests = Some q → startTime q = 0).
Proof.
  apply (requests_stay_in_range analyze_new.store (Response 200 <$> two_pages) 0 1800000
           two_requests (Ok (store_pages analyze_new.store ∅ two_pages))).
  vm_compute. reflexivity.
Defined.

Lemma store_page_lookup (store : gmap Z kline -> candle -> gmap Z kline)
    (cs : list candle) (m : gmap Z kline) (t : Z) :
  (∀ m c, store m c = <[k0 c := kline_of c]> m) →
  store_page store m cs !! t
  = match last_candle t cs with Some c => Some (kline_of c) | None => m !! t end.
Proof. apply store_page_lookup_with. Qed.

Lemma store_pages_lookup (store : gmap Z kline -> candle -> gmap Z kline)
    (pages : list (list candle)) (m : gmap Z kline) (t : Z) :
  (∀ m c, store m c = <[k0 c := kline_of c]> m) →
  store_pages store m pages !! t
  = match last_candle t (concat pages) with
    | Some c => Some (kline_of c)
    | None => m !! t
    end.
Proof. apply store_pages_lookup_with. Qed.

(** X8. The mapping a fetch returns is keyed by the open times of the
    candles received, and is last-writer-wins: under an open time it
    holds the open, the close and the UP/DOWN result of the last candle
    with that open time among the pages stored (the one page of
    verify_accuracy.py, the consumed pages of analyze_new.py in order),
    and nothing under an open time no candle had. *)
Theorem fetched_mapping_is_last_writer_wins (script : list response)
    (start_time end_time : Z) (reqs : list request) (res : gmap Z kline) :
  (verify_accuracy.fetch_binance_klines script start_time end_time = Some (reqs, Ok res) →
   ∃ data rest, script = Response 200 data :: rest ∧
     ∀ t, res !! t = kline_of <$> last_candle t data) ∧
  (analyze_new.fetch_binance_klines script start_time end_time = Some (reqs, Ok res) →
   ∃ pages, take (length pages) script = Response 200 <$> pages ∧
     ∀ t, res !! t = kline_of <$> last_candle t (concat pages)).
Proof.
  split.
  - unfold verify_accuracy.fetch_binance_klines.
    destruct script as [|[|status data] rest]; [done|by intros [= _ ?]|].
    case_decide as Hst; intros [= _ <-].
    exists data, rest. split; [by subst status|].
    intros t. fold (store_page verify_accuracy.store ∅ data).
    rewrite (store_page_lookup verify_accuracy.store) by done.
    rewrite lookup_empty. by destruct (last_candle t data).
  - intros Hrun.
    apply (fetch_loop_paging_run analyze_new.store new_store_dom) in Hrun
      as (pages & _ & Hpre & -> & _).
    exists pages. split; [done|]. intros t.
    rewrite (store_pages_lookup analyze_new.store) by done.
    rewrite lookup_empty. by destruct (last_candle t (concat pages)).
Qed.

(** The later page wins for the window both pages of
    [overlapping_pages] hold. *)
Lemma overlapping_pages_last_wins :
  ∃ reqs res,
    analyze_new.fetch_binance_klines (Response 200 <$> overlapping_pages) 0 1800000
      = Some (reqs, Ok res) ∧
    res !! 0 = Some (kline_of (candle_at 0 100 95)) ∧
    kl_result <$> res !! 0 = Some DOWN.
Proof. eexists _, _. split; [vm_compute; reflexivity|]. split; reflexivity. Qed.

Section TransportFailure.
Variable store : gmap Z kline -> candle -> gmap Z kline.
Hypothesis store_dom : ∀ m k, dom (store m k) = {[k0 k]} ∪ dom m.

Lemma fetch_loop_transport_failure (pages : list (list candle)) (rest : list response)
    (acc : gmap Z kline) (cur end_time : Z) :
  Forall (fun data => data ≠ []) pages →
  ∃ reqs r,
    fetch_loop store ((Response 200 <$> pages) ++ ConnectionError :: rest) acc cur end_time
      = Some (reqs, r) ∧
    ((r = Raise RequestException ∧ length reqs = S (length pages)) ∨
     (r = Ok (store_pages store acc (take (length reqs) pages)) ∧
      (length reqs ≤ length pages)%nat)).
Proof.
  intros Hne. revert acc cur.
  induction Hne as [|data pages Hdata _ IH]; intros acc cur.
  - simpl. case_decide.
    + eexists _, _. split; [done|]. by left.
    + exists [], (Ok acc). split; [done|]. right. split; [done|simpl; lia].
  - cbn [fmap list_fmap app fetch_loop]. case_decide.
    2:{ exists [], (Ok acc). split; [done|]. right. split; [done|simpl; lia]. }
    case_decide; [done|].
    destruct data as [|k data]; [done|].
    destruct (store_page_max_key store store_dom k data acc) as [m Hm]. rewrite Hm.
    destruct (IH (foldl store acc (k :: data)) (m + 15 * 60 * 1000))
      as (reqs & r & Hrun & Hcases).
    rewrite Hrun.
    exists ({| startTime := cur;
               endTime := Z.min (cur + 1000 * 15 * 60 * 1000) end_time |} :: reqs), r.
    split; [done|].
    destruct Hcases as [[-> Hlen]|[-> Hlen]]; [left|right]; simpl; (split; [done|lia]).
Qed.
End TransportFailure.

(** X9. No fetcher catches a transport failure. In analyze_new.py, when
    the request after some non-empty 200-pages fails in transport, the
    fetch raises and the candles of the pages stored so far are not
    returned; the only case in which it still returns a mapping is that
    the requested end was reached before that request was issued. In
    verify_accuracy.py a transport failure of its one request raises. *)
Theorem transport_failure_is_raised (pages : list (list candle)) (rest : list response)
    (start_time end_time : Z) :
  Forall (fun data => data ≠ []) pages →
  (∃ reqs r,
     analyze_new.fetch_binance_klines
       ((Response 200 <$> pages) ++ ConnectionError :: rest) start_time end_time
       = Some (reqs, r) ∧
     ((r = Raise RequestException ∧ length reqs = S (length pages)) ∨
      (r = Ok (store_pages analyze_new.store ∅ (take (length reqs) pages)) ∧
       (length reqs ≤ length pages)%nat))) ∧
  verify_accuracy.fetch_binance_klines (ConnectionError :: rest) start_time end_time
    = Some ([{| startTime := start_time; endTime := end_time |}], Raise RequestException).
Proof.
  intros Hne. split; [|done].
  apply fetch_loop_transport_failure; [apply new_store_dom|done].
Qed.

Lemma transport_failure_is_raised_witness :
  (∃ reqs r,
     analyze_new.fetch_binance_klines
       ((Response 200 <$> two_pages) ++ [ConnectionError]) 0 2700000
       = Some (reqs, r) ∧
     ((r = Raise RequestException ∧ length reqs = S (length two_pages)) ∨
      (r = Ok (store_pages analyze_new.store ∅ (take (length reqs) two_pages)) ∧
       (length reqs ≤ length two_pages)%nat))) ∧
  verify_accuracy.fetch_binance_klines [ConnectionError] 0 2700000
    = Some ([{| startTime := 0; endTime := 2700000 |}], Raise RequestException).
Proof.
  apply (transport_failure_is_raised two_pages [] 0 2700000).
  repeat constructor; discriminate.
Defined.

(** ** Whole runs *)

Lemma group_rows_empty (mk : row -> signal_rec) (df : list row) :
  Forall (fun r => actionable r = false) df → group_rows mk df = ∅.
Proof.
  intros Hall. apply map_eq. intros ws. rewrite group_rows_lookup, lookup_empty.
  destruct (List.filter actionable (rows_of_window ws df)) as [|r kept] eqn:Hkept; [done|].
  assert (Hr : In r (List.filter actionable (rows_of_window ws df))).
  { rewrite Hkept. by left. }
  apply filter_In in Hr as [Hr Hact]. unfold rows_of_window in Hr.
  apply filter_In in Hr as [Hr _]. apply list_elem_of_In in Hr.
  rewrite Forall_forall in Hall. rewrite (Hall r Hr) in Hact. done.
Qed.

Lemma group_rows_nonempty (mk : row -> signal_rec) (df : list row) :
  some_actionable df → size (active_of (group_rows mk df)) ≠ 0%nat.
Proof.
  intros Hex. rewrite active_of_group_rows.
  apply Exists_exists in Hex as (r & Hr & Hact).
  intros Hsize. apply map_size_empty_iff in Hsize.
  assert (Hlook : group_rows mk df !! get_window_start (row_timestamp r) = None).
  { by rewrite Hsize, lookup_empty. }
  rewrite group_rows_lookup in Hlook.
  assert (Hin : In r (List.filter actionable
                        (rows_of_window (get_window_start (row_timestamp r)) df))).
  { apply filter_In. split; [|done]. unfold rows_of_window. apply filter_In.
    split; [by apply list_elem_of_In|]. by apply bool_decide_eq_true. }
  by destruct (List.filter actionable _).
Qed.

Lemma actionable_cases (df : list row) :
  Forall (fun r => actionable r = false) df ∨ some_actionable df.
Proof.
  unfold some_actionable. induction df as [|r df [IH|IH]].
  - left. constructor.
  - destruct (actionable r) eqn:Hr; [right; by left|left; by constructor].
  - right. by right.
Qed.

Lemma not_both_actionable (df : list row) :
  Forall (fun r => actionable r = false) df → some_actionable df → False.
Proof.
  intros Hall (r & Hr & Hact)%Exists_exists.
  rewrite Forall_forall in Hall. rewrite (Hall r Hr) in Hact. done.
Qed.

(** The range asked for is never empty. *)
Lemma fetch_range_nonempty {A} (d : gmap Z A) (first last_end : Z) :
  fetch_range (sorted_keys d) = Ok (first, last_end) → first < last_end.
Proof.
  intros Hr. apply fetch_range_bounds in Hr as (Hf & _ & Hall).
  apply Hall in Hf. lia.
Qed.

Lemma paginated_fetch_no_response (store : gmap Z kline -> candle -> gmap Z kline)
    (start_time end_time : Z) :
  start_time < end_time → paginated_fetch store [] start_time end_time = None.
Proof. intros Hlt. unfold paginated_fetch. simpl. by rewrite decide_True. Qed.

(** The runs on a file without actionable row. *)
Lemma verify_main_idle (script : list response) (df : list row) :
  Forall (fun r => actionable r = false) df →
  verify_accuracy.main script df = Some (Ok (verify_accuracy.empty_tally, [])).
Proof.
  intros Hall. unfold verify_accuracy.main, verify_accuracy.group_signals_by_window.
  rewrite group_rows_empty by done. unfold active_of.
  by rewrite map_filter_empty, map_size_empty.
Qed.

Lemma a24_main_idle (cal : calendar) (script : list response) (df : list row) :
  Forall (fun r => actionable r = false) df →
  analyze_24h.main cal script df = Some (Ok None).
Proof.
  intros Hall. unfold analyze_24h.main, analyze_24h.group_signals_by_window.
  rewrite group_rows_empty by done. unfold active_of.
  by rewrite map_filter_empty, map_size_empty.
Qed.

Lemma new_main_idle (script : list response) (df df_new : list row) :
  analyze_new.filter_rows df = Ok df_new →
  Forall (fun r => actionable r = false) df_new →
  analyze_new.main script df = Some (Ok (analyze_new.empty_results, [])).
Proof.
  intros Hdf Hall. unfold analyze_new.main, analyze_new.group_signals_by_window.
  rewrite Hdf. case_decide; [done|]. cbv zeta.
  rewrite group_rows_empty by done. unfold active_of.
  by rewrite map_filter_empty, map_size_empty.
Qed.

Lemma a48_main_idle (cal : calendar) (script : list response) (df df_new : list row) :
  analyze_48h.filter_rows df = Ok df_new →
  Forall (fun r => actionable r = false) df_new →
  analyze_48h.main cal script df = Some (Ok (analyze_48h.empty_results, None)).
Proof.
  intros Hdf Hall. unfold analyze_48h.main, analyze_48h.group_signals_by_window.
  rewrite Hdf. case_decide; [done|]. cbv zeta.
  rewrite group_rows_empty by done. unfold active_of.
  by rewrite map_filter_empty, map_size_empty.
Qed.

(** The runs on a file with an actionable row, when no response comes. *)
Lemma verify_main_asks (df : list row) :
  some_actionable df → verify_accuracy.main [] df = None.
Proof.
  intros Hex. unfold verify_accuracy.main, verify_accuracy.group_signals_by_window.
  pose proof (group_rows_nonempty verify_accuracy.signal_of_row df Hex) as Hsize.
  rewrite decide_False by done. cbv zeta.
  by destruct (fetch_range_Ok _ Hsize) as (f1 & f2 & ->).
Qed.

Lemma a24_main_asks (cal : calendar) (df : list row) :
  some_actionable df → analyze_24h.main cal [] df = None.
Proof.
  intros Hex. unfold analyze_24h.main, analyze_24h.group_signals_by_window.
  pose proof (group_rows_nonempty full_signal_of_row df Hex) as Hsize.
  rewrite decide_False by done. cbv zeta.
  destruct (fetch_range_Ok _ Hsize) as (f1 & f2 & Hr). rewrite Hr.
  apply fetch_range_nonempty in Hr.
  unfold analyze_24h.fetch_binance_klines.
  by rewrite paginated_fetch_no_response.
Qed.

Lemma new_main_asks (df df_new : list row) :
  analyze_new.filter_rows df = Ok df_new →
  some_actionable df_new → analyze_new.main [] df = None.
Proof.
  intros Hdf Hex. unfold analyze_new.main, analyze_new.group_signals_by_window.
  rewrite Hdf.
  pose proof (group_rows_nonempty full_signal_of_row df_new Hex) as Hsize.
  rewrite decide_False.
  2:{ intros Hlen. apply Exists_exists in Hex as (r & Hr & _).
      destruct df_new; [by apply elem_of_nil in Hr|done]. }
  cbv zeta. rewrite decide_False by done.
  destruct (fetch_range_Ok _ Hsize) as (f1 & f2 & Hr). rewrite Hr.
  apply fetch_range_nonempty in Hr.
  unfold analyze_new.fetch_binance_klines.
  by rewrite paginated_fetch_no_response.
Qed.

Lemma a48_main_asks (cal : calendar) (df df_new : list row) :
  analyze_48h.filter_rows df = Ok df_new →
  some_actionable df_new → analyze_48h.main cal [] df = None.
Proof.
  intros Hdf Hex. unfold analyze_48h.main, analyze_48h.group_signals_by_window.
  rewrite Hdf.
  pose proof (group_rows_nonempty full_signal_of_row df_new Hex) as Hsize.
  rewrite decide_False.
  2:{ intros Hlen. apply Exists_exists in Hex as (r & Hr & _).
      destruct df_new; [by apply elem_of_nil in Hr|done]. }
  cbv zeta. rewrite decide_False by done.
  destruct (fetch_range_Ok _ Hsize) as (f1 & f2 & Hr). rewrite Hr.
  apply fetch_range_nonempty in Hr.
  unfold analyze_48h.fetch_binance_klines.
  by rewrite paginated_fetch_no_response.
Qed.

(** X10. A run in which no row that reaches the grouping has a STRONG or
    GOOD recommendation ends early, with nothing scored and without a
    single request to the outcome source, whatever the responses would
    be. The rows that reach the grouping are all the rows of the file in
    verify_accuracy.py and analyze_24h.py, and the rows dated from
    [FILTER_FROM] on in analyze_new.py and analyze_48h.py; on a file
    without rows these two scripts raise a TypeError at that date
    comparison instead. Conversely, as soon as one row that reaches the
    grouping is actionable the run asks the outcome source: without a
    response it cannot complete. *)
Theorem run_without_actionable_rows_asks_nothing (cal : calendar) (df : list row) :
  (∀ script,
     (Forall (fun r => actionable r = false) df →
      verify_accuracy.main script df = Some (Ok (verify_accuracy.empty_tally, [])) ∧
      analyze_24h.main cal script df = Some (Ok None)) ∧
     (∀ df_new, analyze_new.filter_rows df = Ok df_new →
        Forall (fun r => actionable r = false) df_new →
        analyze_new.main script df = Some (Ok (analyze_new.empty_results, []))) ∧
     (∀ df_new, analyze_48h.filter_rows df = Ok df_new →
        Forall (fun r => actionable r = false) df_new →
        analyze_48h.main cal script df = Some (Ok (analyze_48h.empty_results, None))) ∧
     analyze_new.main script [] = Some (Raise TypeError) ∧
     analyze_48h.main cal script [] = Some (Raise TypeError)) ∧
  (some_actionable df →
   verify_accuracy.main [] df = None ∧ analyze_24h.main cal [] df = None) ∧
  (∀ df_new, analyze_new.filter_rows df = Ok df_new → some_actionable df_new →
             analyze_new.main [] df = None) ∧
  (∀ df_new, analyze_48h.filter_rows df = Ok df_new → some_actionable df_new →
             analyze_48h.main cal [] df = None).
Proof.
  split; [|split; [|split]].
  - intros script. split; [|split; [|split; [|split]]].
    + intros Hall. split; [by apply verify_main_idle|by apply a24_main_idle].
    + intros df_new. apply new_main_idle.
    + intros df_new. apply a48_main_idle.
    + reflexivity.
    + reflexivity.
  - intros Hex. split; [by apply verify_main_asks|by apply a24_main_asks].
  - intros df_new. apply new_main_asks.
  - intros df_new. apply a48_main_asks.
Qed.

(** On [idle_rows] every script ends early; on [two_window_rows], dated
    2026-02-12, every script asks for a response; on [old_strong_row],
    dated 1970, analyze_new.py and analyze_48h.py end early, because the
    row is before their [FILTER_FROM], while verify_accuracy.py asks. *)
Lemma run_without_actionable_rows_asks_nothing_witness :
  (∀ script,
     verify_accuracy.main script idle_rows = Some (Ok (verify_accuracy.empty_tally, [])) ∧
     analyze_new.main script idle_rows = Some (Ok (analyze_new.empty_results, [])) ∧
     analyze_48h.main hour_calendar script idle_rows
       = Some (Ok (analyze_48h.empty_results, None)) ∧
     analyze_new.main script old_strong_row = Some (Ok (analyze_new.empty_results, [])) ∧
     analyze_48h.main hour_calendar script old_strong_row
       = Some (Ok (analyze_48h.empty_results, None))) ∧
  verify_accuracy.main [] two_window_rows = None ∧
  analyze_new.main [] two_window_rows = None ∧
  analyze_48h.main hour_calendar [] two_window_rows = None ∧
  verify_accuracy.main [] old_strong_row = None.
Proof.
  pose proof (run_without_actionable_rows_asks_nothing hour_calendar idle_rows)
    as (Hidle & _).
  pose proof (run_without_actionable_rows_asks_nothing hour_calendar old_strong_row)
    as (Hold & Hold_asks & _).
  pose proof (run_without_actionable_rows_asks_nothing hour_calendar two_window_rows)
    as (_ & Hv & Hn & Ha).
  split; [|split; [|split; [|split]]].
  - intros script.
    destruct (Hidle script) as (Hv1 & Hn1 & Ha1 & _).
    destruct (Hold script) as (_ & Hn2 & Ha2 & _).
    split; [apply Hv1; by repeat constructor|].
    split; [apply (Hn1 idle_rows); [reflexivity|by repeat constructor]|].
    split; [apply (Ha1 idle_rows); [reflexivity|by repeat constructor]|].
    split; [apply (Hn2 []); [reflexivity|constructor]|].
    apply (Ha2 []); [reflexivity|constructor].
  - apply Hv. by left.
  - apply (Hn two_window_rows); [reflexivity|by left].
  - apply (Ha two_window_rows); [reflexivity|by left].
  - apply Hold_asks. by left.
Defined.

Lemma verify_score_Ok (active_windows : gmap Z (list signal_rec)) (klines : gmap Z kline) :
  ∃ st, verify_accuracy.score active_windows klines (sorted_keys active_windows) = Ok st.
Proof.
  unfold verify_accuracy.score.
  destruct (for_each_Ok (fun _ => True)
              (verify_accuracy.score_window active_windows klines)
              (sorted_keys active_windows) verify_accuracy.empty_tally)
    as (st & Hst & _); [|done|by exists st].
  intros st w Hw _. unfold verify_accuracy.score_window.
  apply elem_of_sorted_keys in Hw as [signals Hs].
  destruct (klines !! w); [|by eexists]. rewrite Hs. cbv zeta.
  case_decide; by eexists.
Qed.

Ltac in_verify_names :=
  unfold verify_bucket_names;
  repeat (apply elem_of_cons; first [left; reflexivity | right]).

Lemma verify_categorize_Ok (is_correct : bool) (stats : gmap string bucket)
    (s : signal_rec) :
  has_buckets verify_bucket_names stats →
  ∃ stats', verify_accuracy.categorize is_correct stats s = Ok stats' ∧
            has_buckets verify_bucket_names stats'.
Proof.
  intros Hhas. unfold verify_accuracy.categorize. cbv zeta.
  assert (Hq : ∀ key, key ∈ verify_bucket_names →
            ∃ stats',
              (stats1 ← bump_bucket key is_correct stats;
               match (if str_in "EARLY" (s_rec s) then Some "EARLY"
                      else if str_in "MID" (s_rec s) then Some "MID"
                      else if str_in "LATE" (s_rec s) then Some "LATE" else None) with
               | None => Ok stats1
               | Some timing => bump_bucket timing is_correct stats1
               end) = Ok stats' ∧ has_buckets verify_bucket_names stats').
  { intros key Hkey.
    destruct (bump_bucket_has verify_bucket_names key is_correct stats Hhas Hkey)
      as (s1 & Hs1 & Hhas1).
    rewrite (bind_Ok_eq _ _ _ Hs1).
    destruct (str_in "EARLY" (s_rec s));
      [apply bump_bucket_has; [done|in_verify_names]|].
    destruct (str_in "MID" (s_rec s));
      [apply bump_bucket_has; [done|in_verify_names]|].
    destruct (str_in "LATE" (s_rec s));
      [apply bump_bucket_has; [done|in_verify_names]|].
    by exists s1. }
  destruct (str_in "STRONG" (s_rec s)); [apply Hq; in_verify_names|].
  destruct (str_in "GOOD" (s_rec s)); [apply Hq; in_verify_names|].
  by exists stats.
Qed.

Lemma verify_stats_Ok (windows : gmap Z (list signal_rec)) (klines : gmap Z kline) :
  ∃ stats, verify_accuracy.analyze_by_recommendation_type windows klines = Ok stats ∧
           has_buckets verify_bucket_names stats.
Proof.
  unfold verify_accuracy.analyze_by_recommendation_type.
  apply for_each_Ok.
  - intros stats w _ Hhas. destruct (klines !! w); [|by exists stats].
    cbv zeta. case_decide; [by exists stats|].
    apply for_each_Ok; [|done]. intros st s _ Hst. by apply verify_categorize_Ok.
  - intros k Hk. unfold verify_bucket_names in Hk.
    repeat (apply elem_of_cons in Hk as [->|Hk]; [by eexists|]).
    by apply elem_of_nil in Hk.
Qed.

Lemma verify_render_Ok (st : verify_accuracy.tally) (stats : gmap string bucket) :
  has_buckets verify_bucket_names stats →
  ∃ lines, verify_accuracy.render st stats = Ok lines.
Proof.
  intros Hhas.
  destruct (verify_accuracy.render st stats) as [lines|e] eqn:Hr; [by eexists|].
  exfalso.
  assert (e = KeyError) as -> by (by eapply verify_render_Raise).
  unfold verify_accuracy.render in Hr. case_decide as Ht; [|done].
  destruct (percent_Ok (verify_accuracy.t_correct st) (verify_accuracy.t_total st))
    as [q Hq]; [lia|].
  rewrite (bind_Ok_eq _ _ _ Hq) in Hr.
  destruct (bucket_lines_total (fun _ => []) stats ["STRONG"; "GOOD"]) as [l1 Hl1].
  { intros k Hk. apply Hhas.
    repeat (apply elem_of_cons in Hk as [->|Hk]; [in_verify_names|]).
    by apply elem_of_nil in Hk. }
  rewrite (bind_Ok_eq _ _ _ Hl1) in Hr.
  destruct (bucket_lines_total (fun _ => []) stats ["EARLY"; "MID"; "LATE"]) as [l2 Hl2].
  { intros k Hk. apply Hhas.
    repeat (apply elem_of_cons in Hk as [->|Hk]; [in_verify_names|]).
    by apply elem_of_nil in Hk. }
  rewrite (bind_Ok_eq _ _ _ Hl2) in Hr. done.
Qed.

(** X11. On a signal file whose lines carry an instant and a text
    signal, and with a 200 body that is a list of candles whose fields
    convert (the inputs that rows and responses stand for here), a run
    of verify_accuracy.py can fail in one place only, the fetch: it ends
    with an exception exactly when some row is actionable and the one
    response is a transport failure or has a status other than 200 (then
    the exception names that status). With a 200 response the run on
    such input always completes, whatever candles the page holds: no
    lookup of a window, a candle or a bucket misses and no division is
    by zero. *)
Theorem verify_run_fails_only_in_fetch (script : list response) (df : list row) :
  (∀ e, verify_accuracy.main script df = Some (Raise e) ↔
        some_actionable df ∧
        ((head script = Some ConnectionError ∧ e = RequestException) ∨
         (∃ status data, head script = Some (Response status data) ∧
                         status ≠ 200 ∧ e = Exception status))) ∧
  (∀ data rest, script = Response 200 data :: rest →
                ∃ st lines, verify_accuracy.main script df = Some (Ok (st, lines))).
Proof.
  assert (H200 : ∀ data rest, some_actionable df →
            ∃ st lines,
              verify_accuracy.main (Response 200 data :: rest) df = Some (Ok (st, lines))).
  { intros data rest Hex. unfold verify_accuracy.main.
    pose proof (group_rows_nonempty verify_accuracy.signal_of_row df Hex) as Hsize.
    unfold verify_accuracy.group_signals_by_window.
    rewrite decide_False by done.
    destruct (fetch_range_Ok _ Hsize) as (f1 & f2 & ->). simpl.
    destruct (verify_score_Ok
                (active_of (group_rows verify_accuracy.signal_of_row df))
                (foldl verify_accuracy.store ∅ data)) as [st Hst].
    rewrite Hst. simpl.
    assert (Hstats : ∃ stats,
              (if decide (verify_accuracy.t_total st > 0)
               then verify_accuracy.analyze_by_recommendation_type
                      (active_of (group_rows verify_accuracy.signal_of_row df))
                      (foldl verify_accuracy.store ∅ data)
               else Ok verify_accuracy.empty_stats) = Ok stats ∧
              has_buckets verify_bucket_names stats).
    { case_decide; [apply verify_stats_Ok|].
      exists verify_accuracy.empty_stats. split; [done|].
      intros k Hk. unfold verify_bucket_names in Hk.
      repeat (apply elem_of_cons in Hk as [->|Hk]; [by eexists|]).
      by apply elem_of_nil in Hk. }
    destruct Hstats as (stats & -> & Hhas). simpl.
    destruct (verify_render_Ok st stats Hhas) as [lines ->]. simpl. by eexists _, _. }
  split.
  - intros e. destruct (actionable_cases df) as [Hnone|Hex].
    { split.
      - unfold verify_accuracy.main, verify_accuracy.group_signals_by_window.
        rewrite group_rows_empty by done. unfold active_of.
        by rewrite map_filter_empty, map_size_empty.
      - intros [Hex _]. by destruct (not_both_actionable df). }
    destruct script as [|[|status data] rest].
    + split; [|intros (_ & [[? _]|(? & ? & ? & _)]); done].
      unfold verify_accuracy.main, verify_accuracy.group_signals_by_window.
      pose proof (group_rows_nonempty verify_accuracy.signal_of_row df Hex) as Hsize.
      rewrite decide_False by done.
      by destruct (fetch_range_Ok _ Hsize) as (f1 & f2 & ->).
    + unfold verify_accuracy.main, verify_accuracy.group_signals_by_window.
      pose proof (group_rows_nonempty verify_accuracy.signal_of_row df Hex) as Hsize.
      rewrite decide_False by done.
      destruct (fetch_range_Ok _ Hsize) as (f1 & f2 & ->). simpl. split.
      * intros [= <-]. split; [done|]. by left.
      * intros (_ & [[_ ->]|(? & ? & [=] & _)]). done.
    + destruct (decide (status = 200)) as [->|Hst].
      * destruct (H200 data rest Hex) as (st & lines & ->). split; [done|].
        intros (_ & [[[=] _]|(? & ? & [= <- _] & ? & _)]). done.
      * unfold verify_accuracy.main, verify_accuracy.group_signals_by_window.
        pose proof (group_rows_nonempty verify_accuracy.signal_of_row df Hex) as Hsize.
        rewrite decide_False by done.
        destruct (fetch_range_Ok _ Hsize) as (f1 & f2 & ->). simpl.
        rewrite decide_True by done. simpl. split.
        -- intros [= <-]. split; [done|]. right. by exists status, data.
        -- intros (_ & [[[=] _]|(? & ? & [= <- _] & _ & ->)]). done.
  - intros data rest ->. destruct (actionable_cases df) as [Hnone|Hex]; [|by apply H200].
    unfold verify_accuracy.main, verify_accuracy.group_signals_by_window.
    rewrite group_rows_empty by done. unfold active_of.
    rewrite map_filter_empty, map_size_empty. simpl. by eexists _, _.
Qed.

(** ** The verification loop of analyze_new.py *)

Lemma for_each_invariant {S A} (I : S -> Prop) (body : S -> A -> result S)
    (xs : list A) (st st' : S) :
  (∀ st x st', x ∈ xs → body st x = Ok st' → I st → I st') →
  I st → for_each body xs st = Ok st' → I st'.
Proof.
  revert st. induction xs as [|x xs IH]; intros st Hbody Hst; simpl.
  - by intros [= <-].
  - destruct (body st x) as [st1|] eqn:Hx; [|done].
    apply IH.
    + intros st2 y st3 Hy. apply Hbody. by right.
    + eapply Hbody; [by left|done..].
Qed.

Lemma bump_bucket_other (key k : string) (is_correct : bool)
    (stats stats' : gmap string bucket) :
  bump_bucket key is_correct stats = Ok stats' → k ≠ key → stats' !! k = stats !! k.
Proof.
  unfold bump_bucket. intros (b & _ & [= <-])%bind_Ok Hne.
  by rewrite lookup_insert_ne.
Qed.

Lemma bump_bucket_same (key : string) (is_correct : bool)
    (stats stats' : gmap string bucket) :
  bump_bucket key is_correct stats = Ok stats' →
  ∃ b, stats !! key = Some b ∧ stats' !! key = Some (bump is_correct b).
Proof.
  unfold bump_bucket. intros (b & Hb%get_bucket_Ok & [= <-])%bind_Ok.
  exists b. by rewrite lookup_insert_eq.
Qed.

(** The per-record loop of analyze_new.py leaves the direction buckets
    alone. *)
Lemma new_score_signal_directions (is_correct : bool) (named named' : gmap string bucket)
    (s : signal_rec) (k : string) :
  analyze_new.score_signal is_correct named s = Ok named' →
  k ∈ ["UP_vote"; "DOWN_vote"] →
  named' !! k = named !! k.
Proof.
  intros Hs Hk. unfold analyze_new.score_signal in Hs. cbv zeta in Hs.
  assert (Hne : ∀ key, key ∈ ["STRONG"; "GOOD"; "EARLY"; "MID"; "LATE";
                               "TREND_UP"; "TREND_DOWN"] → k ≠ key).
  { intros key Hkey ->.
    repeat (apply elem_of_cons in Hk as [->|Hk];
            [repeat (apply elem_of_cons in Hkey as [[=]|Hkey]);
             by apply elem_of_nil in Hkey|]).
    by apply elem_of_nil in Hk. }
  apply bind_Ok in Hs as (n1 & H1 & Hs).
  apply bind_Ok in Hs as (n2 & H2 & Hs).
  assert (E1 : n1 !! k = named !! k).
  { destruct (str_in "STRONG" (s_rec s)).
    - eapply bump_bucket_other; [done|]. apply Hne. by left.
    - destruct (str_in "GOOD" (s_rec s)); [|by injection H1 as <-].
      eapply bump_bucket_other; [done|]. apply Hne. right. by left. }
  assert (E2 : n2 !! k = n1 !! k).
  { revert H2.
    apply (for_each_invariant (fun st => st !! k = n1 !! k)); [|done].
    intros st timing st' Ht Hb Hst.
    destruct (str_in timing (s_rec s)); [|by injection Hb as <-].
    rewrite <- Hst. eapply bump_bucket_other; [done|]. apply Hne.
    in_sublist Ht. }
  rewrite <- E1, <- E2.
  case_bool_decide as Hreg; [|by injection Hs as <-].
  eapply bump_bucket_other; [done|]. apply Hne.
  in_sublist Hreg.
Qed.

Lemma count_correct_snoc (is_correct : bool) (log : list detail) (e : detail) :
  count_correct is_correct (log ++ [e])
  = count_correct is_correct log + (if eqb (d_correct e) is_correct then 1 else 0).
Proof.
  unfold count_correct. rewrite List.filter_app, length_app. simpl.
  destruct (eqb (d_correct e) is_correct); simpl; lia.
Qed.

Lemma new_score_window_step (active_windows : gmap Z (list signal_rec))
    (klines : gmap Z kline) (res res' : analyze_new.results) (w : Z) :
  analyze_new.score_window active_windows klines res w = Ok res' →
  if scorable_by analyze_new.determine_vote active_windows klines w then
    ∃ e, analyze_new.details res' = analyze_new.details res ++ [e] ∧ d_time e = w ∧
         reports_window analyze_new.determine_vote active_windows klines e ∧
         analyze_new.total res' = bump (d_correct e) (analyze_new.total res) ∧
         direction_bucket (analyze_new.named res')
           = bump (d_correct e) (direction_bucket (analyze_new.named res))
  else res' = res.
Proof.
  unfold analyze_new.score_window, scorable_by.
  destruct (klines !! w) as [kline|] eqn:Hk; [|by intros [= <-]].
  destruct (active_windows !! w) as [signals|] eqn:Ha; [|done].
  cbv zeta. case_decide as Hv.
  { intros [= <-]. by rewrite bool_decide_eq_false_2 by auto. }
  rewrite (bool_decide_eq_true_2 _ Hv).
  intros (n1 & H1 & H)%bind_Ok. apply bind_Ok in H as (n2 & H2 & [= <-]). simpl.
  eexists. split; [done|]. split; [done|]. split.
  { exists kline, signals. simpl. by rewrite Hk, Ha. }
  split; [done|]. simpl.
  assert (Hkeep : ∀ k, k ∈ ["UP_vote"; "DOWN_vote"] → n2 !! k = n1 !! k).
  { intros k Hk'. revert H2.
    apply (for_each_invariant (fun st => st !! k = n1 !! k)); [|done].
    intros st s st' _ Hs Hst. rewrite <- Hst.
    by eapply new_score_signal_directions. }
  unfold direction_bucket.
  rewrite (Hkeep "UP_vote") by (by left).
  rewrite (Hkeep "DOWN_vote") by (right; by left).
  destruct (analyze_new.determine_vote signals); [| |done];
    cbv [label_str String.append] in H1.
  - apply bump_bucket_same in H1 as Hsame. destruct Hsame as (b & Hb & Hb').
    rewrite (bump_bucket_other _ "DOWN_vote" _ _ _ H1) by done.
    rewrite Hb, Hb'. unfold bump. destruct (bool_decide _); simpl; f_equal; lia.
  - apply bump_bucket_same in H1 as Hsame. destruct Hsame as (b & Hb & Hb').
    rewrite (bump_bucket_other _ "UP_vote" _ _ _ H1) by done.
    rewrite Hb, Hb'. unfold bump. destruct (bool_decide _); simpl; f_equal; lia.
Qed.

(** X12. In analyze_new.py the detail log holds one entry per window
    with a known outcome and a non-NEUTRAL vote, in the order of the
    window list, each reporting its window's vote and result; the global
    counters count the correct and the wrong entries of that log, so
    their sum is the number of such windows; and the UP_vote and
    DOWN_vote buckets together always equal the global counters. *)
Theorem new_totals_match_log_and_directions (active_windows : gmap Z (list signal_rec))
    (klines : gmap Z kline) (sorted_windows : list Z) (res : analyze_new.results) :
  analyze_new.score active_windows klines sorted_windows = Ok res →
  d_time <$> analyze_new.details res
    = List.filter (scorable_by analyze_new.determine_vote active_windows klines)
                  sorted_windows ∧
  Forall (reports_window analyze_new.determine_vote active_windows klines)
         (analyze_new.details res) ∧
  correct (analyze_new.total res) = count_correct true (analyze_new.details res) ∧
  wrong (analyze_new.total res) = count_correct false (analyze_new.details res) ∧
  bucket_total (analyze_new.total res)
    = Z.of_nat (length (List.filter
                          (scorable_by analyze_new.determine_vote active_windows klines)
                          sorted_windows)) ∧
  direction_bucket (analyze_new.named res) = analyze_new.total res.
Proof.
  intros Hscore. unfold analyze_new.score in Hscore.
  pose proof Hscore as Hlog.
  apply (for_each_log _ analyze_new.details
           (scorable_by analyze_new.determine_vote active_windows klines)
           (reports_window analyze_new.determine_vote active_windows klines))
    in Hlog as [Htimes Hall].
  2:{ intros st w st' Hw. apply new_score_window_step in Hw.
      destruct (scorable_by _ _ _ w); [|by subst].
      destruct Hw as (e & ? & ? & ? & _). by exists e. }
  simpl in Htimes.
  assert (Hinv : correct (analyze_new.total res) = count_correct true (analyze_new.details res) ∧
                 wrong (analyze_new.total res) = count_correct false (analyze_new.details res) ∧
                 direction_bucket (analyze_new.named res) = analyze_new.total res).
  { revert Hscore.
    apply (for_each_invariant
             (fun r => correct (analyze_new.total r) = count_correct true (analyze_new.details r) ∧
                       wrong (analyze_new.total r) = count_correct false (analyze_new.details r) ∧
                       direction_bucket (analyze_new.named r) = analyze_new.total r));
      [|by vm_compute].
    intros st w st' _ Hw (Hc & Hwr & Hd). apply new_score_window_step in Hw.
    destruct (scorable_by _ _ _ w); [|by subst].
    destruct Hw as (e & -> & _ & _ & -> & ->).
    rewrite !count_correct_snoc, Hd. unfold bump.
    destruct (d_correct e); simpl; repeat split; lia. }
  destruct Hinv as (Hc & Hw & Hd).
  split; [done|]. split; [by apply Hall|]. split; [done|]. split; [done|].
  split; [|done].
  rewrite <- Htimes, length_fmap. unfold bucket_total. rewrite Hc, Hw.
  unfold count_correct.
  assert (Hsplit : ∀ l : list detail,
            (length (List.filter (fun r => eqb (d_correct r) true) l)
             + length (List.filter (fun r => eqb (d_correct r) false) l))%nat = length l).
  { induction l as [|r l IH]; [done|]. simpl. destruct (d_correct r); simpl; lia. }
  specialize (Hsplit (analyze_new.details res)). lia.
Qed.

Lemma new_totals_match_log_and_directions_witness :
  d_time <$> analyze_new.details three_rows_results
    = List.filter (scorable_by analyze_new.determine_vote three_rows_active two_klines)
                  (sorted_keys three_rows_active) ∧
  Forall (reports_window analyze_new.determine_vote three_rows_active two_klines)
         (analyze_new.details three_rows_results) ∧
  correct (analyze_new.total three_rows_results)
    = count_correct true (analyze_new.details three_rows_results) ∧
  wrong (analyze_new.total three_rows_results)
    = count_correct false (analyze_new.details three_rows_results) ∧
  bucket_total (analyze_new.total three_rows_results)
    = Z.of_nat (length (List.filter
                          (scorable_by analyze_new.determine_vote three_rows_active
                             two_klines)
                          (sorted_keys three_rows_active))) ∧
  direction_bucket (analyze_new.named three_rows_results)
    = analyze_new.total three_rows_results.
Proof.
  apply (new_totals_match_log_and_directions three_rows_active two_klines
           (sorted_keys three_rows_active) three_rows_results).
  vm_compute. reflexivity.
Defined.

(** ** The verification loop of analyze_48h.py *)

Lemma for_each_cases {S A} (I : S -> Prop) (Q : exn -> Prop) (body : S -> A -> result S)
    (xs : list A) (st : S) :
  (∀ st x, x ∈ xs → I st →
     match body st x with Ok st' => I st' | Raise e => Q e end) →
  I st →
  match for_each body xs st with Ok st' => I st' | Raise e => Q e end.
Proof.
  revert st. induction xs as [|x xs IH]; intros st Hbody Hst; simpl; [done|].
  pose proof (Hbody st x ltac:(by left) Hst) as Hx.
  destruct (body st x) as [st1|e]; [|done].
  apply IH; [|done]. intros st2 y Hy. apply Hbody. by right.
Qed.

Ltac in_a48_names :=
  unfold a48_bucket_names;
  repeat (apply elem_of_cons; first [left; reflexivity | right]).

Ltac in_a48_sub H :=
  repeat (apply elem_of_cons in H as [->|H]; [in_a48_names|]);
  by apply elem_of_nil in H.

(** What [results[key][bucket] += 1] does in analyze_48h.py. *)
Lemma a48_bump_key_spec (key : string) (is_correct : bool) (res : analyze_48h.results) :
  has_buckets a48_bucket_names (analyze_48h.named res) →
  match analyze_48h.bump_key key is_correct res with
  | Ok res' =>
      has_buckets a48_bucket_names (analyze_48h.named res') ∧
      analyze_48h.details res' = analyze_48h.details res ∧
      (key ∉ ["by_hour"; "by_day"]) ∧
      analyze_48h.total res'
        = (if decide (key = "total") then bump is_correct (analyze_48h.total res)
           else analyze_48h.total res)
  | Raise e =>
      (e = TypeError ∧ key ∈ ["by_hour"; "by_day"]) ∨
      (e = KeyError ∧ (key ∉ ["total"; "by_hour"; "by_day"]) ∧
       analyze_48h.named res !! key = None)
  end.
Proof.
  intros Hhas. unfold analyze_48h.bump_key.
  case_decide as Ht.
  { subst key. split; [done|]. split; [done|]. split; [|done].
    intros Hin. repeat (apply elem_of_cons in Hin as [[=]|Hin]).
    by apply elem_of_nil in Hin. }
  case_decide as Hd.
  { left. split; [done|]. destruct Hd as [-> | ->]; [by left|right; by left]. }
  assert (Hout : key ∉ ["by_hour"; "by_day"]).
  { intros Hin. apply Hd.
    apply elem_of_cons in Hin as [->|Hin]; [by left|].
    apply elem_of_cons in Hin as [->|Hin]; [by right|]. by apply elem_of_nil in Hin. }
  unfold bump_bucket, get_bucket.
  destruct (analyze_48h.named res !! key) as [b|] eqn:Hb; simpl.
  - split; [|done]. intros k Hk.
    destruct (decide (key = k)) as [->|Hne].
    + rewrite lookup_insert_eq. by eexists.
    + rewrite lookup_insert_ne by done. by apply Hhas.
  - right. split; [done|]. split; [|done].
    intros [->|Hin]%elem_of_cons; done.
Qed.

Lemma a48_bump_named_spec (k : string) (is_correct : bool) (res : analyze_48h.results) :
  k ∈ a48_bucket_names →
  has_buckets a48_bucket_names (analyze_48h.named res) →
  match analyze_48h.bump_key k is_correct res with
  | Ok res' =>
      has_buckets a48_bucket_names (analyze_48h.named res') ∧
      analyze_48h.details res' = analyze_48h.details res ∧
      analyze_48h.total res' = analyze_48h.total res
  | Raise _ => False
  end.
Proof.
  intros Hk Hhas.
  pose proof (a48_bump_key_spec k is_correct res Hhas) as Hspec.
  assert (Hplain : k ∉ ["total"; "by_hour"; "by_day"]).
  { unfold a48_bucket_names in Hk. intros Hin.
    repeat (apply elem_of_cons in Hk as [->|Hk];
            [repeat (apply elem_of_cons in Hin as [[=]|Hin]);
             by apply elem_of_nil in Hin|]).
    by apply elem_of_nil in Hk. }
  destruct (analyze_48h.bump_key k is_correct res) as [res'|e].
  - destruct Hspec as (? & ? & _ & Ht). rewrite decide_False in Ht; [done|].
    intros ->. apply Hplain. by left.
  - destruct Hspec as [[_ Hin]|(_ & _ & Hnone)].
    + apply Hplain. by right.
    + destruct (Hhas k Hk) as [b Hb]. congruence.
Qed.

Lemma a48_first_match_spec (keys : list string) (rec : string) (is_correct : bool)
    (res : analyze_48h.results) :
  keys ⊆ a48_bucket_names →
  has_buckets a48_bucket_names (analyze_48h.named res) →
  match analyze_48h.bump_first_match keys rec is_correct res with
  | Ok res' =>
      has_buckets a48_bucket_names (analyze_48h.named res') ∧
      analyze_48h.details res' = analyze_48h.details res ∧
      analyze_48h.total res' = analyze_48h.total res
  | Raise _ => False
  end.
Proof.
  intros Hkeys Hhas. unfold analyze_48h.bump_first_match.
  destruct (List.find _ keys) as [k|] eqn:Hfind; [|done].
  apply find_some in Hfind as [Hk%list_elem_of_In%Hkeys _].
  by apply a48_bump_named_spec.
Qed.

(** The per-record loop of analyze_48h.py. *)
Lemma a48_score_signal_spec (is_correct : bool) (res : analyze_48h.results)
    (s : signal_rec) :
  has_buckets a48_bucket_names (analyze_48h.named res) →
  match analyze_48h.score_signal is_correct res s with
  | Ok res' =>
      has_buckets a48_bucket_names (analyze_48h.named res') ∧
      analyze_48h.details res' = analyze_48h.details res ∧
      (regime_of s ∉ ["by_hour"; "by_day"]) ∧
      (regime_of s ≠ "total" → analyze_48h.total res' = analyze_48h.total res)
  | Raise e => e = TypeError ∧ regime_of s ∈ ["by_hour"; "by_day"]
  end.
Proof.
  intros Hhas. unfold analyze_48h.score_signal. cbv zeta. fold (regime_of s).
  pose proof (a48_first_match_spec ["STRONG"; "GOOD"; "OPTIONAL"] (s_rec s)
                is_correct res) as H1.
  destruct (analyze_48h.bump_first_match ["STRONG"; "GOOD"; "OPTIONAL"] _ _ res)
    as [r1|e1]; simpl.
  2:{ exfalso. apply H1; [|done]. intros x Hx. in_a48_sub Hx. }
  destruct H1 as (Hhas1 & Hd1 & Ht1); [intros x Hx; in_a48_sub Hx|done|].
  pose proof (a48_first_match_spec ["EARLY"; "MID"; "LATE"] (s_rec s)
                is_correct r1) as H2.
  destruct (analyze_48h.bump_first_match ["EARLY"; "MID"; "LATE"] _ _ r1)
    as [r2|e2]; simpl.
  2:{ exfalso. apply H2; [|done]. intros x Hx. in_a48_sub Hx. }
  destruct H2 as (Hhas2 & Hd2 & Ht2); [intros x Hx; in_a48_sub Hx|done|].
  destruct (analyze_48h.in_results (regime_of s) r2) eqn:Hin.
  - pose proof (a48_bump_key_spec (regime_of s) is_correct r2 Hhas2) as H3.
    destruct (analyze_48h.bump_key (regime_of s) is_correct r2) as [r3|e3].
    + destruct H3 as (Hhas3 & Hd3 & Hout & Ht3).
      split; [done|]. split; [congruence|]. split; [done|].
      intros Hne. rewrite decide_False in Ht3 by done. congruence.
    + destruct H3 as [[-> Hbad]|(_ & Hout & Hnone)]; [done|].
      exfalso. unfold analyze_48h.in_results in Hin.
      apply orb_true_iff in Hin as [Hin|Hin].
      * by apply bool_decide_eq_true in Hin.
      * apply bool_decide_eq_true in Hin as [b Hb]. congruence.
  - split; [done|]. split; [congruence|]. split; [|intros _; congruence].
    intros Hbad. unfold analyze_48h.in_results in Hin.
    apply orb_false_iff in Hin as [Hin _]. apply bool_decide_eq_false in Hin.
    apply Hin. by right.
Qed.

Lemma for_each_cases_all {S A} (I : S -> Prop) (G : A -> Prop) (Q : exn -> Prop)
    (body : S -> A -> result S) (xs : list A) (st : S) :
  (∀ st x, x ∈ xs → I st →
     match body st x with Ok st' => I st' ∧ G x | Raise e => Q e end) →
  I st →
  match for_each body xs st with Ok st' => I st' ∧ Forall G xs | Raise e => Q e end.
Proof.
  revert st. induction xs as [|x xs IH]; intros st Hbody Hst; simpl; [done|].
  pose proof (Hbody st x ltac:(by left) Hst) as Hx.
  destruct (body st x) as [st1|e]; [|done]. destruct Hx as [Hst1 Hgx].
  specialize (IH st1 (fun st2 y Hy => Hbody st2 y ltac:(by right)) Hst1).
  destruct (for_each body xs st1); [|done].
  destruct IH as [? ?]. split; [done|by constructor].
Qed.

Lemma for_each_log_inv {S} (I : S -> Prop) (body : S -> Z -> result S)
    (log : S -> list detail) (counts : Z -> bool) (P : detail -> Prop)
    (ws : list Z) (st st' : S) :
  (∀ st w st', I st → body st w = Ok st' →
     I st' ∧ if counts w then ∃ e, log st' = log st ++ [e] ∧ d_time e = w ∧ P e
             else log st' = log st) →
  I st →
  for_each body ws st = Ok st' →
  I st' ∧
  d_time <$> log st' = (d_time <$> log st) ++ List.filter counts ws ∧
  (Forall P (log st) → Forall P (log st')).
Proof.
  intros Hbody. revert st. induction ws as [|w ws IH]; intros st Hst; simpl.
  - intros [= <-]. by rewrite app_nil_r.
  - destruct (body st w) as [st1|] eqn:Hw; [|done].
    intros Hrest. apply Hbody in Hw as [Hst1 Hw]; [|done].
    apply IH in Hrest as (Hst' & Htimes & Hall); [|done].
    split; [done|]. rewrite Htimes.
    destruct (counts w).
    + destruct Hw as (e & Hlog & Hw & He). rewrite Hlog in Hall |- *. split.
      * rewrite fmap_app, <- app_assoc. simpl. by rewrite Hw.
      * intros Hall0. apply Hall, Forall_app. split; [done|]. by constructor.
    + by rewrite Hw in *.
Qed.

(** One iteration of the verification loop of analyze_48h.py. *)
Lemma a48_score_window_spec (cal : calendar) (active : gmap Z (list signal_rec))
    (klines : gmap Z kline) (res : analyze_48h.results) (w : Z) :
  has_buckets a48_bucket_names (analyze_48h.named res) →
  match analyze_48h.score_window cal active klines res w with
  | Ok res' =>
      has_buckets a48_bucket_names (analyze_48h.named res') ∧
      if scorable_by analyze_48h.determine_vote active klines w then
        ¬ window_has_regime ["by_hour"; "by_day"] active w ∧
        ∃ e, analyze_48h.details res' = analyze_48h.details res ++ [e] ∧ d_time e = w ∧
             reports_window analyze_48h.determine_vote active klines e ∧
             (¬ window_has_regime ["total"] active w →
              analyze_48h.total res' = bump (d_correct e) (analyze_48h.total res))
      else res' = res
  | Raise e =>
      (e = KeyError ∧ active !! w = None) ∨
      (e = TypeError ∧ scorable_by analyze_48h.determine_vote active klines w = true ∧
       window_has_regime ["by_hour"; "by_day"] active w)
  end.
Proof.
  intros Hhas. unfold analyze_48h.score_window, scorable_by.
  destruct (klines !! w) as [kl|] eqn:Hk; [|done].
  destruct (active !! w) as [sigs|] eqn:Ha; [|by left].
  cbv zeta. case_decide as Hv.
  { by rewrite bool_decide_eq_false_2 by auto. }
  rewrite (bool_decide_eq_true_2 _ Hv).
  set (ok := bool_decide (analyze_48h.determine_vote sigs = kl_result kl)).
  set (entry := {| d_time := w; d_vote := analyze_48h.determine_vote sigs;
                   d_result := kl_result kl; d_correct := ok;
                   d_num_signals := None |}).
  set (res0 := {| analyze_48h.total := analyze_48h.total res;
                  analyze_48h.details := analyze_48h.details res ++ [entry];
                  analyze_48h.named := analyze_48h.named res;
                  analyze_48h.by_hour := analyze_48h.by_hour res;
                  analyze_48h.by_day := analyze_48h.by_day res |}).
  pose proof (a48_bump_key_spec "total" ok res0 Hhas) as H1.
  destruct (analyze_48h.bump_key "total" ok res0) as [res1|e1] eqn:E1; simpl.
  2:{ exfalso. destruct H1 as [[_ Hin]|(_ & Hout & _)].
      - repeat (apply elem_of_cons in Hin as [[=]|Hin]). by apply elem_of_nil in Hin.
      - apply Hout. by left. }
  destruct H1 as (Hhas1 & Hd1 & _ & Ht1). rewrite decide_True in Ht1 by done.
  assert (Hkey : String.append (label_str (analyze_48h.determine_vote sigs)) "_vote"
                 ∈ a48_bucket_names).
  { destruct (analyze_48h.determine_vote sigs); [| |done];
      cbv [label_str String.append]; in_a48_names. }
  pose proof (a48_bump_named_spec _ ok res1 Hkey Hhas1) as H2.
  destruct (analyze_48h.bump_key _ ok res1) as [res2|e2] eqn:E2; simpl; [|done].
  destruct H2 as (Hhas2 & Hd2 & Ht2).
  match goal with |- context [for_each _ sigs ?r] => set (res3 := r) end.
  pose proof (for_each_cases_all
                (fun st => has_buckets a48_bucket_names (analyze_48h.named st) ∧
                           analyze_48h.details st = analyze_48h.details res3 ∧
                           ((∀ s, s ∈ sigs → regime_of s ≠ "total") →
                            analyze_48h.total st = analyze_48h.total res3))
                (fun s => regime_of s ∉ ["by_hour"; "by_day"])
                (fun e => e = TypeError ∧
                          ∃ s, s ∈ sigs ∧ regime_of s ∈ ["by_hour"; "by_day"])
                (analyze_48h.score_signal ok) sigs res3) as Hloop.
  destruct (for_each (analyze_48h.score_signal ok) sigs res3) as [res4|e4].
  - destruct Hloop as [(Hhas4 & Hd4 & Ht4) Hplain].
    + intros st s Hs (Hst & Hdst & Htst).
      pose proof (a48_score_signal_spec ok st s Hst) as Hsig.
      destruct (analyze_48h.score_signal ok st s) as [st'|e].
      * destruct Hsig as (? & ? & ? & Htot). split; [|done].
        split; [done|]. split; [congruence|].
        intros Hall. rewrite Htot by (by apply Hall). by apply Htst.
      * destruct Hsig as [-> ?]. split; [done|]. by exists s.
    + done.
    + split; [done|]. split.
      * intros (sigs' & s & Hs' & Hs & Hbad). rewrite Ha in Hs'. injection Hs' as <-.
        rewrite Forall_forall in Hplain. by apply (Hplain s).
      * exists entry. split; [by rewrite Hd4; simpl; rewrite Hd2, Hd1|].
        split; [done|]. split.
        { exists kl, sigs. unfold entry, consistent_entry, ok. simpl.
          by rewrite Hk, Ha. }
        intros Hnone. rewrite Ht4; [simpl; by rewrite Ht2, Ht1|].
        intros s Hs Htot. apply Hnone. exists sigs, s.
        split; [done|]. split; [done|]. rewrite Htot. by left.
  - right. destruct Hloop as [-> (s & Hs & Hbad)].
    + intros st s Hs (Hst & Hdst & Htst).
      pose proof (a48_score_signal_spec ok st s Hst) as Hsig.
      destruct (analyze_48h.score_signal ok st s) as [st'|e].
      * destruct Hsig as (? & ? & ? & Htot). split; [|done].
        split; [done|]. split; [congruence|].
        intros Hall. rewrite Htot by (by apply Hall). by apply Htst.
      * destruct Hsig as [-> ?]. split; [done|]. by exists s.
    + done.
    + split; [done|]. split; [done|]. by exists sigs, s.
Qed.

Lemma a48_empty_has_buckets :
  has_buckets a48_bucket_names (analyze_48h.named analyze_48h.empty_results).
Proof.
  intros k Hk. unfold a48_bucket_names in Hk.
  repeat (apply elem_of_cons in Hk as [->|Hk]; [by eexists|]).
  by apply elem_of_nil in Hk.
Qed.

Lemma regimes_avoid_window (names : list string) (active : gmap Z (list signal_rec))
    (w : Z) :
  regimes_avoid names active → ¬ window_has_regime names active w.
Proof. intros Havoid (sigs & s & Hs & Hin & Hbad). by apply (Havoid w sigs s). Qed.

(** X13. On records whose signal cell is text (the records a
    [signal_rec] stands for), the verification loop of analyze_48h.py
    can fail in one way only: with a TypeError, when a window that is
    scored holds a record whose regime reads "by_hour" or "by_day" (then
    [results[regime]] is one of the two per-hour and per-day dicts, not
    a bucket). Whenever no such record has such a regime the loop
    completes: no window, candle or bucket lookup ever misses. *)
Theorem a48_scoring_fails_only_on_dict_regimes (cal : calendar)
    (active : gmap Z (list signal_rec)) (klines : gmap Z kline) :
  (∀ e, analyze_48h.score cal active klines (sorted_keys active) = Raise e →
        e = TypeError ∧
        ∃ w, scorable_by analyze_48h.determine_vote active klines w = true ∧
             window_has_regime ["by_hour"; "by_day"] active w) ∧
  (regimes_avoid ["by_hour"; "by_day"] active →
   ∃ res, analyze_48h.score cal active klines (sorted_keys active) = Ok res).
Proof.
  assert (Hcases :
    match analyze_48h.score cal active klines (sorted_keys active) with
    | Ok res => has_buckets a48_bucket_names (analyze_48h.named res)
    | Raise e =>
        e = TypeError ∧
        ∃ w, scorable_by analyze_48h.determine_vote active klines w = true ∧
             window_has_regime ["by_hour"; "by_day"] active w
    end).
  { unfold analyze_48h.score. apply for_each_cases; [|apply a48_empty_has_buckets].
    intros st w Hw Hst.
    pose proof (a48_score_window_spec cal active klines st w Hst) as Hspec.
    destruct (analyze_48h.score_window cal active klines st w) as [st'|e]; [apply Hspec|].
    destruct Hspec as [[_ Hnone]|(-> & Hsc & Hreg)].
    - apply elem_of_sorted_keys in Hw as [sigs Hs]. congruence.
    - split; [done|]. by exists w. }
  split.
  - intros e He. by rewrite He in Hcases.
  - intros Havoid.
    destruct (analyze_48h.score cal active klines (sorted_keys active)) as [res|e];
      [by exists res|].
    destruct Hcases as [_ (w & _ & Hreg)].
    by destruct (regimes_avoid_window _ active w Havoid).
Qed.

(** With a record whose regime is "by_hour" in a scored window, here
    one dated 2026-02-12T00:00:01Z, the loop does raise. *)
Lemma a48_by_hour_regime_raises (cal : calendar) :
  analyze_48h.main cal [Response 200 rising_page]
    [row_of (feb12 + 1000) "BUY UP" "STRONG_EARLY" "by_hour"] = Some (Raise TypeError).
Proof. vm_compute. reflexivity. Qed.

(** X14. In analyze_48h.py the detail log holds one entry per window
    with a known outcome and a non-NEUTRAL vote, in the order of the
    window list, each reporting its window's vote and result. When no
    record has the regime "total", the global counters count the correct
    and the wrong entries of that log, so their sum is the number of such
    windows. *)
Theorem a48_totals_match_log (cal : calendar) (active : gmap Z (list signal_rec))
    (klines : gmap Z kline) (sorted_wins : list Z) (res : analyze_48h.results) :
  analyze_48h.score cal active klines sorted_wins = Ok res →
  d_time <$> analyze_48h.details res
    = List.filter (scorable_by analyze_48h.determine_vote active klines) sorted_wins ∧
  Forall (reports_window analyze_48h.determine_vote active klines)
         (analyze_48h.details res) ∧
  (regimes_avoid ["total"] active →
   correct (analyze_48h.total res) = count_correct true (analyze_48h.details res) ∧
   wrong (analyze_48h.total res) = count_correct false (analyze_48h.details res) ∧
   bucket_total (analyze_48h.total res)
     = Z.of_nat (length (List.filter
                           (scorable_by analyze_48h.determine_vote active klines)
                           sorted_wins))).
Proof.
  intros Hscore. unfold analyze_48h.score in Hscore.
  pose proof Hscore as Hlog.
  apply (for_each_log_inv
           (fun r => has_buckets a48_bucket_names (analyze_48h.named r))
           _ analyze_48h.details
           (scorable_by analyze_48h.determine_vote active klines)
           (reports_window analyze_48h.determine_vote active klines))
    in Hlog as (_ & Htimes & Hall); [| |apply a48_empty_has_buckets].
  2:{ intros st w st' Hst Hw.
      pose proof (a48_score_window_spec cal active klines st w Hst) as Hspec.
      rewrite Hw in Hspec. destruct Hspec as [Hst' Hspec]. split; [done|].
      destruct (scorable_by _ _ _ w); [|by subst].
      destruct Hspec as (_ & e & ? & ? & ? & _). by exists e. }
  simpl in Htimes. split; [done|]. split; [by apply Hall|].
  intros Havoid.
  assert (Hinv : has_buckets a48_bucket_names (analyze_48h.named res) ∧
                 correct (analyze_48h.total res)
                   = count_correct true (analyze_48h.details res) ∧
                 wrong (analyze_48h.total res)
                   = count_correct false (analyze_48h.details res)).
  { revert Hscore.
    apply (for_each_invariant
             (fun r => has_buckets a48_bucket_names (analyze_48h.named r) ∧
                       correct (analyze_48h.total r)
                         = count_correct true (analyze_48h.details r) ∧
                       wrong (analyze_48h.total r)
                         = count_correct false (analyze_48h.details r)));
      [|split; [apply a48_empty_has_buckets|by vm_compute]].
    intros st w st' _ Hw (Hst & Hc & Hwr).
    pose proof (a48_score_window_spec cal active klines st w Hst) as Hspec.
    rewrite Hw in Hspec. destruct Hspec as [Hst' Hspec]. split; [done|].
    destruct (scorable_by _ _ _ w); [|by subst].
    destruct Hspec as (_ & e & Hd & _ & _ & Ht).
    rewrite Hd, Ht by (by apply regimes_avoid_window).
    rewrite !count_correct_snoc. unfold bump.
    destruct (d_correct e); simpl; split; lia. }
  destruct Hinv as (_ & Hc & Hw).
  split; [done|]. split; [done|].
  rewrite <- Htimes, length_fmap. unfold bucket_total. rewrite Hc, Hw.
  unfold count_correct.
  assert (Hsplit : ∀ l : list detail,
            (length (List.filter (fun r => eqb (d_correct r) true) l)
             + length (List.filter (fun r => eqb (d_correct r) false) l))%nat = length l).
  { induction l as [|r l IH]; [done|]. simpl. destruct (d_correct r); simpl; lia. }
  specialize (Hsplit (analyze_48h.details res)). lia.
Qed.

Lemma a48_totals_match_log_witness :
  d_time <$> analyze_48h.details (three_rows_results_48h hour_calendar)
    = List.filter (scorable_by analyze_48h.determine_vote three_rows_active_48h two_klines)
                  (sorted_keys three_rows_active_48h) ∧
  Forall (reports_window analyze_48h.determine_vote three_rows_active_48h two_klines)
         (analyze_48h.details (three_rows_results_48h hour_calendar)) ∧
  (regimes_avoid ["total"] three_rows_active_48h →
   correct (analyze_48h.total (three_rows_results_48h hour_calendar))
     = count_correct true (analyze_48h.details (three_rows_results_48h hour_calendar)) ∧
   wrong (analyze_48h.total (three_rows_results_48h hour_calendar))
     = count_correct false (analyze_48h.details (three_rows_results_48h hour_calendar)) ∧
   bucket_total (analyze_48h.total (three_rows_results_48h hour_calendar))
     = Z.of_nat (length (List.filter
                           (scorable_by analyze_48h.determine_vote three_rows_active_48h
                              two_klines)
                           (sorted_keys three_rows_active_48h)))).
Proof.
  apply (a48_totals_match_log hour_calendar three_rows_active_48h two_klines
           (sorted_keys three_rows_active_48h) (three_rows_results_48h hour_calendar)).
  vm_compute. reflexivity.
Defined.

(** ** The per-type statistics of verify_accuracy.py *)

Lemma for_each_measure {S A} (mu : S -> Z) (delta : A -> Z) (body : S -> A -> result S)
    (xs : list A) (st st' : S) :
  (∀ st x st', x ∈ xs → body st x = Ok st' → mu st' = mu st + delta x) →
  for_each body xs st = Ok st' →
  mu st' = mu st + sum_with delta xs.
Proof.
  revert st. induction xs as [|x xs IH]; intros st Hbody; simpl.
  - intros [= <-]. lia.
  - destruct (body st x) as [st1|] eqn:Hx; [|done].
    intros Hrest. apply IH in Hrest.
    + rewrite Hrest, (Hbody st x st1) by (done || by left). lia.
    + intros st2 y st3 Hy. apply Hbody. by right.
Qed.

Lemma sum_with_le {A} (f g : A -> Z) (l : list A) :
  (∀ x, x ∈ l → f x ≤ g x) → sum_with f l ≤ sum_with g l.
Proof.
  induction l as [|x l IH]; intros Hle; simpl; [lia|].
  specialize (Hle x ltac:(by left)) as Hx.
  specialize (IH (fun y Hy => Hle y ltac:(by right))). lia.
Qed.

Lemma sum_with_ext {A} (f g : A -> Z) (l : list A) :
  (∀ x, x ∈ l → f x = g x) → sum_with f l = sum_with g l.
Proof.
  induction l as [|x l IH]; intros Heq; simpl; [done|].
  rewrite (Heq x) by (by left). rewrite IH; [done|].
  intros y Hy. apply Heq. by right.
Qed.

Lemma sum_with_ones {A} (l : list A) : sum_with (fun _ => 1) l = Z.of_nat (length l).
Proof. induction l as [|x l IH]; simpl; lia. Qed.

Lemma bump_bucket_tot (key : string) (is_correct : bool)
    (stats stats' : gmap string bucket) (k : string) :
  bump_bucket key is_correct stats = Ok stats' →
  tot stats' k = tot stats k + (if String.eqb k key then 1 else 0).
Proof.
  unfold bump_bucket, tot. intros (b & Hb%get_bucket_Ok & [= <-])%bind_Ok.
  destruct (String.eqb_spec k key) as [->|Hne].
  - rewrite lookup_insert_eq, Hb. simpl. unfold bucket_total, bump.
    destruct is_correct; simpl; lia.
  - rewrite lookup_insert_ne by done. lia.
Qed.

(** One record adds one to a strength bucket when it has a strength
    tier, and one to a timing bucket when it also has a timing tier. *)
Lemma verify_categorize_totals (is_correct : bool) (stats stats' : gmap string bucket)
    (s : signal_rec) :
  verify_accuracy.categorize is_correct stats s = Ok stats' →
  tot stats' "STRONG" + tot stats' "GOOD"
    = tot stats "STRONG" + tot stats "GOOD" + (if has_strength s then 1 else 0) ∧
  tot stats' "EARLY" + tot stats' "MID" + tot stats' "LATE"
    = tot stats "EARLY" + tot stats "MID" + tot stats "LATE"
      + (if has_strength s && has_timing s then 1 else 0).
Proof.
  unfold verify_accuracy.categorize, has_strength, has_timing. cbv zeta.
  destruct (str_in "STRONG" (s_rec s)); [|destruct (str_in "GOOD" (s_rec s))];
    simpl; try (intros [= <-]; lia);
    intros (s1 & H1 & H2)%bind_Ok;
    pose proof (bump_bucket_tot _ _ _ _ "STRONG" H1) as E1;
    pose proof (bump_bucket_tot _ _ _ _ "GOOD" H1) as E2;
    pose proof (bump_bucket_tot _ _ _ _ "EARLY" H1) as E3;
    pose proof (bump_bucket_tot _ _ _ _ "MID" H1) as E4;
    pose proof (bump_bucket_tot _ _ _ _ "LATE" H1) as E5;
    simpl in E1, E2, E3, E4, E5;
    (destruct (str_in "EARLY" (s_rec s));
     [|destruct (str_in "MID" (s_rec s)); [|destruct (str_in "LATE" (s_rec s))]];
     simpl;
     [| | |injection H2 as <-; lia]);
    pose proof (bump_bucket_tot _ _ _ _ "STRONG" H2) as F1;
    pose proof (bump_bucket_tot _ _ _ _ "GOOD" H2) as F2;
    pose proof (bump_bucket_tot _ _ _ _ "EARLY" H2) as F3;
    pose proof (bump_bucket_tot _ _ _ _ "MID" H2) as F4;
    pose proof (bump_bucket_tot _ _ _ _ "LATE" H2) as F5;
    simpl in F1, F2, F3, F4, F5; lia.
Qed.

Lemma sum_with_app {A} (f : A -> Z) (l k : list A) :
  sum_with f (l ++ k) = sum_with f l + sum_with f k.
Proof. induction l as [|x l IH]; simpl; lia. Qed.

Lemma verify_stats_window_totals (windows : gmap Z (list signal_rec))
    (klines : gmap Z kline) (stats stats' : gmap string bucket) (w : Z) :
  match klines !! w with
  | None => Ok stats
  | Some kline =>
      let signals := windows !!! w in
      let vote := verify_accuracy.determine_vote signals in
      if decide (vote = NEUTRAL) then Ok stats
      else for_each (verify_accuracy.categorize (bool_decide (vote = kl_result kline)))
                    signals stats
  end = Ok stats' →
  tot stats' "STRONG" + tot stats' "GOOD"
    = tot stats "STRONG" + tot stats "GOOD"
      + scored_records (fun s => if has_strength s then 1 else 0) windows klines w ∧
  tot stats' "EARLY" + tot stats' "MID" + tot stats' "LATE"
    = tot stats "EARLY" + tot stats "MID" + tot stats "LATE"
      + scored_records (fun s => if has_strength s && has_timing s then 1 else 0)
          windows klines w.
Proof.
  unfold scored_records.
  destruct (klines !! w) as [kline|]; [|intros [= <-]; lia].
  cbv zeta. case_decide; [intros [= <-]; lia|].
  intros Hloop. split.
  - apply (for_each_measure (fun st => tot st "STRONG" + tot st "GOOD")
             (fun s => if has_strength s then 1 else 0)) in Hloop; [done|].
    intros st s st' _ Hs. by apply verify_categorize_totals in Hs as [? _].
  - apply (for_each_measure (fun st => tot st "EARLY" + tot st "MID" + tot st "LATE")
             (fun s => if has_strength s && has_timing s then 1 else 0)) in Hloop; [done|].
    intros st s st' _ Hs. by apply verify_categorize_totals in Hs as [_ ?].
Qed.

Lemma verify_score_window_reported (active_windows : gmap Z (list signal_rec))
    (klines : gmap Z kline) (st st' : verify_accuracy.tally) (w : Z) :
  verify_accuracy.score_window active_windows klines st w = Ok st' →
  signals_reported (verify_accuracy.results_detail st')
    = signals_reported (verify_accuracy.results_detail st)
      + scored_records (fun _ => 1) active_windows klines w ∧
  verify_accuracy.t_total st'
    = verify_accuracy.t_total st
      + scored_records (fun _ => 0) active_windows klines w
      + (if scorable active_windows klines w then 1 else 0).
Proof.
  unfold verify_accuracy.score_window, scored_records, scorable.
  destruct (klines !! w) as [kline|]; [|intros [= <-]; lia].
  rewrite lookup_total_alt.
  destruct (active_windows !! w) as [signals|]; [|done]. simpl.
  assert (Hzero : sum_with (fun _ : signal_rec => 0) signals = 0).
  { clear. induction signals; simpl; lia. }
  case_decide as Hv.
  - intros [= <-]. rewrite bool_decide_eq_false_2 by auto. lia.
  - intros [= <-]. rewrite (bool_decide_eq_true_2 _ Hv). simpl.
    unfold signals_reported. rewrite sum_with_app, sum_with_ones, Hzero. simpl. lia.
Qed.

Lemma group_rows_records (df : list row) (w : Z) (sigs : list signal_rec) :
  active_of (verify_accuracy.group_signals_by_window df) !! w = Some sigs →
  sigs ≠ [] ∧ ∀ s, s ∈ sigs → has_strength s = true.
Proof.
  unfold verify_accuracy.group_signals_by_window.
  rewrite active_of_group_rows, group_rows_lookup.
  destruct (List.filter actionable (rows_of_window w df)) as [|r kept] eqn:Hkept; [done|].
  intros [= <-]. split; [done|].
  intros s Hs. change (s ∈ verify_accuracy.signal_of_row <$> r :: kept) in Hs.
  apply list_elem_of_fmap in Hs as (r' & -> & Hr').
  rewrite <- Hkept in Hr'. apply list_elem_of_In, filter_In in Hr' as [_ Hact].
  exact Hact.
Qed.

(** X15. In verify_accuracy.py the STRONG and GOOD lines of the report
    count signals, not intervals: the totals of the two buckets add up
    to the number of signals of the verified intervals (the sum of
    [num_signals] over the detail log), which is at least the number of
    verified intervals; and the totals of the EARLY, MID and LATE
    buckets together never exceed that of STRONG and GOOD. *)
Theorem verify_strength_buckets_count_signals (df : list row) (klines : gmap Z kline)
    (st : verify_accuracy.tally) (stats : gmap string bucket) :
  let active_windows := active_of (verify_accuracy.group_signals_by_window df) in
  verify_accuracy.score active_windows klines (sorted_keys active_windows) = Ok st →
  verify_accuracy.analyze_by_recommendation_type active_windows klines = Ok stats →
  tot stats "STRONG" + tot stats "GOOD"
    = signals_reported (verify_accuracy.results_detail st) ∧
  tot stats "EARLY" + tot stats "MID" + tot stats "LATE"
    ≤ tot stats "STRONG" + tot stats "GOOD" ∧
  verify_accuracy.t_total st ≤ tot stats "STRONG" + tot stats "GOOD".
Proof.
  intros active_windows Hscore Hstats.
  unfold verify_accuracy.analyze_by_recommendation_type in Hstats.
  pose proof Hstats as Hstrength.
  apply (for_each_measure (fun s => tot s "STRONG" + tot s "GOOD")
           (scored_records (fun s => if has_strength s then 1 else 0)
              active_windows klines)) in Hstrength.
  2:{ intros s0 w s1 _ Hw. by apply verify_stats_window_totals in Hw as [? _]. }
  pose proof Hstats as Htiming.
  apply (for_each_measure (fun s => tot s "EARLY" + tot s "MID" + tot s "LATE")
           (scored_records (fun s => if has_strength s && has_timing s then 1 else 0)
              active_windows klines)) in Htiming.
  2:{ intros s0 w s1 _ Hw. by apply verify_stats_window_totals in Hw as [_ ?]. }
  unfold verify_accuracy.score in Hscore.
  pose proof Hscore as Hreported.
  apply (for_each_measure
           (fun t => signals_reported (verify_accuracy.results_detail t))
           (scored_records (fun _ => 1) active_windows klines)) in Hreported.
  2:{ intros t0 w t1 _ Hw. by apply verify_score_window_reported in Hw as [? _]. }
  pose proof Hscore as Htotal.
  apply (for_each_measure verify_accuracy.t_total
           (fun w => scored_records (fun _ => 0) active_windows klines w
                     + (if scorable active_windows klines w then 1 else 0))) in Htotal.
  2:{ intros t0 w t1 _ Hw. apply verify_score_window_reported in Hw as [_ ?]. lia. }
  change (tot verify_accuracy.empty_stats "STRONG") with 0 in Hstrength.
  change (tot verify_accuracy.empty_stats "GOOD") with 0 in Hstrength.
  change (tot verify_accuracy.empty_stats "EARLY") with 0 in Htiming.
  change (tot verify_accuracy.empty_stats "MID") with 0 in Htiming.
  change (tot verify_accuracy.empty_stats "LATE") with 0 in Htiming.
  simpl in Hreported, Htotal.
  assert (Hlist : ∀ w, active_windows !!! w = [] ∨
                       (active_windows !!! w ≠ [] ∧
                        ∀ s, s ∈ active_windows !!! w → has_strength s = true)).
  { intros w. rewrite lookup_total_alt.
    destruct (active_windows !! w) as [sigs|] eqn:Hw; [|by left].
    right. by apply (group_rows_records df w). }
  assert (Hsame : sum_with (scored_records (fun s => if has_strength s then 1 else 0)
                              active_windows klines) (sorted_keys active_windows)
                  = sum_with (scored_records (fun _ => 1) active_windows klines)
                             (sorted_keys active_windows)).
  { apply sum_with_ext. intros w _. unfold scored_records.
    destruct (klines !! w); [|done]. case_decide; [done|].
    apply sum_with_ext. intros s Hs.
    destruct (Hlist w) as [Hnil|[_ Hall]]; [rewrite Hnil in Hs; by apply elem_of_nil in Hs|].
    by rewrite Hall. }
  assert (Hle : sum_with (scored_records
                            (fun s => if has_strength s && has_timing s then 1 else 0)
                            active_windows klines) (sorted_keys active_windows)
                ≤ sum_with (scored_records (fun s => if has_strength s then 1 else 0)
                              active_windows klines) (sorted_keys active_windows)).
  { apply sum_with_le. intros w _. unfold scored_records.
    destruct (klines !! w); [|done]. case_decide; [done|].
    apply sum_with_le. intros s _.
    destruct (has_strength s), (has_timing s); simpl; lia. }
  assert (Hwin : sum_with (fun w => scored_records (fun _ => 0) active_windows klines w
                                    + (if scorable active_windows klines w then 1 else 0))
                          (sorted_keys active_windows)
                 ≤ sum_with (scored_records (fun _ => 1) active_windows klines)
                            (sorted_keys active_windows)).
  { apply sum_with_le. intros w _. unfold scored_records, scorable.
    rewrite lookup_total_alt.
    destruct (klines !! w); [|lia].
    destruct (active_windows !! w) as [sigs|] eqn:Hw; simpl.
    - assert (Hzero : sum_with (fun _ : signal_rec => 0) sigs = 0).
      { clear. induction sigs; simpl; lia. }
      apply (group_rows_records df w) in Hw as [Hne _].
      rewrite sum_with_ones, Hzero.
      case_decide as Hv.
      + rewrite bool_decide_eq_false_2 by auto. lia.
      + rewrite (bool_decide_eq_true_2 _ Hv). destruct sigs; [done|]. simpl. lia.
    - lia. }
  lia.
Qed.

Lemma verify_strength_buckets_count_signals_witness :
  tot three_rows_stats "STRONG" + tot three_rows_stats "GOOD"
    = signals_reported (verify_accuracy.results_detail three_rows_tally) ∧
  tot three_rows_stats "EARLY" + tot three_rows_stats "MID" + tot three_rows_stats "LATE"
    ≤ tot three_rows_stats "STRONG" + tot three_rows_stats "GOOD" ∧
  verify_accuracy.t_total three_rows_tally
    ≤ tot three_rows_stats "STRONG" + tot three_rows_stats "GOOD".
Proof.
  apply (verify_strength_buckets_count_signals three_rows two_klines
           three_rows_tally three_rows_stats).
  - vm_compute. reflexivity.
  - vm_compute. reflexivity.
Defined.

(** ** [analyze_signals] of analyze_24h.py *)

Arguments tier_total : simpl never.
Arguments hours_total : simpl never.

Lemma sum_with_Permutation {A} (f : A -> Z) (l k : list A) :
  l ≡ₚ k → sum_with f l = sum_with f k.
Proof. induction 1; simpl; lia. Qed.

(** [results['by_hour'][hour][...] += 1] adds one to the per-hour sum,
    whether the hour is new or not. *)
Lemma hours_total_bump (by_hour : gmap Z bucket) (hour : Z) (is_correct : bool) :
  hours_total (<[hour := bump is_correct (default zero_bucket (by_hour !! hour))]> by_hour)
  = hours_total by_hour + 1.
Proof.
  unfold hours_total.
  assert (Hbump : ∀ b, bucket_total (bump is_correct b) = bucket_total b + 1).
  { intros b. unfold bucket_total, bump. destruct is_correct; simpl; lia. }
  destruct (by_hour !! hour) as [b|] eqn:Hb; simpl.
  - rewrite <- (insert_delete_eq by_hour).
    rewrite (sum_with_Permutation _ _ _
               (map_to_list_insert (delete hour by_hour) hour _ (lookup_delete_eq _ _))).
    rewrite <- (sum_with_Permutation _ _ _ (map_to_list_delete by_hour hour b Hb)).
    simpl. rewrite Hbump. lia.
  - rewrite (sum_with_Permutation _ _ _ (map_to_list_insert by_hour hour _ Hb)).
    simpl. rewrite Hbump. unfold bucket_total. simpl. lia.
Qed.

Lemma tier_total_bump (keys : list string) (key : string) (is_correct : bool)
    (stats stats' : gmap string bucket) :
  NoDup keys →
  bump_bucket key is_correct stats = Ok stats' →
  tier_total keys stats' = tier_total keys stats + (if bool_decide (key ∈ keys) then 1 else 0).
Proof.
  intros Hnd Hbump. unfold tier_total.
  induction Hnd as [|k keys Hk Hnd IH]; simpl; [done|].
  rewrite IH, (bump_bucket_tot key is_correct stats stats' k Hbump).
  destruct (String.eqb_spec k key) as [->|Hne].
  - rewrite (bool_decide_eq_true_2 (key ∈ key :: keys)) by (by left).
    rewrite (bool_decide_eq_false_2 (key ∈ keys)) by done. lia.
  - destruct (decide (key ∈ keys)) as [Hin|Hout].
    + rewrite (bool_decide_eq_true_2 (key ∈ keys)) by done.
      rewrite (bool_decide_eq_true_2 (key ∈ k :: keys)) by (by right). lia.
    + rewrite (bool_decide_eq_false_2 (key ∈ keys)) by done.
      rewrite (bool_decide_eq_false_2 (key ∈ k :: keys)); [lia|].
      intros [->|Hin]%elem_of_cons; done.
Qed.

Ltac in_a24_names :=
  unfold a24_bucket_names;
  repeat (apply elem_of_cons; first [left; reflexivity | right]).

(** [results[key][...] += 1] of analyze_24h.py for a key that is neither
    'total' nor 'by_hour' and names a bucket. *)
Lemma a24_bump_named (key : string) (is_correct : bool) (res : analyze_24h.results) :
  key ∉ ["total"; "by_hour"] →
  is_Some (analyze_24h.named res !! key) →
  has_buckets a24_bucket_names (analyze_24h.named res) →
  ∃ named',
    bump_bucket key is_correct (analyze_24h.named res) = Ok named' ∧
    has_buckets a24_bucket_names named' ∧
    analyze_24h.bump_key key is_correct res
    = Ok {| analyze_24h.total := analyze_24h.total res;
            analyze_24h.details := analyze_24h.details res;
            analyze_24h.named := named';
            analyze_24h.by_hour := analyze_24h.by_hour res |}.
Proof.
  intros Hout [b Hb] Hhas. unfold analyze_24h.bump_key.
  rewrite decide_False by (intros ->; apply Hout; by left).
  rewrite decide_False by (intros ->; apply Hout; right; by left).
  unfold bump_bucket, get_bucket. rewrite Hb. simpl.
  eexists. split; [done|]. split; [|done].
  intros k Hk. destruct (decide (key = k)) as [->|Hne].
  - rewrite lookup_insert_eq. by eexists.
  - rewrite lookup_insert_ne by done. by apply Hhas.
Qed.

Ltac a24_not_in H :=
  let Hin := fresh "Hin" in
  intros Hin; apply H; unfold a24_reserved;
  repeat (apply elem_of_cons in Hin as [->|Hin];
          [repeat (apply elem_of_cons; first [left; reflexivity | right])|]);
  by apply elem_of_nil in Hin.

(** What one record adds to the buckets in [analyze_signals], when its
    regime is not the name of another key of [results]. *)
Lemma a24_score_signal_spec (is_correct : bool) (res : analyze_24h.results)
    (s : signal_rec) :
  has_buckets a24_bucket_names (analyze_24h.named res) →
  regime_or_unknown s ∉ a24_reserved →
  ∃ res',
    analyze_24h.score_signal is_correct res s = Ok res' ∧
    has_buckets a24_bucket_names (analyze_24h.named res') ∧
    analyze_24h.total res' = analyze_24h.total res ∧
    analyze_24h.details res' = analyze_24h.details res ∧
    analyze_24h.by_hour res' = analyze_24h.by_hour res ∧
    tier_total vote_buckets (analyze_24h.named res')
      = tier_total vote_buckets (analyze_24h.named res) ∧
    tier_total strength_tiers (analyze_24h.named res')
      = tier_total strength_tiers (analyze_24h.named res)
        + (if has_strength s then 1 else 0) ∧
    tier_total timing_tiers (analyze_24h.named res')
      = tier_total timing_tiers (analyze_24h.named res)
        + (if has_strength s && has_timing s then 1 else 0) ∧
    tier_total market_regimes (analyze_24h.named res')
      = tier_total market_regimes (analyze_24h.named res)
        + (if has_strength s && has_timing s
              && bool_decide (regime_or_unknown s ∈ market_regimes) then 1 else 0).
Proof.
  intros Hhas Hreg. unfold analyze_24h.score_signal. cbv zeta.
  fold (regime_or_unknown s).
  assert (Hv : NoDup vote_buckets) by (apply (bool_decide_unpack _); by vm_compute).
  assert (Hs : NoDup strength_tiers) by (apply (bool_decide_unpack _); by vm_compute).
  assert (Ht : NoDup timing_tiers) by (apply (bool_decide_unpack _); by vm_compute).
  assert (Hr : NoDup market_regimes) by (apply (bool_decide_unpack _); by vm_compute).
  (* the strength tier *)
  set (strength := if str_in "STRONG" (s_rec s) then Some "STRONG"
                   else if str_in "GOOD" (s_rec s) then Some "GOOD" else None).
  assert (Hstrength : match strength with
                      | Some key => has_strength s = true ∧ key ∈ strength_tiers
                      | None => has_strength s = false
                      end).
  { unfold strength, has_strength.
    destruct (str_in "STRONG" (s_rec s)); [split; [done|by left]|].
    destruct (str_in "GOOD" (s_rec s)); [split; [done|right; by left]|done]. }
  destruct strength as [key|].
  2:{ rewrite Hstrength. simpl. exists res. repeat split; (done || lia). }
  destruct Hstrength as [-> Hkey]. simpl.
  destruct (a24_bump_named key is_correct res) as (named1 & Hb1 & Hhas1 & ->); [| |done|].
  { intros Hin. unfold strength_tiers in Hkey.
    repeat (apply elem_of_cons in Hkey as [->|Hkey];
            [repeat (apply elem_of_cons in Hin as [[=]|Hin]); by apply elem_of_nil in Hin|]).
    by apply elem_of_nil in Hkey. }
  { apply Hhas. unfold strength_tiers in Hkey.
    repeat (apply elem_of_cons in Hkey as [->|Hkey]; [in_a24_names|]).
    by apply elem_of_nil in Hkey. }
  simpl.
  pose proof (tier_total_bump vote_buckets _ _ _ _ Hv Hb1) as Hv1.
  pose proof (tier_total_bump strength_tiers _ _ _ _ Hs Hb1) as Hs1.
  pose proof (tier_total_bump timing_tiers _ _ _ _ Ht Hb1) as Ht1.
  pose proof (tier_total_bump market_regimes _ _ _ _ Hr Hb1) as Hr1.
  rewrite (bool_decide_eq_true_2 _ Hkey) in Hs1.
  assert (Hkey_only : bool_decide (key ∈ vote_buckets) = false ∧
                      bool_decide (key ∈ timing_tiers) = false ∧
                      bool_decide (key ∈ market_regimes) = false).
  { unfold strength_tiers in Hkey.
    repeat (apply elem_of_cons in Hkey as [->|Hkey]; [by vm_compute|]).
    by apply elem_of_nil in Hkey. }
  destruct Hkey_only as (Hk1 & Hk2 & Hk3). rewrite Hk1 in Hv1. rewrite Hk2 in Ht1.
  rewrite Hk3 in Hr1. clear Hk1 Hk2 Hk3.
  (* the timing tier *)
  set (timing := if str_in "EARLY" (s_rec s) then Some "EARLY"
                 else if str_in "MID" (s_rec s) then Some "MID"
                 else if str_in "LATE" (s_rec s) then Some "LATE" else None).
  assert (Htiming : match timing with
                    | Some key => has_timing s = true ∧ key ∈ timing_tiers
                    | None => has_timing s = false
                    end).
  { unfold timing, has_timing.
    destruct (str_in "EARLY" (s_rec s)); [split; [done|by left]|].
    destruct (str_in "MID" (s_rec s)); [split; [done|right; by left]|].
    destruct (str_in "LATE" (s_rec s)); [split; [done|do 2 right; by left]|done]. }
  destruct timing as [tkey|].
  2:{ rewrite Htiming. simpl. eexists. split; [done|]. simpl.
      repeat split; (done || lia). }
  destruct Htiming as [-> Htkey]. simpl.
  set (res1 := {| analyze_24h.total := analyze_24h.total res;
                  analyze_24h.details := analyze_24h.details res;
                  analyze_24h.named := named1;
                  analyze_24h.by_hour := analyze_24h.by_hour res |}).
  destruct (a24_bump_named tkey is_correct res1) as (named2 & Hb2 & Hhas2 & ->);
    [| |done|].
  { intros Hin. unfold timing_tiers in Htkey.
    repeat (apply elem_of_cons in Htkey as [->|Htkey];
            [repeat (apply elem_of_cons in Hin as [[=]|Hin]); by apply elem_of_nil in Hin|]).
    by apply elem_of_nil in Htkey. }
  { apply Hhas1. unfold timing_tiers in Htkey.
    repeat (apply elem_of_cons in Htkey as [->|Htkey]; [in_a24_names|]).
    by apply elem_of_nil in Htkey. }
  simpl.
  pose proof (tier_total_bump vote_buckets _ _ _ _ Hv Hb2) as Hv2.
  pose proof (tier_total_bump strength_tiers _ _ _ _ Hs Hb2) as Hs2.
  pose proof (tier_total_bump timing_tiers _ _ _ _ Ht Hb2) as Ht2.
  pose proof (tier_total_bump market_regimes _ _ _ _ Hr Hb2) as Hr2.
  change (analyze_24h.named res1) with named1 in Hv2, Hs2, Ht2, Hr2.
  rewrite (bool_decide_eq_true_2 _ Htkey) in Ht2.
  assert (Htkey_only : bool_decide (tkey ∈ vote_buckets) = false ∧
                       bool_decide (tkey ∈ strength_tiers) = false ∧
                       bool_decide (tkey ∈ market_regimes) = false).
  { unfold timing_tiers in Htkey.
    repeat (apply elem_of_cons in Htkey as [->|Htkey]; [by vm_compute|]).
    by apply elem_of_nil in Htkey. }
  destruct Htkey_only as (Hk1 & Hk2 & Hk3). rewrite Hk1 in Hv2. rewrite Hk2 in Hs2.
  rewrite Hk3 in Hr2. clear Hk1 Hk2 Hk3.
  (* the regime *)
  match goal with
  | |- context [analyze_24h.in_results _ ?r] => set (res2 := r)
  end.
  assert (Hhas2' : has_buckets a24_bucket_names (analyze_24h.named res2)) by done.
  assert (Hplain : regime_or_unknown s ∉ ["total"; "by_hour"]) by a24_not_in Hreg.
  destruct (analyze_24h.in_results (regime_or_unknown s) res2) eqn:Hin.
  - unfold analyze_24h.in_results in Hin.
    rewrite (bool_decide_eq_false_2 _ Hplain) in Hin. simpl in Hin.
    apply bool_decide_eq_true in Hin.
    destruct (a24_bump_named (regime_or_unknown s) is_correct res2)
      as (named3 & Hb3 & Hhas3 & ->); [done..|].
    eexists. split; [done|]. simpl.
    pose proof (tier_total_bump vote_buckets _ _ _ _ Hv Hb3) as Hv3.
    pose proof (tier_total_bump strength_tiers _ _ _ _ Hs Hb3) as Hs3.
    pose proof (tier_total_bump timing_tiers _ _ _ _ Ht Hb3) as Ht3.
    pose proof (tier_total_bump market_regimes _ _ _ _ Hr Hb3) as Hr3.
    rewrite (bool_decide_eq_false_2 (_ ∈ vote_buckets)) in Hv3 by a24_not_in Hreg.
    rewrite (bool_decide_eq_false_2 (_ ∈ strength_tiers)) in Hs3 by a24_not_in Hreg.
    rewrite (bool_decide_eq_false_2 (_ ∈ timing_tiers)) in Ht3 by a24_not_in Hreg.
    change (analyze_24h.named res2) with named2 in Hv3, Hs3, Ht3, Hr3.
    repeat split; (done || lia).
  - eexists. split; [done|]. simpl.
    rewrite (bool_decide_eq_false_2 (_ ∈ market_regimes)).
    { repeat split; (done || lia). }
    intros Hmr. unfold analyze_24h.in_results in Hin.
    apply orb_false_iff in Hin as [_ Hin]. apply bool_decide_eq_false in Hin.
    apply Hin, Hhas2. unfold market_regimes in Hmr.
    repeat (apply elem_of_cons in Hmr as [->|Hmr]; [in_a24_names|]).
    by apply elem_of_nil in Hmr.
Qed.

(** The inner [for s in signals:] of [analyze_signals]. *)
Lemma a24_signals_spec (is_correct : bool) (sigs : list signal_rec)
    (res : analyze_24h.results) :
  has_buckets a24_bucket_names (analyze_24h.named res) →
  (∀ s, s ∈ sigs → regime_or_unknown s ∉ a24_reserved) →
  ∃ res',
    for_each (analyze_24h.score_signal is_correct) sigs res = Ok res' ∧
    has_buckets a24_bucket_names (analyze_24h.named res') ∧
    analyze_24h.total res' = analyze_24h.total res ∧
    analyze_24h.details res' = analyze_24h.details res ∧
    analyze_24h.by_hour res' = analyze_24h.by_hour res ∧
    tier_total vote_buckets (analyze_24h.named res')
      = tier_total vote_buckets (analyze_24h.named res) ∧
    tier_total strength_tiers (analyze_24h.named res')
      = tier_total strength_tiers (analyze_24h.named res)
        + sum_with (fun s => if has_strength s then 1 else 0) sigs ∧
    tier_total timing_tiers (analyze_24h.named res')
      = tier_total timing_tiers (analyze_24h.named res)
        + sum_with (fun s => if has_strength s && has_timing s then 1 else 0) sigs ∧
    tier_total market_regimes (analyze_24h.named res')
      = tier_total market_regimes (analyze_24h.named res)
        + sum_with (fun s => if has_strength s && has_timing s
                                && bool_decide (regime_or_unknown s ∈ market_regimes)
                             then 1 else 0) sigs.
Proof.
  revert res. induction sigs as [|s sigs IH]; intros res Hhas Hreg; simpl.
  - exists res. repeat split; (done || lia).
  - destruct (a24_score_signal_spec is_correct res s Hhas)
      as (res1 & -> & Hhas1 & Ht1 & Hd1 & Hh1 & Hv1 & Hs1 & Hti1 & Hr1);
      [apply Hreg; by left|].
    destruct (IH res1 Hhas1) as (res2 & -> & Hhas2 & Ht2 & Hd2 & Hh2 & Hv2 & Hs2 & Hti2 & Hr2);
      [intros s' Hs'; apply Hreg; by right|].
    exists res2. repeat split; (done || congruence || lia).
Qed.

Lemma a24_bump_total (is_correct : bool) (res : analyze_24h.results) :
  analyze_24h.bump_key "total" is_correct res
  = Ok {| analyze_24h.total := bump is_correct (analyze_24h.total res);
          analyze_24h.details := analyze_24h.details res;
          analyze_24h.named := analyze_24h.named res;
          analyze_24h.by_hour := analyze_24h.by_hour res |}.
Proof. reflexivity. Qed.

(** One iteration of the window loop of [analyze_signals]. *)
Lemma a24_score_window_spec (cal : calendar) (active : gmap Z (list signal_rec))
    (klines : gmap Z kline) (res : analyze_24h.results) (w : Z)
    (sigs : list signal_rec) :
  has_buckets a24_bucket_names (analyze_24h.named res) →
  active !! w = Some sigs →
  (∀ s, s ∈ sigs → regime_or_unknown s ∉ a24_reserved) →
  ∃ res',
    analyze_24h.score_window cal active klines res w = Ok res' ∧
    has_buckets a24_bucket_names (analyze_24h.named res') ∧
    let n := if scorable_by analyze_24h.determine_vote active klines w
             then 1 else 0 in
    bucket_total (analyze_24h.total res') = bucket_total (analyze_24h.total res) + n ∧
    Z.of_nat (length (analyze_24h.details res'))
      = Z.of_nat (length (analyze_24h.details res)) + n ∧
    hours_total (analyze_24h.by_hour res') = hours_total (analyze_24h.by_hour res) + n ∧
    tier_total vote_buckets (analyze_24h.named res')
      = tier_total vote_buckets (analyze_24h.named res) + n ∧
    tier_total strength_tiers (analyze_24h.named res')
      = tier_total strength_tiers (analyze_24h.named res)
        + n * sum_with (fun s => if has_strength s then 1 else 0) sigs ∧
    tier_total timing_tiers (analyze_24h.named res')
      = tier_total timing_tiers (analyze_24h.named res)
        + n * sum_with (fun s => if has_strength s && has_timing s then 1 else 0) sigs ∧
    tier_total market_regimes (analyze_24h.named res')
      = tier_total market_regimes (analyze_24h.named res)
        + n * sum_with (fun s => if has_strength s && has_timing s
                                    && bool_decide (regime_or_unknown s ∈ market_regimes)
                                 then 1 else 0) sigs.
Proof.
  intros Hhas Hw Hreg. unfold analyze_24h.score_window, scorable_by.
  destruct (klines !! w) as [kline|]; [|exists res; repeat split; (done || lia)].
  rewrite Hw. cbv zeta.
  case_decide as Hvote.
  { rewrite bool_decide_eq_false_2 by auto. exists res. repeat split; (done || lia). }
  rewrite (bool_decide_eq_true_2 _ Hvote).
  set (is_correct := bool_decide (analyze_24h.determine_vote sigs = kl_result kline)).
  rewrite a24_bump_total. simpl.
  match goal with
  | |- context [analyze_24h.bump_key ?k is_correct ?r] =>
      destruct (a24_bump_named k is_correct r) as (named1 & Hb1 & Hhas1 & ->);
        [|apply Hhas|done|]
  end.
  { intros Hin. case_decide;
      repeat (apply elem_of_cons in Hin as [[=]|Hin]); by apply elem_of_nil in Hin. }
  { case_decide; in_a24_names. }
  simpl. simpl in Hb1.
  match goal with
  | |- context [for_each _ sigs ?r] =>
      destruct (a24_signals_spec is_correct sigs r)
        as (res' & -> & Hhas' & Ht & Hd & Hh & Hv & Hs & Hti & Hr); [done..|]
  end.
  simpl in Ht, Hd, Hh, Hv, Hs, Hti, Hr.
  exists res'. split; [done|]. split; [done|]. cbv zeta.
  assert (Hnd : ∀ keys, keys ∈ [vote_buckets; strength_tiers; timing_tiers; market_regimes] →
                        NoDup keys).
  { intros keys Hkeys.
    repeat (apply elem_of_cons in Hkeys as [->|Hkeys];
            [apply (bool_decide_unpack _); by vm_compute|]).
    by apply elem_of_nil in Hkeys. }
  pose proof (tier_total_bump vote_buckets _ _ _ _
                (Hnd _ ltac:(by left)) Hb1) as Hv1.
  pose proof (tier_total_bump strength_tiers _ _ _ _
                (Hnd _ ltac:(right; by left)) Hb1) as Hs1.
  pose proof (tier_total_bump timing_tiers _ _ _ _
                (Hnd _ ltac:(do 2 right; by left)) Hb1) as Hti1.
  pose proof (tier_total_bump market_regimes _ _ _ _
                (Hnd _ ltac:(do 3 right; by left)) Hb1) as Hr1.
  assert (Hkey : ∀ k : string, k = "UP_vote" ∨ k = "DOWN_vote" →
            bool_decide (k ∈ vote_buckets) = true ∧
            bool_decide (k ∈ strength_tiers) = false ∧
            bool_decide (k ∈ timing_tiers) = false ∧
            bool_decide (k ∈ market_regimes) = false).
  { intros k [-> | ->]; by vm_compute. }
  match type of Hb1 with
  | bump_bucket ?k _ _ = _ =>
      destruct (Hkey k) as (Hk1 & Hk2 & Hk3 & Hk4); [case_decide; auto|]
  end.
  rewrite Hk1 in Hv1. rewrite Hk2 in Hs1. rewrite Hk3 in Hti1. rewrite Hk4 in Hr1.
  rewrite Ht, Hd, Hh, Hv, Hs, Hti, Hr, length_app, hours_total_bump. simpl.
  assert (Hbump : ∀ b, bucket_total (bump is_correct b) = bucket_total b + 1).
  { intros b. unfold bucket_total, bump. destruct is_correct; simpl; lia. }
  rewrite Hbump. repeat split; lia.
Qed.

Lemma group_rows_members (mk : row -> signal_rec) (df : list row) (w : Z)
    (sigs : list signal_rec) :
  active_of (group_rows mk df) !! w = Some sigs →
  sigs ≠ [] ∧ ∀ s, s ∈ sigs → ∃ r, s = mk r ∧ r ∈ df ∧ actionable r = true.
Proof.
  rewrite active_of_group_rows, group_rows_lookup.
  destruct (List.filter actionable (rows_of_window w df)) as [|r kept] eqn:Hkept; [done|].
  intros [= <-]. split; [done|].
  intros s Hs. change (s ∈ mk <$> r :: kept) in Hs.
  apply list_elem_of_fmap in Hs as (r' & -> & Hr').
  rewrite <- Hkept in Hr'. apply list_elem_of_In, filter_In in Hr' as [Hin Hact].
  exists r'. split; [done|]. split; [|done].
  unfold rows_of_window in Hin. apply filter_In in Hin as [Hin _].
  by apply list_elem_of_In.
Qed.

Lemma sum_with_indicator {A} (p : A -> bool) (l : list A) :
  sum_with (fun x => if p x then 1 else 0) l = Z.of_nat (length (List.filter p l)).
Proof. induction l as [|x l IH]; simpl; [done|]. destruct (p x); simpl; lia. Qed.

(** When no row's regime is the name of another key of [results],
    [analyze_signals] returns, and its counters are consistent. *)
Lemma a24_analyze_invariant (cal : calendar) (df : list row) (klines : gmap Z kline) :
  (∀ r, r ∈ df → row_regime r ∉ a24_reserved) →
  ∃ res,
    analyze_24h.analyze_signals cal df klines = Ok res ∧
    has_buckets a24_bucket_names (analyze_24h.named res) ∧
    counted_once res ∧ tiers_nested res.
Proof.
  intros Hreg. unfold analyze_24h.analyze_signals. cbv zeta.
  set (active := active_of (analyze_24h.group_signals_by_window df)).
  apply (for_each_Ok
           (fun res => has_buckets a24_bucket_names (analyze_24h.named res) ∧
                       counted_once res ∧ tiers_nested res)).
  2:{ split; [|by vm_compute].
      intros k Hk. unfold a24_bucket_names in Hk.
      repeat (apply elem_of_cons in Hk as [->|Hk]; [by eexists|]).
      by apply elem_of_nil in Hk. }
  intros res w Hw (Hhas & (Hc1 & Hc2 & Hc3) & (Hn1 & Hn2 & Hn3)).
  apply elem_of_sorted_keys in Hw as [sigs Hsigs].
  pose proof (group_rows_members _ df w sigs Hsigs) as [Hne Hmem].
  destruct (a24_score_window_spec cal active klines res w sigs Hhas Hsigs)
    as (res' & -> & Hhas' & Ht & Hd & Hh & Hv & Hs & Hti & Hr).
  { intros s (r & -> & Hr & _)%Hmem. by apply Hreg. }
  exists res'. split; [done|]. split; [done|].
  assert (Hall : sum_with (fun s => if has_strength s then 1 else 0) sigs
                 = Z.of_nat (length sigs)).
  { rewrite <- (sum_with_ones sigs). apply sum_with_ext.
    intros s (r & -> & _ & Hact)%Hmem.
    change (has_strength (full_signal_of_row r)) with (actionable r). by rewrite Hact. }
  assert (Hlen : 1 ≤ Z.of_nat (length sigs)) by (destruct sigs; [done|simpl; lia]).
  assert (H1 : sum_with (fun s => if has_strength s && has_timing s
                                     && bool_decide (regime_or_unknown s ∈ market_regimes)
                                  then 1 else 0) sigs
               ≤ sum_with (fun s => if has_strength s && has_timing s then 1 else 0) sigs).
  { apply sum_with_le. intros s _.
    destruct (has_strength s), (has_timing s), (bool_decide _); simpl; lia. }
  assert (H2 : sum_with (fun s => if has_strength s && has_timing s then 1 else 0) sigs
               ≤ sum_with (fun s => if has_strength s then 1 else 0) sigs).
  { apply sum_with_le. intros s _. destruct (has_strength s), (has_timing s); simpl; lia. }
  unfold counted_once, tiers_nested. cbv zeta in *.
  destruct (scorable_by analyze_24h.determine_vote active klines w);
    repeat split; lia.
Qed.

Lemma for_each_measure_inv {S A} (I : S -> Prop) (mu : S -> Z) (delta : A -> Z)
    (body : S -> A -> result S) (xs : list A) (st st' : S) :
  (∀ st x st', x ∈ xs → I st → body st x = Ok st' →
               I st' ∧ mu st' = mu st + delta x) →
  I st →
  for_each body xs st = Ok st' →
  mu st' = mu st + sum_with delta xs.
Proof.
  revert st. induction xs as [|x xs IH]; intros st Hbody Hst; simpl.
  - intros [= <-]. lia.
  - destruct (body st x) as [st1|] eqn:Hx; [|done].
    destruct (Hbody st x st1) as [Hst1 Hmu]; [by left|done..|].
    intros Hrest. apply IH in Hrest; [lia| |done].
    intros st2 y st3 Hy. apply Hbody. by right.
Qed.

(** The detail log of [analyze_signals] has one entry per window with a
    known outcome and a vote other than NEUTRAL. *)
Lemma a24_log_length (cal : calendar) (df : list row) (klines : gmap Z kline)
    (res : analyze_24h.results) :
  let active := active_of (analyze_24h.group_signals_by_window df) in
  (∀ r, r ∈ df → row_regime r ∉ a24_reserved) →
  analyze_24h.analyze_signals cal df klines = Ok res →
  length (analyze_24h.details res)
  = length (List.filter (scorable_by analyze_24h.determine_vote active klines)
                        (sorted_keys active)).
Proof.
  intros active Hreg Hres. unfold analyze_24h.analyze_signals in Hres. cbv zeta in Hres.
  fold active in Hres.
  apply (for_each_measure_inv
           (fun res => has_buckets a24_bucket_names (analyze_24h.named res))
           (fun res => Z.of_nat (length (analyze_24h.details res)))
           (fun w => if scorable_by analyze_24h.determine_vote active klines w
                     then 1 else 0)) in Hres.
  - rewrite sum_with_indicator in Hres. simpl in Hres. lia.
  - intros st w st' Hw Hhas Hstep.
    apply elem_of_sorted_keys in Hw as [sigs Hsigs].
    pose proof (group_rows_members _ df w sigs Hsigs) as [_ Hmem].
    destruct (a24_score_window_spec cal active klines st w sigs Hhas Hsigs)
      as (st1 & Hst1 & Hhas1 & _ & Hd & _).
    { intros s (r & -> & Hr & _)%Hmem. by apply Hreg. }
    rewrite Hst1 in Hstep. injection Hstep as <-. by split.
  - intros k Hk. unfold a24_bucket_names in Hk.
    repeat (apply elem_of_cons in Hk as [->|Hk]; [by eexists|]).
    by apply elem_of_nil in Hk.
Qed.

(** X16. When [analyze_signals] of analyze_24h.py returns, and no row's
    regime is the name of another key of the [results] dict ('total',
    'by_hour', a strength or timing tier, a direction bucket), the
    detail log has one entry per active window with a known outcome and
    a vote other than NEUTRAL, and every such interval is counted
    exactly once in each of three places: the global counter, the
    UP_vote and DOWN_vote buckets taken together, and the per-hour
    buckets taken together all equal the number of entries of the log. *)
Theorem a24_scored_interval_counted_once (cal : calendar) (df : list row)
    (klines : gmap Z kline) (res : analyze_24h.results) :
  let active := active_of (analyze_24h.group_signals_by_window df) in
  (∀ r, r ∈ df → row_regime r ∉ a24_reserved) →
  analyze_24h.analyze_signals cal df klines = Ok res →
  length (analyze_24h.details res)
  = length (List.filter (scorable_by analyze_24h.determine_vote active klines)
                        (sorted_keys active)) ∧
  counted_once res.
Proof.
  intros active Hreg Hres.
  destruct (a24_analyze_invariant cal df klines Hreg) as (res' & Hres' & _ & Hc & _).
  split; [by apply (a24_log_length cal df klines res)|].
  congruence.
Qed.

Lemma tiered_rows_regimes : ∀ r, r ∈ tiered_rows → row_regime r ∉ a24_reserved.
Proof.
  intros r Hr. unfold tiered_rows in Hr.
  repeat (apply elem_of_cons in Hr as [->|Hr];
          [apply (bool_decide_unpack _); by vm_compute|]).
  by apply elem_of_nil in Hr.
Qed.

Lemma a24_scored_interval_counted_once_witness :
  length (analyze_24h.details (tiered_results hour_calendar))
  = length (List.filter
              (scorable_by analyze_24h.determine_vote
                 (active_of (analyze_24h.group_signals_by_window tiered_rows))
                 two_klines)
              (sorted_keys
                 (active_of (analyze_24h.group_signals_by_window tiered_rows)))) ∧
  counted_once (tiered_results hour_calendar).
Proof.
  apply (a24_scored_interval_counted_once hour_calendar tiered_rows two_klines).
  - apply tiered_rows_regimes.
  - vm_compute. reflexivity.
Defined.

(** X17. In [analyze_signals] of analyze_24h.py a record without a
    strength tier is skipped and one without a timing tier is left after
    its strength bucket, so the tiers are nested: as long as no row's
    regime is the name of another key of [results], the four regime
    buckets together count no more records than the three timing
    buckets, those no more than STRONG and GOOD together, and STRONG and
    GOOD count at least one record for every entry of the detail log. *)
Theorem a24_tiers_are_nested (cal : calendar) (df : list row) (klines : gmap Z kline)
    (res : analyze_24h.results) :
  (∀ r, r ∈ df → row_regime r ∉ a24_reserved) →
  analyze_24h.analyze_signals cal df klines = Ok res →
  tiers_nested res.
Proof.
  intros Hreg Hres.
  destruct (a24_analyze_invariant cal df klines Hreg) as (res' & Hres' & _ & _ & Hn).
  congruence.
Qed.

Lemma a24_tiers_are_nested_witness : tiers_nested (tiered_results hour_calendar).
Proof.
  apply (a24_tiers_are_nested hour_calendar tiered_rows two_klines).
  - apply tiered_rows_regimes.
  - vm_compute. reflexivity.
Defined.

(** ** [print_results] and [main] of analyze_24h.py *)

Lemma a24_empty_wf : a24_wf analyze_24h.empty_results.
Proof.
  split; [|split; [done|split; [done|]]].
  - intros k Hk. unfold a24_bucket_names in Hk.
    repeat (apply elem_of_cons in Hk as [->|Hk]; [by eexists|]).
    by apply elem_of_nil in Hk.
  - apply map_Forall_empty.
Qed.

(** [results[key][...] += 1] of analyze_24h.py, for any key. *)
Lemma a24_bump_key_cases (key : string) (is_correct : bool) (res : analyze_24h.results) :
  a24_wf res →
  match analyze_24h.bump_key key is_correct res with
  | Ok res' => a24_wf res'
  | Raise e =>
      (e = TypeError ∧ key = "by_hour") ∨
      (e = KeyError ∧ key ≠ "total" ∧ key ≠ "by_hour" ∧
       analyze_24h.named res !! key = None)
  end.
Proof.
  intros (Hhas & Hc & Hw & Hh). unfold analyze_24h.bump_key.
  case_decide as Ht.
  { split; [done|]. simpl. unfold bump. destruct is_correct; simpl; repeat split; (done || lia). }
  case_decide as Hb; [by left|].
  unfold bump_bucket, get_bucket.
  destruct (analyze_24h.named res !! key) as [b|] eqn:Hkey; simpl; [|by right].
  split; [|done]. intros k Hk. simpl.
  destruct (decide (key = k)) as [->|Hne].
  - rewrite lookup_insert_eq. by eexists.
  - rewrite lookup_insert_ne by done. by apply Hhas.
Qed.

Lemma a24_bump_named_wf (key : string) (is_correct : bool) (res : analyze_24h.results) :
  key ∈ a24_bucket_names →
  a24_wf res →
  ∃ res', analyze_24h.bump_key key is_correct res = Ok res' ∧ a24_wf res'.
Proof.
  intros Hkey Hwf.
  pose proof (a24_bump_key_cases key is_correct res Hwf) as Hcases.
  destruct (analyze_24h.bump_key key is_correct res) as [res'|e]; [by exists res'|].
  exfalso. destruct Hcases as [[_ ->]|(_ & _ & Hnone)].
  - unfold a24_bucket_names in Hkey.
    repeat (apply elem_of_cons in Hkey as [[=]|Hkey]). by apply elem_of_nil in Hkey.
  - destruct Hnone as [_ Hnone].
    destruct Hwf as [Hhas _]. destruct (Hhas key Hkey) as [b Hb]. congruence.
Qed.

(** The per-record step of [analyze_signals], for any regime: it fails
    only for a record with a strength and a timing tier whose regime
    reads "by_hour". *)
Lemma a24_score_signal_cases (is_correct : bool) (res : analyze_24h.results)
    (s : signal_rec) :
  a24_wf res →
  match analyze_24h.score_signal is_correct res s with
  | Ok res' => a24_wf res'
  | Raise e =>
      e = TypeError ∧ regime_or_unknown s = "by_hour" ∧
      has_strength s = true ∧ has_timing s = true
  end.
Proof.
  intros Hwf. unfold analyze_24h.score_signal. cbv zeta. fold (regime_or_unknown s).
  set (strength := if str_in "STRONG" (s_rec s) then Some "STRONG"
                   else if str_in "GOOD" (s_rec s) then Some "GOOD" else None).
  assert (Hstrength : match strength with
                      | Some key => has_strength s = true ∧ key ∈ a24_bucket_names
                      | None => True
                      end).
  { unfold strength, has_strength.
    destruct (str_in "STRONG" (s_rec s)); [split; [done|in_a24_names]|].
    destruct (str_in "GOOD" (s_rec s)); [split; [done|in_a24_names]|done]. }
  destruct strength as [key|]; [|done].
  destruct Hstrength as [Hs Hkey].
  destruct (a24_bump_named_wf key is_correct res Hkey Hwf) as (res1 & -> & Hwf1). simpl.
  set (timing := if str_in "EARLY" (s_rec s) then Some "EARLY"
                 else if str_in "MID" (s_rec s) then Some "MID"
                 else if str_in "LATE" (s_rec s) then Some "LATE" else None).
  assert (Htiming : match timing with
                    | Some key => has_timing s = true ∧ key ∈ a24_bucket_names
                    | None => True
                    end).
  { unfold timing, has_timing.
    destruct (str_in "EARLY" (s_rec s)); [split; [done|in_a24_names]|].
    destruct (str_in "MID" (s_rec s)); [split; [done|in_a24_names]|].
    destruct (str_in "LATE" (s_rec s)); [split; [done|in_a24_names]|done]. }
  destruct timing as [tkey|]; [|done].
  destruct Htiming as [Ht Htkey].
  destruct (a24_bump_named_wf tkey is_correct res1 Htkey Hwf1) as (res2 & -> & Hwf2). simpl.
  destruct (analyze_24h.in_results (regime_or_unknown s) res2) eqn:Hin; [|done].
  pose proof (a24_bump_key_cases (regime_or_unknown s) is_correct res2 Hwf2) as Hcases.
  destruct (analyze_24h.bump_key (regime_or_unknown s) is_correct res2) as [res3|e];
    [done|].
  destruct Hcases as [[-> Hreg]|(_ & Hnt & Hnb & Hnone)]; [done|].
  exfalso. unfold analyze_24h.in_results in Hin.
  apply orb_true_iff in Hin as [Hin|Hin].
  - apply bool_decide_eq_true in Hin.
    apply elem_of_cons in Hin as [Hin|Hin]; [done|].
    apply elem_of_cons in Hin as [Hin|Hin]; [done|by apply elem_of_nil in Hin].
  - apply bool_decide_eq_true in Hin as [b Hb]. congruence.
Qed.

(** The inner record loop of [analyze_signals], for any regimes. *)
Lemma a24_signals_cases (is_correct : bool) (sigs : list signal_rec)
    (res : analyze_24h.results) :
  a24_wf res →
  match for_each (analyze_24h.score_signal is_correct) sigs res with
  | Ok res' => a24_wf res'
  | Raise e => e = TypeError ∧ ∃ s, s ∈ sigs ∧ regime_or_unknown s = "by_hour"
  end.
Proof.
  apply (for_each_cases a24_wf
           (fun e => e = TypeError ∧ ∃ s, s ∈ sigs ∧ regime_or_unknown s = "by_hour")).
  intros st s Hs Hst.
  pose proof (a24_score_signal_cases is_correct st s Hst) as Hcases.
  destruct (analyze_24h.score_signal is_correct st s); [done|].
  destruct Hcases as (-> & Hreg & _). split; [done|]. by exists s.
Qed.

(** One iteration of the window loop of [analyze_signals], for any
    regimes. *)
Lemma a24_score_window_cases (cal : calendar) (active : gmap Z (list signal_rec))
    (klines : gmap Z kline) (res : analyze_24h.results) (w : Z) :
  a24_wf res →
  is_Some (active !! w) →
  match analyze_24h.score_window cal active klines res w with
  | Ok res' => a24_wf res'
  | Raise e =>
      e = TypeError ∧
      ∃ sigs s, active !! w = Some sigs ∧ s ∈ sigs ∧ regime_or_unknown s = "by_hour"
  end.
Proof.
  intros Hwf [sigs Hsigs]. unfold analyze_24h.score_window.
  destruct (klines !! w) as [kline|]; [|done].
  rewrite Hsigs. cbv zeta. case_decide as Hvote; [done|].
  set (is_correct := bool_decide (analyze_24h.determine_vote sigs = kl_result kline)).
  rewrite a24_bump_total. simpl.
  assert (Hbump : ∀ b, 0 ≤ correct b → 0 ≤ wrong b →
            0 ≤ correct (bump is_correct b) ∧ 0 ≤ wrong (bump is_correct b) ∧
            bucket_total (bump is_correct b) = bucket_total b + 1).
  { intros b ? ?. unfold bump, bucket_total. destruct is_correct; simpl; lia. }
  destruct Hwf as (Hhas & Hc & Hw & Hh).
  destruct (Hbump (analyze_24h.total res) Hc Hw) as (Hc1 & Hw1 & _).
  match goal with
  | |- context [analyze_24h.bump_key ?k is_correct ?r] =>
      destruct (a24_bump_named_wf k is_correct r) as (res1 & -> & Hwf1)
  end.
  { case_decide; in_a24_names. }
  { by repeat split. }
  simpl.
  match goal with
  | |- context [for_each _ sigs ?r] =>
      pose proof (a24_signals_cases is_correct sigs r) as Hloop
  end.
  destruct (for_each (analyze_24h.score_signal is_correct) sigs _) as [res2|e].
  - apply Hloop. destruct Hwf1 as (Hhas1 & Hc2 & Hw2 & Hh1).
    split; [done|]. split; [done|]. split; [done|]. simpl.
    apply map_Forall_insert_2; [|done].
    unfold bump, bucket_total.
    destruct (analyze_24h.by_hour res1 !! dt_hour cal w) as [b|] eqn:Hb; simpl.
    + apply Hh1 in Hb. unfold bucket_total in Hb. destruct is_correct; simpl; lia.
    + destruct is_correct; simpl; lia.
  - destruct Hloop as [-> (s & Hs & Hreg)].
    + destruct Hwf1 as (Hhas1 & Hc2 & Hw2 & Hh1).
      split; [done|]. split; [done|]. split; [done|]. simpl.
      apply map_Forall_insert_2; [|done].
      unfold bump, bucket_total.
      destruct (analyze_24h.by_hour res1 !! dt_hour cal w) as [b|] eqn:Hb; simpl.
      * apply Hh1 in Hb. unfold bucket_total in Hb. destruct is_correct; simpl; lia.
      * destruct is_correct; simpl; lia.
    + split; [done|]. by exists sigs, s.
Qed.

(** [analyze_signals] returns a well-formed [results], or raises a
    TypeError over an actionable row whose regime reads "by_hour". *)
Lemma a24_analyze_cases (cal : calendar) (df : list row) (klines : gmap Z kline) :
  match analyze_24h.analyze_signals cal df klines with
  | Ok res => a24_wf res
  | Raise e => e = TypeError ∧ row_with_regime "by_hour" df
  end.
Proof.
  unfold analyze_24h.analyze_signals. cbv zeta.
  apply (for_each_cases a24_wf
           (fun e => e = TypeError ∧ row_with_regime "by_hour" df));
    [|apply a24_empty_wf].
  intros st w Hw Hst. apply elem_of_sorted_keys in Hw.
  pose proof (a24_score_window_cases cal _ klines st w Hst Hw) as Hcases.
  destruct (analyze_24h.score_window cal _ klines st w); [done|].
  destruct Hcases as (-> & sigs & s & Hsigs & Hs & Hreg). split; [done|].
  apply group_rows_members in Hsigs as [_ Hmem].
  destruct (Hmem s Hs) as (r & -> & Hr & Hact).
  by exists r.
Qed.

Lemma a24_hour_lines_spec (by_hour : gmap Z bucket) :
  map_Forall (fun _ b => 0 < bucket_total b) by_hour →
  ∃ hours, analyze_24h.hour_lines by_hour = Ok hours ∧
           analyze_24h.hl_hour <$> hours = sorted_keys by_hour.
Proof.
  intros Hpos. unfold analyze_24h.hour_lines.
  assert (Hgen : ∀ hs acc, (∀ h, h ∈ hs → is_Some (by_hour !! h)) →
            ∃ hours,
              for_each (analyze_24h.hour_step by_hour) hs acc = Ok hours ∧
              analyze_24h.hl_hour <$> hours = (analyze_24h.hl_hour <$> acc) ++ hs).
  { induction hs as [|h hs IH]; intros acc Hhs; cbn [for_each].
    - exists acc. by rewrite app_nil_r.
    - destruct (Hhs h) as [b Hb]; [by left|].
      pose proof (Hpos h b Hb) as Hb_pos. unfold bucket_total in Hb_pos.
      destruct (percent_Ok (correct b) (correct b + wrong b)) as [q Hq]; [lia|].
      assert (Hstep : analyze_24h.hour_step by_hour acc h
                      = Ok (acc ++ [{| analyze_24h.hl_hour := h;
                                       analyze_24h.hl_correct := correct b;
                                       analyze_24h.hl_total := correct b + wrong b;
                                       analyze_24h.hl_acc := q |}])).
      { unfold analyze_24h.hour_step. rewrite Hb. simpl.
        rewrite decide_True by lia. by rewrite Hq. }
      rewrite Hstep.
      destruct (IH (acc ++ [{| analyze_24h.hl_hour := h;
                               analyze_24h.hl_correct := correct b;
                               analyze_24h.hl_total := correct b + wrong b;
                               analyze_24h.hl_acc := q |}]))
        as (hours & -> & Hhours); [intros h' Hh'; apply Hhs; by right|].
      exists hours. split; [done|].
      rewrite Hhours, fmap_app, <- app_assoc. done. }
  destruct (Hgen (sorted_keys by_hour) []) as (hours & Hrun & Hhours).
  { intros h Hh. by apply elem_of_sorted_keys. }
  by exists hours.
Qed.

Lemma percent_bounds (c w : Z) (q : Q) :
  0 ≤ c → 0 ≤ w → c + w > 0 →
  percent c (c + w) = Ok q →
  (0 <= q)%Q ∧ (q <= 100)%Q.
Proof.
  intros Hc Hw Ht. unfold percent. rewrite decide_False by lia. intros [= <-].
  unfold Qle, Qdiv, Qmult, Qinv, inject_Z. simpl.
  destruct (c + w) as [|p|p] eqn:Hp; [lia| |lia]. simpl. split; nia.
Qed.

(** [print_results] on a well-formed [results]. *)
Lemma a24_print_results_spec (res : analyze_24h.results) :
  a24_wf res →
  ∃ out,
    analyze_24h.print_results res = Ok out ∧
    analyze_24h.hl_hour <$> analyze_24h.p_hours out
      = sorted_keys (analyze_24h.by_hour res) ∧
    (0 <= analyze_24h.p_return out)%Q ∧ (analyze_24h.p_return out <= 100)%Q.
Proof.
  intros (Hhas & Hc & Hw & Hh). unfold analyze_24h.print_results. cbv zeta.
  assert (Hacc : ∃ accuracy,
            (if decide (correct (analyze_24h.total res)
                        + wrong (analyze_24h.total res) > 0)
             then accuracy ← percent (correct (analyze_24h.total res))
                                     (correct (analyze_24h.total res)
                                      + wrong (analyze_24h.total res));
                  Ok (Some accuracy)
             else Ok None) = Ok accuracy ∧
            (0 <= default 0%Q accuracy)%Q ∧ (default 0%Q accuracy <= 100)%Q).
  { case_decide as Ht.
    - destruct (percent_Ok (correct (analyze_24h.total res))
                  (correct (analyze_24h.total res) + wrong (analyze_24h.total res)))
        as [q Hq]; [lia|].
      rewrite Hq. simpl. exists (Some q). split; [done|].
      by apply (percent_bounds _ _ _ Hc Hw Ht).
    - exists None. split; [done|]. by split. }
  destruct Hacc as (accuracy & Hacc & Hlo & Hhi).
  rewrite (bind_Ok_eq _ _ _ Hacc).
  assert (Hsub : ∀ keys, keys ⊆ a24_bucket_names →
                   ∀ k, k ∈ keys → is_Some (analyze_24h.named res !! k)).
  { intros keys Hkeys k Hk. apply Hhas. by apply Hkeys. }
  destruct (bucket_lines_total (fun _ => []) (analyze_24h.named res) ["STRONG"; "GOOD"])
    as [l1 Hl1].
  { apply Hsub. intros k Hk.
    repeat (apply elem_of_cons in Hk as [->|Hk]; [in_a24_names|]).
    by apply elem_of_nil in Hk. }
  rewrite (bind_Ok_eq _ _ _ Hl1).
  destruct (bucket_lines_total (fun _ => []) (analyze_24h.named res)
              ["EARLY"; "MID"; "LATE"]) as [l2 Hl2].
  { apply Hsub. intros k Hk.
    repeat (apply elem_of_cons in Hk as [->|Hk]; [in_a24_names|]).
    by apply elem_of_nil in Hk. }
  rewrite (bind_Ok_eq _ _ _ Hl2).
  destruct (bucket_lines_total (fun _ => []) (analyze_24h.named res)
              ["TREND_UP"; "TREND_DOWN"; "RANGE"; "CHOP"]) as [l3 Hl3].
  { apply Hsub. intros k Hk.
    repeat (apply elem_of_cons in Hk as [->|Hk]; [in_a24_names|]).
    by apply elem_of_nil in Hk. }
  rewrite (bind_Ok_eq _ _ _ Hl3).
  destruct (bucket_lines_total (fun _ => []) (analyze_24h.named res)
              ["UP_vote"; "DOWN_vote"]) as [l4 Hl4].
  { apply Hsub. intros k Hk.
    repeat (apply elem_of_cons in Hk as [->|Hk]; [in_a24_names|]).
    by apply elem_of_nil in Hk. }
  rewrite (bind_Ok_eq _ _ _ Hl4).
  destruct (a24_hour_lines_spec _ Hh) as (hours & Hrun & Hhours).
  rewrite (bind_Ok_eq _ _ _ Hrun).
  eexists. split; [done|]. by repeat split.
Qed.

(** X18. The part of [print_results] of analyze_24h.py that reads
    [results] (from the global accuracy on) never fails on what
    [analyze_signals] returns, whatever the regimes of the rows: every
    bucket it reads is there and every division is behind a
    positive-total test. In the per-hour block that test never fails:
    each hour that has a bucket gets a line, in ascending order. The
    value returned (the global accuracy, or 0 when nothing was scored)
    lies between 0 and 100. *)
Theorem a24_report_of_analysis (cal : calendar) (df : list row) (klines : gmap Z kline)
    (res : analyze_24h.results) :
  analyze_24h.analyze_signals cal df klines = Ok res →
  ∃ out,
    analyze_24h.print_results res = Ok out ∧
    analyze_24h.hl_hour <$> analyze_24h.p_hours out
      = sorted_keys (analyze_24h.by_hour res) ∧
    (0 <= analyze_24h.p_return out)%Q ∧ (analyze_24h.p_return out <= 100)%Q.
Proof.
  intros Hres. apply a24_print_results_spec.
  pose proof (a24_analyze_cases cal df klines) as Hcases. by rewrite Hres in Hcases.
Qed.

Lemma a24_report_of_analysis_witness :
  ∃ out,
    analyze_24h.print_results (tiered_results hour_calendar) = Ok out ∧
    analyze_24h.hl_hour <$> analyze_24h.p_hours out
      = sorted_keys (analyze_24h.by_hour (tiered_results hour_calendar)) ∧
    (0 <= analyze_24h.p_return out)%Q ∧ (analyze_24h.p_return out <= 100)%Q.
Proof.
  apply (a24_report_of_analysis hour_calendar tiered_rows two_klines).
  vm_compute. reflexivity.
Defined.

Section FetchFailures.
Variable store : gmap Z kline -> candle -> gmap Z kline.
Hypothesis store_dom : ∀ m k, dom (store m k) = {[k0 k]} ∪ dom m.

(** The paginated fetch raises only for a transport failure. *)
Lemma fetch_loop_raises (script : list response) (acc : gmap Z kline)
    (cur end_time : Z) (reqs : list request) (e : exn) :
  fetch_loop store script acc cur end_time = Some (reqs, Raise e) →
  e = RequestException ∧ ConnectionError ∈ script.
Proof.
  revert acc cur reqs.
  induction script as [|resp script IH]; intros acc cur reqs; simpl.
  - by case_decide.
  - case_decide; [|done].
    destruct resp as [|status data].
    { intros [= _ <-]. split; [done|by left]. }
    case_decide; [done|].
    destruct data as [|k data]; [done|].
    destruct (store_page_max_key store store_dom k data acc) as [m Hm]. rewrite Hm.
    destruct (fetch_loop store script _ _ end_time) as [[reqs' r']|] eqn:Hrec; [|done].
    intros [= _ ->]. apply IH in Hrec as [-> Hin]. split; [done|by right].
Qed.
End FetchFailures.

(** With a record whose regime is "by_hour" in a scored window
    [analyze_signals] does raise, provided the record has a timing
    tier. *)
Lemma a24_by_hour_regime_raises :
  analyze_24h.main hour_calendar [Response 200 rising_page]
    [row_of (feb12 + 1000) "BUY UP" "STRONG_EARLY" "by_hour"] = Some (Raise TypeError) ∧
  ∃ out, analyze_24h.main hour_calendar [Response 200 rising_page]
           [row_of (feb12 + 1000) "BUY UP" "STRONG" "by_hour"] = Some (Ok (Some out)).
Proof. split; [by vm_compute|]. eexists. vm_compute. reflexivity. Qed.

(** X19. On a signal file whose lines carry an instant and a text
    signal, and with 200 bodies that are lists of candles whose fields
    convert (the inputs that rows and responses stand for here), a run
    of analyze_24h.py, from the grouping to the report printed from
    [results] (the database part aside), can fail in two ways only: with
    the transport failure of a request, which the paginated fetch does
    not catch, or with a TypeError in [analyze_signals], caused by an
    actionable row whose regime reads "by_hour". It ends without a
    report (and without a request) exactly when no row is actionable,
    and a report it returns carries an accuracy between 0 and 100. *)
Theorem a24_run_fails_in_two_ways (cal : calendar) (script : list response)
    (df : list row) :
  (∀ e, analyze_24h.main cal script df = Some (Raise e) →
        (e = RequestException ∧ ConnectionError ∈ script) ∨
        (e = TypeError ∧ row_with_regime "by_hour" df)) ∧
  (analyze_24h.main cal script df = Some (Ok None) ↔
   Forall (fun r => actionable r = false) df) ∧
  (∀ out, analyze_24h.main cal script df = Some (Ok (Some out)) →
          (0 <= analyze_24h.p_return out)%Q ∧ (analyze_24h.p_return out <= 100)%Q).
Proof.
  unfold analyze_24h.main, analyze_24h.group_signals_by_window. cbv zeta.
  destruct (decide (Forall (fun r => actionable r = false) df)) as [Hnone|Hsome].
  { rewrite group_rows_empty by done. unfold active_of.
    rewrite map_filter_empty, map_size_empty. simpl.
    split; [done|]. split; [done|]. done. }
  assert (Hex : some_actionable df).
  { apply not_Forall_Exists in Hsome; [|intros r; apply _].
    unfold some_actionable. eapply Exists_impl; [done|].
    intros r Hr. simpl in Hr. by destruct (actionable r). }
  pose proof (group_rows_nonempty full_signal_of_row df Hex) as Hsize.
  rewrite decide_False by done.
  destruct (fetch_range_Ok _ Hsize) as (f1 & f2 & ->).
  unfold analyze_24h.fetch_binance_klines, paginated_fetch.
  destruct (fetch_loop analyze_24h.store script ∅ f1 f2) as [[reqs fetched]|] eqn:Hfetch.
  2:{ split; [done|]. split; [|done]. split; [done|]. intros Hall. done. }
  destruct fetched as [klines|e0]; simpl.
  2:{ split; [|split; [split; [done|intros Hall; done]|done]].
      intros e [= <-]. left.
      by apply (fetch_loop_raises _ a24_store_dom) in Hfetch. }
  pose proof (a24_analyze_cases cal df klines) as Hcases.
  unfold analyze_24h.group_signals_by_window in *.
  destruct (analyze_24h.analyze_signals cal df klines) as [res|e1] eqn:Hres; simpl.
  2:{ split; [|split; [split; [done|intros Hall; done]|done]].
      intros e [= <-]. by right. }
  destruct (a24_print_results_spec res Hcases) as (out & -> & _ & Hlo & Hhi). simpl.
  split; [done|]. split; [split; [done|intros Hall; done]|].
  by intros out' [= <-].
Qed.

